(** * Month-grid event layout of the home-hub dashboard (static/js/calendar.js)

    A shallow embedding of the calendar module: the JavaScript [Date]
    primitives it relies on, the grid builder of [renderCalendar], the
    event classifier, [organizeEventsForGrid] (segmenter and lane
    assigner), [calculateDisplayRows], the vertical placement of
    [createSpanningEvent] and the per-cell overflow computation of the
    resize callback.

    Conventions of the embedding.
    - A [Date] object is its local time value in milliseconds, or
      [InvalidDate] (time value NaN).  The local zone is taken to have a
      fixed offset, so that local midnights are [msPerDay] apart.
    - A JavaScript number that can only be an integer or NaN is an
      [option Z], [None] standing for NaN.
    - Pixel quantities are exact rationals ([Q]).
    - [new Date()] reads the clock; the instant is the parameter [now]. *)

From Stdlib Require Import ZArith Lia QArith Qround Lqa Sorted.
From stdpp Require Import base option list gmap strings pretty.

Local Open Scope Z_scope.

(** ** Day numbers and the proleptic Gregorian calendar (ECMA-262, 21.4.1) *)

Module JSDate.

Definition msPerDay : Z := 86400000.
Definition msPerHour : Z := 3600000.
Definition msPerMinute : Z := 60000.
Definition msPerSecond : Z := 1000.
Definition maxTimeValue : Z := 8640000000000000.

Definition Day (t : Z) : Z := t / msPerDay.
Definition TimeWithinDay (t : Z) : Z := t mod msPerDay.

Definition InLeapYear (y : Z) : bool :=
  if negb (y mod 4 =? 0) then false
  else if negb (y mod 100 =? 0) then true
  else if negb (y mod 400 =? 0) then false
  else true.

Definition DaysInYear (y : Z) : Z := if InLeapYear y then 366 else 365.

Definition DayFromYear (y : Z) : Z :=
  365 * (y - 1970) + (y - 1969) / 4 - (y - 1901) / 100 + (y - 1601) / 400.

(** [YearFromTime]: the largest [y] with [DayFromYear y <= d].  The
    estimate from the mean year length is off by at most one. *)
Definition YearFromDay (d : Z) : Z :=
  let y0 := 1970 + (400 * d) / 146097 in
  if d <? DayFromYear y0 then y0 - 1
  else if DayFromYear (y0 + 1) <=? d then y0 + 1
  else y0.

Definition DayWithinYear (d : Z) : Z := d - DayFromYear (YearFromDay d).

Definition leapDays (y : Z) : Z := if InLeapYear y then 1 else 0.

(** Day within the year on which month [mn] (0..11) starts. *)
Definition monthStart (leap mn : Z) : Z :=
  match mn with
  | 0 => 0
  | 1 => 31
  | 2 => 59 + leap
  | 3 => 90 + leap
  | 4 => 120 + leap
  | 5 => 151 + leap
  | 6 => 181 + leap
  | 7 => 212 + leap
  | 8 => 243 + leap
  | 9 => 273 + leap
  | 10 => 304 + leap
  | _ => 334 + leap
  end.

Definition monthOfDayInYear (leap dwy : Z) : Z :=
  if dwy <? 31 then 0
  else if dwy <? 59 + leap then 1
  else if dwy <? 90 + leap then 2
  else if dwy <? 120 + leap then 3
  else if dwy <? 151 + leap then 4
  else if dwy <? 181 + leap then 5
  else if dwy <? 212 + leap then 6
  else if dwy <? 243 + leap then 7
  else if dwy <? 273 + leap then 8
  else if dwy <? 304 + leap then 9
  else if dwy <? 334 + leap then 10
  else 11.

Definition MonthFromDay (d : Z) : Z :=
  monthOfDayInYear (leapDays (YearFromDay d)) (DayWithinYear d).

Definition DateFromDay (d : Z) : Z :=
  let leap := leapDays (YearFromDay d) in
  DayWithinYear d - monthStart leap (MonthFromDay d) + 1.

(** Monday-based day count is not what JavaScript gives: [WeekDay] has
    0 = Sunday, and day 0 (1 January 1970) was a Thursday. *)
Definition WeekDay (d : Z) : Z := (d + 4) mod 7.

(** [MakeDay(year, month, date)] for integral arguments. *)
Definition DayFromMonth (ym mn : Z) : Z :=
  DayFromYear ym + monthStart (leapDays ym) mn.

Definition MakeDay (year month date : Z) : Z :=
  let ym := year + month / 12 in
  let mn := month mod 12 in
  DayFromMonth ym mn + date - 1.

Definition MakeDate (day time : Z) : Z := day * msPerDay + time.

Definition monthLength (leap mn : Z) : Z :=
  match mn with
  | 1 => 28 + leap
  | 3 | 5 | 8 | 10 => 30
  | _ => 31
  end.

Definition daysInMonthTable (ym mn : Z) : Z := monthLength (leapDays ym) mn.

(** ** Date objects *)

Inductive Date : Type :=
  | ValidDate (t : Z)
  | InvalidDate.

#[global] Instance Date_eq_dec : EqDecision Date.
Proof. solve_decision. Defined.

(** [TimeClip]: time values beyond 8.64e15 ms are not representable. *)
Definition TimeClip (t : Z) : Date :=
  if Z.abs t <=? maxTimeValue then ValidDate t else InvalidDate.

Definition timeValue (d : Date) : option Z :=
  match d with ValidDate t => Some t | InvalidDate => None end.

Definition getFullYear (d : Date) : option Z := YearFromDay ∘ Day <$> timeValue d.
Definition getMonth (d : Date) : option Z := MonthFromDay ∘ Day <$> timeValue d.
Definition getDate (d : Date) : option Z := DateFromDay ∘ Day <$> timeValue d.
Definition getDay (d : Date) : option Z := WeekDay ∘ Day <$> timeValue d.
Definition getHours (d : Date) : option Z :=
  (λ t, (t / msPerHour) mod 24) <$> timeValue d.
Definition getMinutes (d : Date) : option Z :=
  (λ t, (t / msPerMinute) mod 60) <$> timeValue d.
Definition getSeconds (d : Date) : option Z :=
  (λ t, (t / msPerSecond) mod 60) <$> timeValue d.

(** [new Date(year, month, day)].  A NaN argument gives an invalid date;
    a year from 0 to 99 stands for 1900 + year. *)
Definition newDate (year month day : option Z) : Date :=
  match year, month, day with
  | Some y, Some m, Some dt =>
      let yr := if (0 <=? y) && (y <=? 99) then 1900 + y else y in
      TimeClip (MakeDate (MakeDay yr m dt) 0)
  | _, _, _ => InvalidDate
  end.

(** [date.setDate(dt)]: same month and time of day, day of the month [dt]
    (which may lie outside the month). *)
Definition setDate (d : Date) (dt : option Z) : Date :=
  match d, dt with
  | ValidDate t, Some n =>
      TimeClip (MakeDate (MakeDay (YearFromDay (Day t)) (MonthFromDay (Day t)) n)
                         (TimeWithinDay t))
  | _, _ => InvalidDate
  end.

(** [a - b] on dates: the difference of the time values. *)
Definition dateDiff (a b : Date) : option Z :=
  match a, b with
  | ValidDate ta, ValidDate tb => Some (ta - tb)
  | _, _ => None
  end.

(** [String(n)] for an integer or NaN, and [String(n).padStart(2, '0')]. *)
Definition numToString (n : option Z) : string :=
  match n with Some z => pretty z | None => "NaN" end.

Definition padStart2 (s : string) : string :=
  if (String.length s <? 2)%nat then "0" +:+ s else s.

End JSDate.

(** ** calendar.js *)

Module Calendar.
Import JSDate.

(** NaN-propagating arithmetic on numbers. *)
Definition numAdd (a b : option Z) : option Z := a ≫= λ x, b ≫= λ y, Some (x + y).
Definition numSub (a b : option Z) : option Z := a ≫= λ x, b ≫= λ y, Some (x - y).

(** [getFirstDayOfMonth]: 0 = Monday, 6 = Sunday. *)
Definition getFirstDayOfMonth (year month : Z) : option Z :=
  let day := getDay (newDate (Some year) (Some month) (Some 1)) in
  (λ d, if d =? 0 then 6 else d - 1) <$> day.

Definition getDaysInMonth (year month : Z) : option Z :=
  getDate (newDate (Some year) (Some (month + 1)) (Some 0)).

(** A [for] loop whose bound is NaN does not run. *)
Definition loopBound (n : option Z) : Z := default 0 n.

(** The array [gridDates] built by [renderCalendar] for the month of
    today ([currentYear], [currentMonth]). *)
Definition buildGridDates (currentYear currentMonth : Z) : list Date :=
  let firstDay := getFirstDayOfMonth currentYear currentMonth in
  let daysInMonth := getDaysInMonth currentYear currentMonth in
  let daysInPrevMonth := getDaysInMonth currentYear (currentMonth - 1) in
  let prevDays :=
    (λ i, newDate (Some currentYear) (Some (currentMonth - 1))
                  (numSub daysInPrevMonth (Some i)))
      <$> reverse (seqZ 0 (loopBound firstDay)) in
  let monthDays :=
    (λ day, newDate (Some currentYear) (Some currentMonth) (Some day))
      <$> seqZ 1 (loopBound daysInMonth) in
  let totalCells := Z.of_nat (length (prevDays ++ monthDays)) in
  let remainingCells := if totalCells mod 7 =? 0 then 0 else 7 - totalCells mod 7 in
  let nextDays :=
    (λ day, newDate (Some currentYear) (Some (currentMonth + 1)) (Some day))
      <$> seqZ 1 remainingCells in
  prevDays ++ monthDays ++ nextDays.

(** Cells needed after the month to complete the last week. *)
Definition padding (cells : Z) : Z :=
  if cells mod 7 =? 0 then 0 else 7 - cells mod 7.

(** The Monday-based column of a date, as [getFirstDayOfMonth] converts
    [getDay]. *)
Definition mondayColumn (d : Date) : option Z :=
  (λ day, if day =? 0 then 6 else day - 1) <$> getDay d.

(** Year/month pairs [renderCalendar] can take from the clock: a month
    0..11 of a year all of whose neighbouring months are representable
    dates, the two-digit years that [new Date(y, m, d)] remaps apart. *)
Definition validYearMonth (year month : Z) : Prop :=
  -271820 <= year <= 275759 /\ ¬ (0 <= year <= 99) /\ 0 <= month <= 11.

(** *** Events and their classification *)

(** [event.start] and [event.end] as [parseEventDate] sees them: a falsy
    value (null, undefined, empty string), or a string, represented by
    the date [new Date(isoString)] makes of it ([InvalidDate] when the
    string does not parse). *)
Inductive DateField : Type :=
  | NoDate
  | DateString (parsed : Date).

Record Event : Type := {
  start : DateField;
  end_ : DateField;
  all_day : bool;
  summary : string;
  calendar_name : string
}.

#[global] Instance DateField_eq_dec : EqDecision DateField.
Proof. solve_decision. Defined.
#[global] Instance Event_eq_dec : EqDecision Event.
Proof. solve_decision. Defined.

(** [parseEventDate].  The constructor [new Date(isoString)] never
    throws, so the [catch] branch is not reachable: an unparseable string
    comes back as an invalid date. *)
Definition parseEventDate (now : Z) (isoString : DateField) : Date :=
  match isoString with
  | NoDate => ValidDate now
  | DateString d => d
  end.

Definition getDateKey (date : Date) : string :=
  numToString (getFullYear date) +:+ "-" +:+
  padStart2 (numToString (numAdd (getMonth date) (Some 1))) +:+ "-" +:+
  padStart2 (numToString (getDate date)).

(** Comparisons with NaN are false; [Math.max] with NaN is NaN. *)
Definition numGt (a : option Z) (b : Z) : bool := from_option (λ x, b <? x) false a.
Definition numEq (a : option Z) (b : Z) : bool := from_option (λ x, x =? b) false a.
Definition mathMax (a : Z) (b : option Z) : option Z := Z.max a <$> b.

(** [getEventDurationDays].  [diffMs] is taken between the local
    midnights, a whole number of days apart; in a zone that changes its
    offset between the two midnights the difference of the time values
    is off by that change, and [diffDays] can be one less than here. *)
Definition getEventDurationDays (now : Z) (event : Event) : option Z :=
  let start := parseEventDate now event.(start) in
  let end' := parseEventDate now event.(end_) in
  let startDay := newDate (getFullYear start) (getMonth start) (getDate start) in
  let endDay := newDate (getFullYear end') (getMonth end') (getDate end') in
  let diffMs := dateDiff endDay startDay in
  let diffDays := (λ ms, ms / msPerDay) <$> diffMs in
  if event.(all_day) && numGt diffDays 0 then diffDays
  else mathMax 1 diffDays.

Definition isMultiDayEvent (now : Z) (event : Event) : bool :=
  numGt (getEventDurationDays now event) 1.

(** *** organizeEventsForGrid *)

(** One element of [multiDayEvents]: the event with its placement. *)
Record Segment : Type := {
  event : Event;
  gridColumn : nat;
  gridRow : nat;
  span : Z;
  eventRow : nat;
  showLeftArrow : bool;
  showRightArrow : bool
}.

#[global] Instance Segment_eq_dec : EqDecision Segment.
Proof. solve_decision. Defined.

(** The value [organizeEventsForGrid] returns. *)
Record Organized : Type := {
  multiDayEvents : list Segment;
  singleDayEvents : gmap string (list Event)
}.

(** The variables the [forEach] over the sorted events updates. *)
Record GridState : Type := {
  globalRowOccupancy : list (list bool);
  multiDayEventsList : list Segment;
  singleDayEventsMap : gmap string (list Event)
}.

(** [Array.prototype.sort] is stable, and with a consistent comparator
    its result is the one sorted order that keeps ties in place, which
    the insertion sort below computes.  [gt a b] says that the
    comparator is positive on [(a, b)]; a comparator result that is NaN
    counts as 0.  Where the comparator is not consistent the order the
    engine leaves is implementation-defined, and the insertion sort is
    only one of the orders allowed. *)
Fixpoint sortInsert {A} (gt : A → A → bool) (x : A) (l : list A) : list A :=
  match l with
  | [] => [x]
  | y :: l' => if gt y x then x :: y :: l' else y :: sortInsert gt x l'
  end.

Definition jsSort {A} (gt : A → A → bool) (l : list A) : list A :=
  foldl (λ acc x, sortInsert gt x acc) [] l.

Definition startsAfter (now : Z) (a b : Event) : bool :=
  numGt (dateDiff (parseEventDate now a.(start)) (parseEventDate now b.(start))) 0.

(** [[...events].sort((a, b) => parseEventDate(a.start) -
    parseEventDate(b.start))].  An unparseable start makes the comparator
    return NaN, so that it is not consistent: [sortedEvents] is the order
    in which the events are processed when every start is a valid date
    ([validStarts] below); what holds of the layout whatever the order is
    stated of [placeEvents] over any list. *)
Definition sortedEvents (now : Z) (events : list Event) : list Event :=
  jsSort (startsAfter now) events.

(** Reading an array element for its truth value, and assigning one:
    an index past the end reads as undefined (falsy), and assigning
    there extends the array, the holes reading as undefined again. *)
Definition jsTruthyAt (row : list bool) (i : nat) : bool := default false (row !! i).

Definition jsArraySet (i : nat) (v : bool) (row : list bool) : list bool :=
  if decide (i < length row)%nat then <[i := v]> row
  else row ++ replicate (i - length row) false ++ [v].

(** The end date used for placing a bar: a timed event that ends at
    midnight ends on the day before. *)
Definition adjustedEndDate (now : Z) (event : Event) : Date :=
  let endDate := parseEventDate now event.(end_) in
  if negb event.(all_day) && numEq (getHours endDate) 0
     && numEq (getMinutes endDate) 0 && numEq (getSeconds endDate) 0
  then setDate endDate (numSub (getDate endDate) (Some 1))
  else endDate.

Definition mapDates (gridDates : list Date) : gmap string (list Event) :=
  foldl (λ m date, <[getDateKey date := []]> m) ∅ gridDates.

Definition indexDates (gridDates : list Date) : gmap string nat :=
  foldl (λ m p, <[getDateKey p.2 := p.1]> m) ∅ (imap pair gridDates).

Section placement.
Context (gridDates : list Date) (ev : Event).
Context (startIndex endIndex : option nat).

Definition firstWeekIndex : nat := from_option (λ i, i `div` 7)%nat 0%nat startIndex.
Definition lastWeekIndex : Z :=
  from_option (λ i, Z.of_nat (i `div` 7)%nat)
              ((Z.of_nat (length gridDates) - 1) / 7) endIndex.

(** The values [weekIdx] takes in
    [for (weekIdx = firstWeekIndex; weekIdx <= lastWeekIndex; weekIdx++)]. *)
Definition weekIndices : list nat :=
  seq firstWeekIndex (Z.to_nat (lastWeekIndex + 1 - Z.of_nat firstWeekIndex)).

Definition colStartOf (weekIdx : nat) : nat :=
  match startIndex with
  | Some i => if decide (weekIdx = firstWeekIndex) then (i `mod` 7)%nat else 0%nat
  | None => 0%nat
  end.

Definition colEndOf (weekIdx : nat) : Z :=
  match endIndex with
  | Some i =>
      if decide (Z.of_nat weekIdx = lastWeekIndex) then
        let endCol := Z.of_nat (i `mod` 7)%nat in
        if ev.(all_day) then endCol - 1 else endCol
      else 6
  | None => 6
  end.

Definition weekCells (weekIdx : nat) : list nat :=
  let colStart := colStartOf weekIdx in
  let colEnd := colEndOf weekIdx in
  if decide (Z.of_nat colStart <= colEnd) then
    (λ col, weekIdx * 7 + col)%nat
      <$> seq colStart (Z.to_nat (colEnd + 1 - Z.of_nat colStart))
  else [].

Definition occupiedCells : list nat := weekIndices ≫= weekCells.

Definition spanOf (weekIdx : nat) : Z :=
  let colStart := Z.of_nat (colStartOf weekIdx) in
  match endIndex with
  | Some i =>
      if decide (Z.of_nat weekIdx = lastWeekIndex) then
        let endCol := Z.of_nat (i `mod` 7)%nat in
        if ev.(all_day) then endCol - colStart else endCol - colStart + 1
      else 7 - colStart
  | None => 7 - colStart
  end.

Definition weekSegment (eventRow : nat) (weekIdx : nat) : list Segment :=
  let eventStartsBeforeGrid := bool_decide (startIndex = None) in
  let eventEndsAfterGrid := bool_decide (endIndex = None) in
  let span := spanOf weekIdx in
  if decide (span <= 0) then []
  else
    [{| event := ev;
        gridColumn := colStartOf weekIdx;
        gridRow := weekIdx;
        span := span;
        eventRow := eventRow;
        showLeftArrow :=
          (bool_decide (weekIdx = firstWeekIndex) && eventStartsBeforeGrid)
          || bool_decide (firstWeekIndex < weekIdx)%nat;
        showRightArrow :=
          (bool_decide (Z.of_nat weekIdx = lastWeekIndex) && eventEndsAfterGrid)
          || bool_decide (Z.of_nat weekIdx < lastWeekIndex) |}].

Definition eventSegments (eventRow : nat) : list Segment :=
  weekIndices ≫= weekSegment eventRow.
End placement.

(** All cells the event needs are free in the row. *)
Definition canFit (cells : list nat) (row : list bool) : bool :=
  forallb (λ cellIndex, negb (jsTruthyAt row cellIndex)) cells.

(** The first row, from 0 upward, in which the event fits, if any. *)
Definition findRow (occupancy : list (list bool)) (cells : list nat) : option nat :=
  fst <$> list_find (λ row, Is_true (canFit cells row)) occupancy.

(** The lane given to the event, and the occupancy once a row has been
    added if none fitted. *)
Definition chooseRow (gridLength : nat) (occupancy : list (list bool))
    (cells : list nat) : nat * list (list bool) :=
  match findRow occupancy cells with
  | Some rowIdx => (rowIdx, occupancy)
  | None => (length occupancy, occupancy ++ [replicate gridLength false])
  end.

Definition markCells (eventRow : nat) (cells : list nat)
    (occupancy : list (list bool)) : list (list bool) :=
  foldl (λ occ cellIndex, alter (jsArraySet cellIndex true) eventRow occ)
        occupancy cells.

(** The body of [sortedEvents.forEach]. *)
Definition placeEvent (now : Z) (gridDates : list Date)
    (dateToIndex : gmap string nat) (st : GridState) (event : Event) : GridState :=
  let startDate := parseEventDate now event.(start) in
  let multiDay := isMultiDayEvent now event in
  if multiDay || event.(all_day) then
    let endDate := adjustedEndDate now event in
    let startIndex := dateToIndex !! getDateKey startDate in
    let endIndex := dateToIndex !! getDateKey endDate in
    if bool_decide (is_Some startIndex)
       || (bool_decide (is_Some endIndex) && bool_decide (startIndex = None))
    then
      let cells := occupiedCells gridDates event startIndex endIndex in
      let '(eventRow, occupancy) :=
        chooseRow (length gridDates) st.(globalRowOccupancy) cells in
      {| globalRowOccupancy := markCells eventRow cells occupancy;
         multiDayEventsList :=
           st.(multiDayEventsList)
           ++ eventSegments gridDates event startIndex endIndex eventRow;
         singleDayEventsMap := st.(singleDayEventsMap) |}
    else st
  else
    let dateKey := getDateKey startDate in
    match st.(singleDayEventsMap) !! dateKey with
    | Some bucket =>
        {| globalRowOccupancy := st.(globalRowOccupancy);
           multiDayEventsList := st.(multiDayEventsList);
           singleDayEventsMap := <[dateKey := bucket ++ [event]]> st.(singleDayEventsMap) |}
    | None => st
    end.

Definition initialState (gridDates : list Date) : GridState :=
  {| globalRowOccupancy := [];
     multiDayEventsList := [];
     singleDayEventsMap := mapDates gridDates |}.

Definition placeEvents (now : Z) (gridDates : list Date)
    (events : list Event) (st : GridState) : GridState :=
  foldl (placeEvent now gridDates (indexDates gridDates)) st events.

(** [events] is [None] when the argument is null or undefined. *)
Definition organizeEventsForGrid (now : Z) (events : option (list Event))
    (gridDates : list Date) : Organized :=
  match events with
  | None => {| multiDayEvents := []; singleDayEvents := mapDates gridDates |}
  | Some evs =>
      let st := placeEvents now gridDates (sortedEvents now evs) (initialState gridDates) in
      {| multiDayEvents := st.(multiDayEventsList);
         singleDayEvents := st.(singleDayEventsMap) |}
  end.

(** *** calculateDisplayRows *)

(** [eventsByWeek]: the segments grouped by [gridRow], the groups in the
    order in which their keys were first set. *)
Fixpoint pushToWeek (s : Segment) (weeks : list (nat * list Segment))
    : list (nat * list Segment) :=
  match weeks with
  | [] => [(s.(gridRow), [s])]
  | (row, evs) :: rest =>
      if decide (row = s.(gridRow)) then (row, evs ++ [s]) :: rest
      else (row, evs) :: pushToWeek s rest
  end.

Definition groupByWeek (segments : list Segment) : list (nat * list Segment) :=
  foldl (λ weeks s, pushToWeek s weeks) [] segments.

(** [[...new Set(rows)]]: first occurrences, in order. *)
Definition uniqueValues (rows : list nat) : list nat :=
  foldl (λ acc r, if decide (r ∈ acc) then acc else acc ++ [r]) [] rows.

Definition uniqueEventRows (weekEvents : list Segment) : list nat :=
  jsSort (λ a b, b <? a)%nat (uniqueValues (eventRow <$> weekEvents)).

Definition eventRowToDisplayRow (weekEvents : list Segment) : gmap nat nat :=
  foldl (λ m p, <[p.2 := p.1]> m) ∅ (imap pair (uniqueEventRows weekEvents)).

(** The compacted row of a segment within its week.  Its [eventRow] is
    always a key of the map. *)
Definition displayRowOf (weekEvents : list Segment) (s : Segment) : nat :=
  default 0%nat (eventRowToDisplayRow weekEvents !! s.(eventRow)).

Definition segmentColumns (s : Segment) : list nat :=
  seq s.(gridColumn) (Z.to_nat s.(span)).

Definition countSegment (gridLength : nat) (weekRow : nat) (displayRow : nat)
    (counts : gmap nat nat) (s : Segment) : gmap nat nat :=
  foldl (λ m col,
           let cellIndex := (weekRow * 7 + col)%nat in
           if decide (cellIndex < gridLength)%nat
           then <[cellIndex := (default 0 (m !! cellIndex) `max` (displayRow + 1))%nat]> m
           else m)
        counts (segmentColumns s).

Definition countWeek (gridLength : nat) (counts : gmap nat nat)
    (week : nat * list Segment) : gmap nat nat :=
  foldl (λ m s, countSegment gridLength week.1 (displayRowOf week.2 s) m s)
        counts week.2.

Definition calculateDisplayRows (multiDayEvents : list Segment)
    (gridDates : list Date) : gmap nat nat :=
  let cellDisplayRowCount :=
    foldl (λ m index, <[index := 0%nat]> m) ∅ (seq 0 (length gridDates)) in
  foldl (countWeek (length gridDates)) cellDisplayRowCount (groupByWeek multiDayEvents).

(** *** createSpanningEvent and the resize callback *)

Local Open Scope Q_scope.

Definition dayNumberOffsetPx : Q := 26.
Definition eventRowHeightPx : Q := 22.
Definition moreIndicatorHeightPx : Q := 18.
Definition timedEventHeightPx : Q := 18.

(** The geometry [createSpanningEvent] gives the element: [left] and
    [width] in percent (before the 2px margins), [top] in pixels. *)
Record SpanningStyle : Type := {
  left : Q;
  width : Q;
  top : Q;
  zIndex : Z
}.

Definition natQ (n : nat) : Q := inject_Z (Z.of_nat n).

Definition createSpanningEvent (s : Segment) (cellWidth cellHeightPx : Q)
    : SpanningStyle :=
  {| left := natQ s.(gridColumn) * cellWidth;
     width := inject_Z s.(span) * cellWidth;
     top := natQ s.(gridRow) * cellHeightPx + dayNumberOffsetPx
            + natQ s.(eventRow) * eventRowHeightPx;
     zIndex := (100 - Z.of_nat s.(eventRow))%Z |}.

(** First pass of the resize callback: [maxVisibleSpanning] of a cell
    with [totalSpanningInCell] display rows and [timedCount] timed
    events, [availableHeight] being the cell height less the day number. *)
Definition cellLimit (availableHeight : Q) (totalSpanningInCell timedCount : Z) : Z :=
  let spaceNeededForSpanning := inject_Z totalSpanningInCell * eventRowHeightPx in
  let spaceNeededForTimed := inject_Z timedCount * timedEventHeightPx in
  let totalNeeded := spaceNeededForSpanning + spaceNeededForTimed in
  if Qle_bool totalNeeded availableHeight then totalSpanningInCell
  else
    let availableWithIndicator := availableHeight - moreIndicatorHeightPx in
    let reservedForTimed := if (0 <? timedCount)%Z then timedEventHeightPx else 0 in
    Z.min (Z.max 1 (Qfloor ((availableWithIndicator - reservedForTimed) / eventRowHeightPx)))
          totalSpanningInCell.

(** Third pass: what a cell shows and hides. *)
Record CellOverflow : Type := {
  maxVisibleSpanning : Z;
  visibleTimed : Z;
  totalHidden : Z;
  moreShown : bool
}.

Definition cellOverflow (availableHeight : Q) (totalSpanningInCell timedCount : Z)
    : CellOverflow :=
  let maxVisibleSpanning := cellLimit availableHeight totalSpanningInCell timedCount in
  let usedHeight := inject_Z maxVisibleSpanning * eventRowHeightPx in
  let remainingHeight :=
    availableHeight - usedHeight
    - (if (maxVisibleSpanning <? totalSpanningInCell)%Z then moreIndicatorHeightPx else 0) in
  let maxVisibleTimed := Z.max 0 (Qfloor (remainingHeight / timedEventHeightPx)) in
  let visibleTimed := Z.min timedCount maxVisibleTimed in
  let hiddenSpanning := Z.max 0 (totalSpanningInCell - maxVisibleSpanning) in
  let hiddenTimed := Z.max 0 (timedCount - visibleTimed) in
  let totalHidden := (hiddenSpanning + hiddenTimed)%Z in
  {| maxVisibleSpanning := maxVisibleSpanning;
     visibleTimed := visibleTimed;
     totalHidden := totalHidden;
     moreShown := (0 <? totalHidden)%Z |}.

(** Items a cell shows: lanes plus timed markers. *)
Definition shownCount (o : CellOverflow) : Z :=
  (o.(maxVisibleSpanning) + o.(visibleTimed))%Z.

Section resize.
Context (gridDates : list Date) (layout : Organized).
Context (cellDisplayRowCount : gmap nat nat) (newCellHeightPx : Q).

Definition availableHeight : Q := newCellHeightPx - dayNumberOffsetPx.

Definition totalSpanningInCell (index : nat) : Z :=
  Z.of_nat (default 0%nat (cellDisplayRowCount !! index)).

Definition dayTimedEvents (date : Date) : list Event :=
  default [] (layout.(singleDayEvents) !! getDateKey date).

(** Per cell, in grid order, the outcome of the first and third pass. *)
Definition resizeCells : list CellOverflow :=
  imap (λ index date,
          cellOverflow availableHeight (totalSpanningInCell index)
                       (Z.of_nat (length (dayTimedEvents date))))
       gridDates.

Definition cellLimits : gmap nat Z :=
  foldl (λ m p, <[p.1 := p.2.(maxVisibleSpanning)]> m) ∅ (imap pair resizeCells).

(** Second pass: a bar is displayed when its lane is under the limit of
    one of the cells it spans. *)
Definition shouldBeVisible (s : Segment) : bool :=
  existsb (λ col,
             let cellIndex := (s.(gridRow) * 7 + col)%nat in
             (Z.of_nat s.(eventRow) <? default 0%Z (cellLimits !! cellIndex))%Z)
          (segmentColumns s).
End resize.

Local Close Scope Q_scope.

(** *** Views of a layout pass used to state its properties *)

(** Cell [c] is marked in row [r] of the occupancy table. *)
Definition claimed (occ : list (list bool)) (r c : nat) : bool :=
  jsTruthyAt (default [] (occ !! r)) c.

Section pass.
Context (now : Z) (gridDates : list Date).

Definition startIndexOf (e : Event) : option nat :=
  indexDates gridDates !! getDateKey (parseEventDate now e.(start)).

Definition endIndexOf (e : Event) : option nat :=
  indexDates gridDates !! getDateKey (adjustedEndDate now e).

(** The event takes the multi-day branch of [placeEvent]. *)
Definition isSpanning (e : Event) : bool :=
  isMultiDayEvent now e || e.(all_day).

(** ... and passes the test on [startIndex] and [endIndex], so that it
    is given a lane. *)
Definition isRendered (e : Event) : bool :=
  isSpanning e
  && (bool_decide (is_Some (startIndexOf e))
      || (bool_decide (is_Some (endIndexOf e)) && bool_decide (startIndexOf e = None))).

Definition cellsOf (e : Event) : list nat :=
  occupiedCells gridDates e (startIndexOf e) (endIndexOf e).

(** [globalRowOccupancy] when the [i]-th event of [evs] is about to be
    processed. *)
Definition occupancyBefore (evs : list Event) (i : nat) : list (list bool) :=
  (placeEvents now gridDates (take i evs) (initialState gridDates)).(globalRowOccupancy).

(** The value of [eventRow] in the iteration for the [i]-th event. *)
Definition laneOf (evs : list Event) (i : nat) : option nat :=
  e ← evs !! i;
  if isRendered e
  then Some (chooseRow (length gridDates) (occupancyBefore evs i) (cellsOf e)).1
  else None.

(** Cell [c] of lane [r] has been claimed by an event before the [i]-th. *)
Definition claimedBefore (evs : list Event) (i r c : nat) : Prop :=
  ∃ k ek, (k < i)%nat ∧ evs !! k = Some ek ∧ laneOf evs k = Some r ∧ c ∈ cellsOf ek.

(** The segments of the [i]-th event. *)
Definition segmentsOf (evs : list Event) (i : nat) : list Segment :=
  match evs !! i, laneOf evs i with
  | Some e, Some r => eventSegments gridDates e (startIndexOf e) (endIndexOf e) r
  | _, _ => []
  end.
End pass.

(** Every bucket belongs to a grid date and holds events that took the
    single-day branch and start on that date. *)
Definition bucketsOk (now : Z) (gridDates : list Date)
    (m : gmap string (list Event)) : Prop :=
  forall k bucket, m !! k = Some bucket ->
    k ∈ getDateKey <$> gridDates /\
    forall e, e ∈ bucket ->
      isSpanning now e = false /\ getDateKey (parseEventDate now e.(start)) = k.

(** The grid cells a segment covers. *)
Definition segmentCells (s : Segment) : list nat :=
  (λ col, s.(gridRow) * 7 + col)%nat <$> segmentColumns s.

(** The time value of the start an event is sorted by. *)
Definition startTime (now : Z) (e : Event) : option Z :=
  timeValue (parseEventDate now e.(start)).

(** Every start is a valid date (parsed, or missing and taken to be
    now): the comparator of the sort is then a number on every pair. *)
Definition validStarts (now : Z) (events : list Event) : Prop :=
  Forall (λ e, startTime now e ≠ None) events.

(** [a] does not start after [b], as far as both starts are valid dates. *)
Definition startsNoLater (now : Z) (a b : Event) : Prop :=
  ∀ ta tb, startTime now a = Some ta → startTime now b = Some tb → ta <= tb.

(** The first and third pass of the resize callback on whole pixels. *)
Definition cellLimitZ (avail total timed : Z) : Z :=
  if total * 22 + timed * 18 <=? avail then total
  else Z.min (Z.max 1 ((avail - (18 + (if 0 <? timed then 18 else 0))) / 22)) total.

Definition visibleTimedZ (avail total timed : Z) : Z :=
  let shown := cellLimitZ avail total timed in
  Z.min timed
    (Z.max 0 ((avail - (shown * 22 + (if shown <? total then 18 else 0))) / 18)).

(** The interval from the start of the event to its adjusted end
    contains every date of the grid. *)
Definition coversGrid (now : Z) (gridDates : list Date) (e : Event) : bool :=
  match startTime now e, timeValue (adjustedEndDate now e) with
  | Some ts, Some te =>
      forallb (λ d, match d with
                    | ValidDate t => (ts <=? t) && (t <=? te)
                    | InvalidDate => false
                    end) gridDates
  | _, _ => false
  end.

(** The date is one [new Date(year, month, day)] rebuilds as given: its
    year is not one of the two-digit years taken as 1900 + year. *)
Definition fullYear (t : Z) : Prop := ¬ (0 <= YearFromDay (Day t) <= 99).

(** The time value is one a Date object can hold. *)
Definition representable (t : Z) : Prop := Z.abs t <= maxTimeValue.

(** *** The rest of the module: days, cells and render order *)

(** [a === b] on numbers: NaN equals nothing, itself included. *)
Definition numStrictEq (a b : option Z) : bool :=
  match a, b with
  | Some x, Some y => x =? y
  | _, _ => false
  end.

Definition isSameDay (date1 date2 : Date) : bool :=
  numStrictEq (getFullYear date1) (getFullYear date2)
  && numStrictEq (getMonth date1) (getMonth date2)
  && numStrictEq (getDate date1) (getDate date2).

(** The grid [renderCalendar] builds when the clock reads [now]. *)
Definition todayGrid (now : Z) : list Date :=
  buildGridDates (YearFromDay (Day now)) (MonthFromDay (Day now)).

(** What the loop over [gridDates] gives each day cell: the class for
    days of other months, the class for today, and the day number. *)
Record DayCell : Type := {
  otherMonth : bool;
  isToday : bool;
  dayNumber : option Z
}.

Definition dayCell (today : Date) (date : Date) : DayCell :=
  let currentMonth := getMonth today in
  {| otherMonth := negb (numStrictEq (getMonth date) currentMonth);
     isToday := isSameDay date today;
     dayNumber := getDate date |}.

Definition dayCells (now : Z) : list DayCell :=
  dayCell (ValidDate now) <$> todayGrid now.

(** [Math.ceil(gridDates.length / 7)]. *)
Definition numWeeks (gridDates : list Date) : nat := ((length gridDates + 6) `div` 7)%nat.

(** The event takes the single-day branch and starts on the day with
    key [k]. *)
Definition singleDayOn (now : Z) (k : string) (e : Event) : Prop :=
  isSpanning now e = false ∧ getDateKey (parseEventDate now e.(start)) = k.

#[global] Instance singleDayOn_dec now k e : Decision (singleDayOn now k e).
Proof. unfold singleDayOn. apply _. Defined.

(** The order in which the bars are appended to the overlay:
    [multiDayEvents.sort] by week, and within a week by descending lane. *)
Definition rendersAfter (a b : Segment) : bool :=
  if decide (a.(gridRow) = b.(gridRow))
  then (a.(eventRow) <? b.(eventRow))%nat
  else (b.(gridRow) <? a.(gridRow))%nat.

Definition renderOrder (multiDayEvents : list Segment) : list Segment :=
  jsSort rendersAfter multiDayEvents.

(** The timed markers a day cell is given when the month is rendered:
    [dayTimedEvents.slice(0, initialMaxTimed)]. *)
Definition initialMaxTimed : nat := 3.

Definition timedElements (dayTimedEvents : list Event) : list Event :=
  take initialMaxTimed dayTimedEvents.

(** The markers the third pass of the resize callback leaves displayed:
    those whose position among the elements is below [visibleTimed]. *)
Definition displayedTimed (visibleTimed : Z) (timedEventEls : list Event) : list Event :=
  snd <$> filter (λ p, Z.of_nat p.1 < visibleTimed) (imap pair timedEventEls).

(** [a] is appended to the overlay no later than [b]: an earlier week,
    or the same week and a lane that is not lower. *)
Definition rendersNoLater (a b : Segment) : Prop :=
  (a.(gridRow) < b.(gridRow) ∨ (a.(gridRow) = b.(gridRow) ∧ b.(eventRow) ≤ a.(eventRow)))%nat.

(** The segments of one week, in the order of the list. *)
Definition weekOf (segments : list Segment) (row : nat) : list Segment :=
  filter (λ s, s.(gridRow) = row) segments.

(** The compacted row of a segment among the segments of its week. *)
Definition displayRowIn (segments : list Segment) (s : Segment) : nat :=
  displayRowOf (weekOf segments s.(gridRow)) s.

(** [m] counts the cells below [len] only, and gives each of them the
    largest value that [P] contributes to it, 0 if there is none. *)
Definition countsOf (len : nat) (m : gmap nat nat) (P : nat → nat → Prop) : Prop :=
  ∀ c,
    (len ≤ c → m !! c = None)%nat ∧
    (c < len → ∃ n, m !! c = Some n ∧ (∀ v, P c v → v ≤ n) ∧ (0 < n → P c n))%nat.

End Calendar.

(** ** Sample month and events *)

Module Examples.
Import JSDate Calendar.

(** The grid of November 2026: Monday 26 October to Sunday 6 December. *)
Definition november2026 : list Date := buildGridDates 2026 10.

(** Local time [hour]:00 on the given day ([month] from 0). *)
Definition localTime (year month day hour : Z) : DateField :=
  DateString (ValidDate (MakeDay year month day * msPerDay + hour * msPerHour)).

Definition allDayEvent (name : string) (first last_exclusive : DateField) : Event :=
  {| start := first; end_ := last_exclusive; all_day := true;
     summary := name; calendar_name := "Rejdy" |}.

Definition timedEvent (name : string) (from to : DateField) : Event :=
  {| start := from; end_ := to; all_day := false;
     summary := name; calendar_name := "Rejdy" |}.

(** Monday 2 to Wednesday 4 November, and Wednesday 4 to Friday 6. *)
Definition eventA : Event :=
  allDayEvent "A" (localTime 2026 10 2 0) (localTime 2026 10 5 0).
Definition eventB : Event :=
  allDayEvent "B" (localTime 2026 10 4 0) (localTime 2026 10 7 0).

(** 1 October to 31 December: starts before the grid and ends after it. *)
Definition wholeGridEvent : Event :=
  allDayEvent "Quarter" (localTime 2026 9 1 0) (localTime 2027 0 1 0).

(** An evening on 24 December, a date the grid does not show. *)
Definition offGridEvent : Event :=
  timedEvent "Eve" (localTime 2026 11 24 18) (localTime 2026 11 24 20).

(** A start string that does not parse. *)
Definition unparseableEvent : Event :=
  timedEvent "Broken" (DateString InvalidDate) (localTime 2026 10 12 12).

(** Tuesday 3 November 10:00 to midnight at the end of Wednesday 11. *)
Definition untilMidnightEvent : Event :=
  timedEvent "Trip" (localTime 2026 10 3 10) (localTime 2026 10 12 0).

(** Four bars on Monday 2 November; the first and the last run on to
    Wednesday 11, the two in between end on Tuesday 3. *)
Definition stackedEvents : list Event :=
  [ allDayEvent "Long1" (localTime 2026 10 2 0) (localTime 2026 10 12 0);
    allDayEvent "Short1" (localTime 2026 10 2 0) (localTime 2026 10 4 0);
    allDayEvent "Short2" (localTime 2026 10 2 0) (localTime 2026 10 4 0);
    allDayEvent "Long2" (localTime 2026 10 2 0) (localTime 2026 10 12 0) ].

Definition stackedLayout : Organized :=
  organizeEventsForGrid 0 (Some stackedEvents) november2026.

End Examples.

(** * Properties *)

Module JSDateFacts.
Import JSDate.

(** *** Facts about the calendar arithmetic *)

Lemma DayFromYear_succ (y : Z) :
  DayFromYear (y + 1) = DayFromYear y + DaysInYear y.
Proof.
  unfold DayFromYear, DaysInYear, InLeapYear.
  repeat match goal with
         | |- context [?a =? ?b] => destruct (Z.eqb_spec a b); simpl
         end;
  Z.div_mod_to_equations; lia.
Qed.

Lemma DaysInYear_cases (y : Z) : DaysInYear y = 365 \/ DaysInYear y = 366.
Proof. unfold DaysInYear. destruct (InLeapYear y); auto. Qed.

Lemma DayFromYear_lt (y1 y2 : Z) : y1 < y2 -> DayFromYear y1 < DayFromYear y2.
Proof. unfold DayFromYear. intros H. Z.div_mod_to_equations. lia. Qed.

Lemma YearFromDay_spec (d : Z) :
  DayFromYear (YearFromDay d) <= d < DayFromYear (YearFromDay d + 1).
Proof.
  unfold YearFromDay.
  set (y0 := 1970 + 400 * d / 146097).
  assert (Hlo : DayFromYear (y0 - 1) <= d).
  { subst y0. unfold DayFromYear. Z.div_mod_to_equations. lia. }
  assert (Hhi : d < DayFromYear (y0 + 2)).
  { subst y0. unfold DayFromYear. Z.div_mod_to_equations. lia. }
  destruct (Z.ltb_spec d (DayFromYear y0)).
  - replace (y0 - 1 + 1) with y0 by lia. lia.
  - destruct (Z.leb_spec (DayFromYear (y0 + 1)) d).
    + replace (y0 + 1 + 1) with (y0 + 2) by lia. lia.
    + lia.
Qed.

Lemma YearFromDay_unique (d y : Z) :
  DayFromYear y <= d < DayFromYear (y + 1) -> YearFromDay d = y.
Proof.
  intros Hy. pose proof (YearFromDay_spec d) as Hs.
  destruct (Z.lt_trichotomy (YearFromDay d) y) as [Hlt | [Heq | Hgt]]; [| exact Heq |].
  - assert (DayFromYear (YearFromDay d + 1) <= DayFromYear y).
    { destruct (Z.eq_dec (YearFromDay d + 1) y) as [-> | Hne]; [lia |].
      apply Z.lt_le_incl, DayFromYear_lt. lia. }
    lia.
  - assert (DayFromYear (y + 1) <= DayFromYear (YearFromDay d)).
    { destruct (Z.eq_dec (y + 1) (YearFromDay d)) as [-> | Hne]; [lia |].
      apply Z.lt_le_incl, DayFromYear_lt. lia. }
    lia.
Qed.

Lemma DayWithinYear_range (d : Z) :
  0 <= DayWithinYear d < DaysInYear (YearFromDay d).
Proof.
  unfold DayWithinYear. pose proof (YearFromDay_spec d) as H.
  rewrite DayFromYear_succ in H. lia.
Qed.

Ltac month_cases mn :=
  let H := fresh "Hmn" in
  assert (H : mn = 0 \/ mn = 1 \/ mn = 2 \/ mn = 3 \/ mn = 4 \/ mn = 5 \/
              mn = 6 \/ mn = 7 \/ mn = 8 \/ mn = 9 \/ mn = 10 \/ mn = 11) by lia;
  repeat (destruct H as [H | H]; [subst mn | ]); [.. | subst mn].

Lemma monthOfDayInYear_range (leap dwy : Z) : 0 <= monthOfDayInYear leap dwy <= 11.
Proof.
  unfold monthOfDayInYear.
  repeat match goal with
         | |- context [?a <? ?b] => destruct (Z.ltb_spec a b)
         end; lia.
Qed.

Lemma MonthFromDay_range (d : Z) : 0 <= MonthFromDay d <= 11.
Proof. apply monthOfDayInYear_range. Qed.

Lemma monthOfDayInYear_start (leap mn k : Z) :
  0 <= leap <= 1 -> 0 <= mn <= 11 ->
  monthStart leap mn <= k < monthStart leap (mn + 1) \/
    (mn = 11 /\ monthStart leap 11 <= k) ->
  monthOfDayInYear leap k = mn.
Proof.
  intros Hl Hm Hk. unfold monthOfDayInYear.
  month_cases mn; simpl in Hk;
  repeat match goal with
         | |- context [?a <? ?b] => destruct (Z.ltb_spec a b)
         end; lia.
Qed.

Lemma leapDays_range (y : Z) : 0 <= leapDays y <= 1.
Proof. unfold leapDays. destruct (InLeapYear y); lia. Qed.

Lemma DaysInYear_leapDays (y : Z) : DaysInYear y = 365 + leapDays y.
Proof. unfold DaysInYear, leapDays. destruct (InLeapYear y); lia. Qed.

(** Every day number is the day [DateFromDay] of month [MonthFromDay] of
    year [YearFromDay]. *)
Lemma civil_roundtrip (d : Z) :
  DayFromMonth (YearFromDay d) (MonthFromDay d) + DateFromDay d - 1 = d.
Proof. unfold DayFromMonth, DateFromDay, DayWithinYear. lia. Qed.

Lemma monthLength_date (leap k : Z) :
  0 <= leap <= 1 -> 0 <= k < 365 + leap ->
  1 <= k - monthStart leap (monthOfDayInYear leap k) + 1
    <= monthLength leap (monthOfDayInYear leap k).
Proof.
  intros Hl Hk. unfold monthOfDayInYear.
  repeat match goal with
         | |- context [?a <? ?b] => destruct (Z.ltb_spec a b)
         end; simpl; lia.
Qed.

Lemma DateFromDay_range (d : Z) :
  1 <= DateFromDay d <= daysInMonthTable (YearFromDay d) (MonthFromDay d).
Proof.
  pose proof (DayWithinYear_range d) as Hr.
  rewrite DaysInYear_leapDays in Hr.
  apply monthLength_date; [apply leapDays_range | exact Hr].
Qed.

(** Conversely, the day number of a well-formed civil date has that
    year, month and day of the month. *)
Lemma civil_of_DayFromMonth (ym mn dt : Z) :
  0 <= mn <= 11 -> 1 <= dt <= daysInMonthTable ym mn ->
  YearFromDay (DayFromMonth ym mn + dt - 1) = ym /\
  MonthFromDay (DayFromMonth ym mn + dt - 1) = mn /\
  DateFromDay (DayFromMonth ym mn + dt - 1) = dt.
Proof.
  intros Hm Hd.
  pose proof (leapDays_range ym) as Hl.
  assert (Hy : YearFromDay (DayFromMonth ym mn + dt - 1) = ym).
  { apply YearFromDay_unique. rewrite DayFromYear_succ, DaysInYear_leapDays.
    unfold DayFromMonth. month_cases mn; simpl in *; lia. }
  assert (Hmo : MonthFromDay (DayFromMonth ym mn + dt - 1) = mn).
  { unfold MonthFromDay, DayWithinYear. rewrite Hy.
    apply monthOfDayInYear_start; [exact Hl | exact Hm |].
    unfold DayFromMonth. month_cases mn; simpl in *; lia. }
  split; [exact Hy | split; [exact Hmo |]].
  unfold DateFromDay, DayWithinYear. rewrite Hmo, Hy. unfold DayFromMonth. lia.
Qed.

Lemma DayFromMonth_next (ym mn : Z) :
  0 <= mn <= 11 ->
  DayFromMonth (ym + (mn + 1) / 12) ((mn + 1) mod 12) =
  DayFromMonth ym mn + daysInMonthTable ym mn.
Proof.
  intros Hm. pose proof (leapDays_range ym) as Hl.
  unfold daysInMonthTable.
  destruct (Z.eq_dec mn 11) as [-> | Hne].
  - change ((11 + 1) / 12) with 1. change ((11 + 1) mod 12) with 0.
    unfold DayFromMonth. rewrite DayFromYear_succ, DaysInYear_leapDays.
    simpl. lia.
  - rewrite Z.div_small, Z.mod_small, Z.add_0_r by lia.
    unfold DayFromMonth. month_cases mn; simpl; lia.
Qed.

Lemma daysInMonthTable_range (ym mn : Z) : 28 <= daysInMonthTable ym mn <= 31.
Proof.
  pose proof (leapDays_range ym).
  unfold daysInMonthTable, monthLength.
  destruct mn as [| p | p]; try lia.
  do 4 (destruct p as [p | p |]; try lia).
Qed.

End JSDateFacts.

(** ** Grid builder *)

Module GridBuilder.
Import JSDate JSDateFacts Calendar.

Lemma Day_of_midnight (d : Z) : Day (d * msPerDay) = d.
Proof. unfold Day, msPerDay. now rewrite Z.div_mul. Qed.

Lemma newDate_valid (y m dt : Z) :
  ¬ (0 <= y <= 99) -> -100000000 <= MakeDay y m dt <= 100000000 ->
  newDate (Some y) (Some m) (Some dt) = ValidDate (MakeDay y m dt * msPerDay).
Proof.
  intros Hy Hr. unfold newDate.
  replace ((0 <=? y) && (y <=? 99)) with false
    by (symmetry; apply andb_false_iff; lia).
  unfold TimeClip, MakeDate, maxTimeValue, msPerDay in *.
  rewrite Z.add_0_r.
  destruct (Z.leb_spec (Z.abs (MakeDay y m dt * 86400000)) 8640000000000000); [reflexivity | lia].
Qed.

Lemma DayFromMonth_bounds (y m : Z) :
  -271820 <= y <= 275759 -> 0 <= m <= 11 ->
  -99999744 <= DayFromMonth y m <= 99999714.
Proof.
  intros Hy Hm. pose proof (leapDays_range y) as Hl.
  assert (-99999744 <= DayFromYear y <= 99999379).
  { unfold DayFromYear. Z.div_mod_to_equations. lia. }
  unfold DayFromMonth. month_cases m; simpl; lia.
Qed.

Lemma MakeDay_same_month (y m dt : Z) :
  0 <= m <= 11 -> MakeDay y m dt = DayFromMonth y m + dt - 1.
Proof.
  intros Hm. unfold MakeDay.
  rewrite Z.div_small, Z.mod_small, Z.add_0_r by lia. reflexivity.
Qed.

Lemma MakeDay_next_month (y m dt : Z) :
  0 <= m <= 11 ->
  MakeDay y (m + 1) dt = DayFromMonth y m + daysInMonthTable y m + dt - 1.
Proof. intros Hm. unfold MakeDay. now rewrite DayFromMonth_next. Qed.

(** The month before [(y, m)], as [MakeDay] normalises [m - 1]. *)
Lemma prev_month_normal (y m : Z) :
  0 <= m <= 11 ->
  0 <= (m - 1) mod 12 <= 11 /\
  DayFromMonth (y + (m - 1) / 12) ((m - 1) mod 12)
    + daysInMonthTable (y + (m - 1) / 12) ((m - 1) mod 12) = DayFromMonth y m.
Proof.
  intros Hm. split; [pose proof (Z.mod_pos_bound (m - 1) 12); lia |].
  destruct (Z.eq_dec m 0) as [-> | Hne].
  - change ((0 - 1) / 12) with (-1). change ((0 - 1) mod 12) with 11.
    rewrite <- (DayFromMonth_next (y + -1) 11) by lia.
    change ((11 + 1) / 12) with 1. change ((11 + 1) mod 12) with 0.
    f_equal. lia.
  - rewrite Z.div_small, Z.mod_small, Z.add_0_r by lia.
    rewrite <- (DayFromMonth_next y (m - 1)) by lia.
    replace (m - 1 + 1) with m by lia.
    now rewrite Z.div_small, Z.mod_small, Z.add_0_r by lia.
Qed.

Lemma MakeDay_prev_month (y m dt : Z) :
  0 <= m <= 11 ->
  MakeDay y (m - 1) dt =
  DayFromMonth y m - daysInMonthTable (y + (m - 1) / 12) ((m - 1) mod 12) + dt - 1.
Proof.
  intros Hm. destruct (prev_month_normal y m Hm) as [_ H].
  unfold MakeDay. lia.
Qed.

Lemma getDaysInMonth_table (y m : Z) :
  validYearMonth y m -> getDaysInMonth y m = Some (daysInMonthTable y m).
Proof.
  intros (Hy & Hq & Hm). unfold getDaysInMonth.
  pose proof (DayFromMonth_bounds y m Hy Hm) as Hb.
  pose proof (daysInMonthTable_range y m) as Hn.
  rewrite newDate_valid by (rewrite ?MakeDay_next_month; lia).
  rewrite MakeDay_next_month by lia. unfold getDate. simpl.
  rewrite Day_of_midnight.
  destruct (civil_of_DayFromMonth y m (daysInMonthTable y m)) as (_ & _ & Hd); [lia.. |].
  f_equal. etransitivity; [| exact Hd]. unfold compose. f_equal. lia.
Qed.

Lemma getDaysInPrevMonth_table (y m : Z) :
  validYearMonth y m ->
  getDaysInMonth y (m - 1) =
  Some (daysInMonthTable (y + (m - 1) / 12) ((m - 1) mod 12)).
Proof.
  intros (Hy & Hq & Hm). unfold getDaysInMonth.
  replace (m - 1 + 1) with m by lia.
  pose proof (DayFromMonth_bounds y m Hy Hm) as Hb.
  destruct (prev_month_normal y m Hm) as [Hpm Hp].
  pose proof (daysInMonthTable_range (y + (m - 1) / 12) ((m - 1) mod 12)) as Hn.
  rewrite newDate_valid by (rewrite ?MakeDay_same_month; lia).
  rewrite MakeDay_same_month by lia. unfold getDate. simpl.
  rewrite Day_of_midnight.
  destruct (civil_of_DayFromMonth (y + (m - 1) / 12) ((m - 1) mod 12)
              (daysInMonthTable (y + (m - 1) / 12) ((m - 1) mod 12)))
    as (_ & _ & Hd); [lia.. |].
  f_equal. etransitivity; [| exact Hd]. unfold compose. f_equal. lia.
Qed.

Lemma getFirstDayOfMonth_monday (y m : Z) :
  validYearMonth y m ->
  getFirstDayOfMonth y m = Some ((WeekDay (DayFromMonth y m) + 6) mod 7).
Proof.
  intros (Hy & Hq & Hm). unfold getFirstDayOfMonth.
  pose proof (DayFromMonth_bounds y m Hy Hm) as Hb.
  rewrite newDate_valid by (rewrite ?MakeDay_same_month; lia).
  rewrite MakeDay_same_month by lia. unfold getDay. simpl.
  rewrite Day_of_midnight. f_equal.
  replace (DayFromMonth y m + 1 - 1) with (DayFromMonth y m) by lia.
  unfold WeekDay.
  destruct (Z.eqb_spec ((DayFromMonth y m + 4) mod 7) 0);
    Z.div_mod_to_equations; lia.
Qed.

Lemma reverse_seqZ (n : Z) :
  reverse (seqZ 0 n) = (λ k, n - 1 - k) <$> seqZ 0 n.
Proof.
  apply list_eq. intros i.
  destruct (decide (Z.of_nat i < n)) as [Hi | Hi].
  - rewrite reverse_lookup by (rewrite length_seqZ; lia).
    rewrite list_lookup_fmap, length_seqZ, !lookup_seqZ_lt by lia.
    simpl. f_equal. lia.
  - rewrite list_lookup_fmap, lookup_seqZ_ge by lia.
    apply lookup_ge_None. rewrite length_reverse, length_seqZ. lia.
Qed.

Lemma padding_spec (cells : Z) :
  0 <= padding cells <= 6 /\ (cells + padding cells) mod 7 = 0.
Proof.
  unfold padding. destruct (Z.eqb_spec (cells mod 7) 0);
    Z.div_mod_to_equations; lia.
Qed.

(** The grid is a run of consecutive days: cell [k] holds the midnight of
    the day [k - firstDay] days after the first of the month. *)
Lemma buildGridDates_days (y m : Z) :
  validYearMonth y m ->
  let f := (WeekDay (DayFromMonth y m) + 6) mod 7 in
  let N := daysInMonthTable y m in
  buildGridDates y m =
  (λ k, ValidDate ((DayFromMonth y m - f + k) * msPerDay))
    <$> seqZ 0 (f + N + padding (f + N)).
Proof.
  intros Hv f N. pose proof Hv as (Hy & Hq & Hm).
  pose proof (DayFromMonth_bounds y m Hy Hm) as Hb.
  pose proof (daysInMonthTable_range y m) as HN. fold N in HN.
  assert (Hf : 0 <= f <= 6) by (subst f; Z.div_mod_to_equations; lia).
  destruct (padding_spec (f + N)) as [Hr _].
  destruct (prev_month_normal y m Hm) as [Hpm Hp].
  pose proof (daysInMonthTable_range (y + (m - 1) / 12) ((m - 1) mod 12)) as HNp.
  unfold buildGridDates.
  rewrite (getFirstDayOfMonth_monday y m Hv), (getDaysInPrevMonth_table y m Hv),
    (getDaysInMonth_table y m Hv).
  fold f N. simpl loopBound.
  rewrite length_app, !length_fmap, length_reverse, !length_seqZ.
  replace (Z.of_nat (Z.to_nat f + Z.to_nat N)) with (f + N) by lia.
  fold (padding (f + N)).
  rewrite !seqZ_app by lia. rewrite !fmap_app, <- app_assoc.
  f_equal; [| f_equal].
  - rewrite reverse_seqZ, <- list_fmap_compose.
    apply Forall_fmap_ext, Forall_seqZ. intros k Hk. unfold numSub, compose. cbn -[newDate].
    rewrite newDate_valid by (rewrite ?MakeDay_prev_month; lia).
    rewrite MakeDay_prev_month by lia. do 2 f_equal. lia.
  - replace (0 + f) with (f - 1 + 1) by lia.
    rewrite <- (fmap_add_seqZ (f - 1) 1), <- list_fmap_compose.
    apply Forall_fmap_ext, Forall_seqZ. intros k Hk. unfold numSub, compose. cbn -[newDate].
    rewrite newDate_valid by (rewrite ?MakeDay_same_month; lia).
    rewrite MakeDay_same_month by lia. do 2 f_equal. lia.
  - replace (0 + (f + N)) with (f + N - 1 + 1) by lia.
    rewrite <- (fmap_add_seqZ (f + N - 1) 1), <- list_fmap_compose.
    apply Forall_fmap_ext, Forall_seqZ. intros k Hk. unfold numSub, compose. cbn -[newDate].
    rewrite newDate_valid by (rewrite ?MakeDay_next_month; lia).
    rewrite MakeDay_next_month by lia. do 2 f_equal. lia.
Qed.

Lemma grid_lookup (y m : Z) (i : nat) (d : Date) :
  validYearMonth y m ->
  let f := (WeekDay (DayFromMonth y m) + 6) mod 7 in
  let N := daysInMonthTable y m in
  buildGridDates y m !! i = Some d <->
  d = ValidDate ((DayFromMonth y m - f + Z.of_nat i) * msPerDay) /\
  Z.of_nat i < f + N + padding (f + N).
Proof.
  intros Hv f N. rewrite (buildGridDates_days y m Hv). fold f N.
  rewrite list_lookup_fmap.
  destruct (decide (Z.of_nat i < f + N + padding (f + N))) as [Hi | Hi].
  - rewrite lookup_seqZ_lt by lia. simpl. rewrite Z.add_0_l.
    split; [intros [= <-] | intros [-> _]]; auto.
  - rewrite lookup_seqZ_ge by lia. simpl. split; [discriminate | tauto].
Qed.

Lemma civil_of_midnight (ym mn dt : Z) :
  0 <= mn <= 11 -> 1 <= dt <= daysInMonthTable ym mn ->
  let d := ValidDate ((DayFromMonth ym mn + dt - 1) * msPerDay) in
  getFullYear d = Some ym /\ getMonth d = Some mn /\ getDate d = Some dt.
Proof.
  intros Hm Hd. unfold getFullYear, getMonth, getDate, compose. simpl.
  rewrite Day_of_midnight.
  destruct (civil_of_DayFromMonth ym mn dt Hm Hd) as (-> & -> & ->). auto.
Qed.

(** C6: for every valid year/month pair the grid builder yields a whole
    number of weeks of consecutive valid dates, counted in days from the
    first of the month; cell [i] falls on weekday [i mod 7] counted from
    Monday; the first [firstDay] cells are the last days of the previous
    month, then come days 1..N of the target month in order, the first of
    the next month being the day after day N, then days 1.. of the next
    month, fewer than a week of them. *)
Theorem grid_builder_month (y m : Z) :
  validYearMonth y m ->
  exists f N Np : Z,
    getFirstDayOfMonth y m = Some f /\ 0 <= f <= 6 /\
    getDaysInMonth y m = Some N /\ getDaysInMonth y (m - 1) = Some Np /\
    newDate (Some y) (Some m) (Some 1) = ValidDate (DayFromMonth y m * msPerDay) /\
    newDate (Some y) (Some (m + 1)) (Some 1)
    = ValidDate ((DayFromMonth y m + N) * msPerDay) /\
    let g := buildGridDates y m in
    Z.of_nat (length g) mod 7 = 0 /\
    f + N <= Z.of_nat (length g) < f + N + 7 /\
    (forall i d, g !! i = Some d ->
       d = ValidDate ((DayFromMonth y m - f + Z.of_nat i) * msPerDay) /\
       mondayColumn d = Some (Z.of_nat i mod 7)) /\
    (forall day, 1 <= day <= N ->
       exists d, g !! Z.to_nat (f + day - 1) = Some d /\
         getFullYear d = Some y /\ getMonth d = Some m /\ getDate d = Some day) /\
    (forall i d, Z.of_nat i < f -> g !! i = Some d ->
       getFullYear d = Some (y + (m - 1) / 12) /\
       getMonth d = Some ((m - 1) mod 12) /\
       getDate d = Some (Np - (f - 1 - Z.of_nat i))) /\
    (forall i d, f + N <= Z.of_nat i -> g !! i = Some d ->
       getFullYear d = Some (y + (m + 1) / 12) /\
       getMonth d = Some ((m + 1) mod 12) /\
       getDate d = Some (Z.of_nat i - (f + N) + 1)).
Proof.
  intros Hv. pose proof Hv as (Hy & Hq & Hm).
  set (f := (WeekDay (DayFromMonth y m) + 6) mod 7).
  set (N := daysInMonthTable y m).
  set (Np := daysInMonthTable (y + (m - 1) / 12) ((m - 1) mod 12)).
  exists f, N, Np.
  assert (Hf : 0 <= f <= 6) by (subst f; Z.div_mod_to_equations; lia).
  pose proof (daysInMonthTable_range y m) as HN. fold N in HN.
  pose proof (daysInMonthTable_range (y + (m - 1) / 12) ((m - 1) mod 12)) as HNp.
  fold Np in HNp.
  destruct (padding_spec (f + N)) as [Hr Hr7].
  destruct (prev_month_normal y m Hm) as [Hpm Hp]. fold Np in Hp.
  assert (Hlen : Z.of_nat (length (buildGridDates y m)) = f + N + padding (f + N)).
  { rewrite (buildGridDates_days y m Hv). fold f N.
    rewrite length_fmap, length_seqZ. lia. }
  split; [apply getFirstDayOfMonth_monday, Hv |].
  split; [exact Hf |].
  split; [apply getDaysInMonth_table, Hv |].
  split; [apply getDaysInPrevMonth_table, Hv |].
  pose proof (DayFromMonth_bounds y m Hy Hm) as Hb.
  split.
  { rewrite newDate_valid by (rewrite ?MakeDay_same_month; lia).
    rewrite MakeDay_same_month by lia. do 2 f_equal. lia. }
  split.
  { rewrite newDate_valid by (rewrite ?MakeDay_next_month; fold N; lia).
    rewrite MakeDay_next_month by lia. fold N. do 2 f_equal. lia. }
  cbv zeta. rewrite Hlen.
  split; [exact Hr7 |]. split; [lia |].
  split; [| split; [| split]].
  - intros i d Hd. apply (grid_lookup y m i d Hv) in Hd as [-> Hi]. fold f.
    split; [reflexivity |].
    unfold mondayColumn, getDay, compose. simpl. rewrite Day_of_midnight.
    f_equal. subst f. unfold WeekDay.
    destruct (Z.eqb_spec ((DayFromMonth y m
      - (((DayFromMonth y m + 4) mod 7 + 6) mod 7) + Z.of_nat i + 4) mod 7) 0);
      Z.div_mod_to_equations; lia.
  - intros day Hday.
    exists (ValidDate ((DayFromMonth y m + day - 1) * msPerDay)).
    split; [| apply civil_of_midnight; [exact Hm | fold N; lia]].
    apply (grid_lookup y m _ _ Hv). fold f N. split; [| lia].
    do 2 f_equal. lia.
  - intros i d Hi Hd. apply (grid_lookup y m i d Hv) in Hd as [-> _]. fold f.
    replace (DayFromMonth y m - f + Z.of_nat i)
      with (DayFromMonth (y + (m - 1) / 12) ((m - 1) mod 12)
            + (Np - (f - 1 - Z.of_nat i)) - 1) by lia.
    apply civil_of_midnight; [exact Hpm | fold Np; lia].
  - intros i d Hi Hd. apply (grid_lookup y m i d Hv) in Hd as [-> Hlt]. fold f N in Hlt |- *.
    pose proof (DayFromMonth_next y m Hm) as Hnx. fold N in Hnx.
    pose proof (daysInMonthTable_range (y + (m + 1) / 12) ((m + 1) mod 12)) as HNn.
    replace (DayFromMonth y m - f + Z.of_nat i)
      with (DayFromMonth (y + (m + 1) / 12) ((m + 1) mod 12)
            + (Z.of_nat i - (f + N) + 1) - 1) by lia.
    apply civil_of_midnight; [| lia].
    pose proof (Z.mod_pos_bound (m + 1) 12). lia.
Qed.

(** November 2026 starts on a Sunday: six cells of October, thirty of
    November, six of December. *)
Lemma grid_builder_month_witness :
  validYearMonth 2026 10 /\
  exists f N Np : Z,
    getFirstDayOfMonth 2026 10 = Some f /\ 0 <= f <= 6 /\
    getDaysInMonth 2026 10 = Some N /\ getDaysInMonth 2026 (10 - 1) = Some Np /\
    newDate (Some 2026) (Some 10) (Some 1) = ValidDate (DayFromMonth 2026 10 * msPerDay) /\
    newDate (Some 2026) (Some (10 + 1)) (Some 1)
    = ValidDate ((DayFromMonth 2026 10 + N) * msPerDay) /\
    let g := buildGridDates 2026 10 in
    Z.of_nat (length g) mod 7 = 0 /\
    f + N <= Z.of_nat (length g) < f + N + 7 /\
    (forall i d, g !! i = Some d ->
       d = ValidDate ((DayFromMonth 2026 10 - f + Z.of_nat i) * msPerDay) /\
       mondayColumn d = Some (Z.of_nat i mod 7)) /\
    (forall day, 1 <= day <= N ->
       exists d, g !! Z.to_nat (f + day - 1) = Some d /\
         getFullYear d = Some 2026 /\ getMonth d = Some 10 /\ getDate d = Some day) /\
    (forall i d, Z.of_nat i < f -> g !! i = Some d ->
       getFullYear d = Some (2026 + (10 - 1) / 12) /\
       getMonth d = Some ((10 - 1) mod 12) /\
       getDate d = Some (Np - (f - 1 - Z.of_nat i))) /\
    (forall i d, f + N <= Z.of_nat i -> g !! i = Some d ->
       getFullYear d = Some (2026 + (10 + 1) / 12) /\
       getMonth d = Some ((10 + 1) mod 12) /\
       getDate d = Some (Z.of_nat i - (f + N) + 1)).
Proof.
  assert (Hv : validYearMonth 2026 10) by (unfold validYearMonth; lia).
  split; [exact Hv | exact (grid_builder_month 2026 10 Hv)].
Defined.

End GridBuilder.

(** ** Lane assignment *)

Module LaneAssigner.
Import JSDate Calendar Examples.

Local Open Scope nat_scope.

(** *** Occupancy rows *)

Lemma jsTruthyAt_set (row : list bool) (i j : nat) :
  jsTruthyAt (jsArraySet i true row) j = bool_decide (i = j) || jsTruthyAt row j.
Proof.
  unfold jsTruthyAt, jsArraySet. destruct (decide (i < length row)) as [Hi | Hi].
  - destruct (decide (i = j)) as [<- | Hne].
    + rewrite list_lookup_insert_eq by done. now rewrite bool_decide_eq_true_2.
    + rewrite list_lookup_insert_ne by done. now rewrite bool_decide_eq_false_2.
  - destruct (decide (j < length row)) as [Hj | Hj].
    + rewrite lookup_app_l by done. rewrite bool_decide_eq_false_2 by lia. done.
    + rewrite lookup_app_r by lia.
      rewrite (lookup_ge_None_2 row j) by lia. simpl. rewrite orb_false_r.
      destruct (decide (i = j)) as [<- | Hne].
      * rewrite bool_decide_eq_true_2 by done.
        rewrite lookup_app_r by (rewrite length_replicate; lia).
        rewrite length_replicate, Nat.sub_diag. done.
      * rewrite bool_decide_eq_false_2 by done.
        destruct (decide (j < i)) as [Hlt | Hge].
        -- rewrite lookup_app_l by (rewrite length_replicate; lia).
           rewrite lookup_replicate_2 by lia. done.
        -- rewrite lookup_ge_None_2; [done |].
           rewrite length_app, length_replicate. simpl. lia.
Qed.

Lemma claimed_ge (occ : list (list bool)) (r c : nat) :
  length occ ≤ r -> claimed occ r c = false.
Proof. intros H. unfold claimed. now rewrite lookup_ge_None_2. Qed.

Lemma length_markCells (r : nat) (cells : list nat) (occ : list (list bool)) :
  length (markCells r cells occ) = length occ.
Proof.
  unfold markCells. revert occ. induction cells as [| c cells IH]; intros occ; simpl; [done |].
  now rewrite IH, length_alter.
Qed.

Lemma claimed_markCells (r : nat) (cells : list nat) (occ : list (list bool)) (r' c : nat) :
  r < length occ ->
  claimed (markCells r cells occ) r' c
  = claimed occ r' c || (bool_decide (r' = r) && bool_decide (c ∈ cells)).
Proof.
  unfold markCells. revert occ. induction cells as [| c0 cells IH]; intros occ Hr; cbn [foldl].
  - rewrite (bool_decide_eq_false_2 (c ∈ [])) by apply not_elem_of_nil.
    now rewrite andb_false_r, orb_false_r.
  - rewrite IH by now rewrite length_alter.
    assert (Hstep : claimed (alter (jsArraySet c0 true) r occ) r' c
                    = claimed occ r' c || (bool_decide (r' = r) && bool_decide (c0 = c))).
    { unfold claimed. destruct (decide (r' = r)) as [-> | Hne].
      - rewrite list_lookup_alter_eq.
        destruct (lookup_lt_is_Some_2 occ r Hr) as [row ->]. simpl.
        rewrite jsTruthyAt_set, (bool_decide_eq_true_2 (r = r)) by done. simpl.
        apply orb_comm.
      - rewrite list_lookup_alter_ne by done.
        rewrite (bool_decide_eq_false_2 (r' = r)) by done.
        now rewrite orb_false_r. }
    rewrite Hstep.
    destruct (decide (r' = r)) as [-> | Hne].
    + rewrite !(bool_decide_eq_true_2 (r = r)) by done. simpl.
      rewrite <- orb_assoc. f_equal.
      rewrite <- bool_decide_or. apply bool_decide_ext.
      rewrite elem_of_cons. intuition congruence.
    + rewrite !(bool_decide_eq_false_2 (r' = r)) by done. simpl.
      now rewrite !orb_false_r.
Qed.

Lemma canFit_free (cells : list nat) (occ : list (list bool)) (r : nat) (row : list bool) :
  occ !! r = Some row ->
  canFit cells row = true <-> (forall c, c ∈ cells -> claimed occ r c = false).
Proof.
  intros Hrow. unfold canFit, claimed. rewrite Hrow. simpl.
  rewrite forallb_forall. setoid_rewrite <- list_elem_of_In.
  setoid_rewrite negb_true_iff. done.
Qed.

Lemma canFit_taken (cells : list nat) (occ : list (list bool)) (r : nat) (row : list bool) :
  occ !! r = Some row ->
  canFit cells row = false -> exists c, c ∈ cells /\ claimed occ r c = true.
Proof.
  intros Hrow Hfit. unfold canFit in Hfit. unfold claimed. rewrite Hrow. simpl.
  induction cells as [| c cells IH]; simpl in Hfit; [discriminate |].
  apply andb_false_iff in Hfit as [Hc | Hrest].
  - exists c. split; [apply elem_of_cons; auto | now apply negb_false_iff].
  - destruct (IH Hrest) as (c' & Hin & Hc'). exists c'.
    split; [apply elem_of_cons; auto | done].
Qed.

(** What [chooseRow] returns: a row of the resulting table in which all
    the cells are free, below which no row had them all free; the marks
    of the table are unchanged. *)
Lemma chooseRow_spec (n : nat) (occ : list (list bool)) (cells : list nat) :
  let r := (chooseRow n occ cells).1 in
  let occ' := (chooseRow n occ cells).2 in
  r < length occ' /\ length occ ≤ length occ' /\
  (forall r' c, claimed occ' r' c = claimed occ r' c) /\
  (forall c, c ∈ cells -> claimed occ r c = false) /\
  (forall r', r' < r -> exists c, c ∈ cells /\ claimed occ r' c = true).
Proof.
  unfold chooseRow, findRow.
  destruct (list_find _ occ) as [[i row] |] eqn:Hfind; simpl.
  - apply list_find_Some in Hfind as (Hrow & Hfit & Hmin).
    split; [eapply lookup_lt_Some; eauto |]. split; [done |]. split; [done |].
    split.
    + apply (canFit_free cells occ i row Hrow). now apply Is_true_eq_true.
    + intros r' Hr'.
      destruct (lookup_lt_is_Some_2 occ r') as [row' Hrow'].
      { apply lookup_lt_Some in Hrow. lia. }
      apply (canFit_taken cells occ r' row' Hrow').
      specialize (Hmin r' row' Hrow' Hr').
      destruct (canFit cells row'); [exfalso; apply Hmin; done | done].
  - apply list_find_None in Hfind.
    split; [rewrite length_app; simpl; lia |].
    split; [rewrite length_app; lia |]. split; [| split].
    + intros r' c. unfold claimed.
      destruct (decide (r' < length occ)) as [Hlt | Hge].
      * now rewrite lookup_app_l.
      * rewrite lookup_app_r by lia. rewrite (lookup_ge_None_2 occ r') by lia.
        destruct (r' - length occ) as [| k]; simpl.
        -- unfold jsTruthyAt.
           destruct (replicate n false !! c) as [b |] eqn:Hb; [| done].
           apply lookup_replicate in Hb as [-> _]. done.
        -- done.
    + intros c _. apply claimed_ge. lia.
    + intros r' Hr'.
      destruct (lookup_lt_is_Some_2 occ r' Hr') as [row' Hrow'].
      apply (canFit_taken cells occ r' row' Hrow').
      rewrite Forall_forall in Hfind.
      specialize (Hfind row' (list_elem_of_lookup_2 _ _ _ Hrow')).
      destruct (canFit cells row'); [exfalso; apply Hfind; done | done].
Qed.

(** *** One iteration of the loop over the sorted events *)

Section pass.
Context (now : Z) (gridDates : list Date).

Local Abbreviation stateBefore evs i :=
  (placeEvents now gridDates (take i evs) (initialState gridDates)).

Lemma placeEvent_rendered (st : GridState) (e : Event) :
  isRendered now gridDates e = true ->
  let choice := chooseRow (length gridDates) st.(globalRowOccupancy)
                          (cellsOf now gridDates e) in
  placeEvent now gridDates (indexDates gridDates) st e =
  {| globalRowOccupancy := markCells choice.1 (cellsOf now gridDates e) choice.2;
     multiDayEventsList :=
       st.(multiDayEventsList)
       ++ eventSegments gridDates e (startIndexOf now gridDates e)
                        (endIndexOf now gridDates e) choice.1;
     singleDayEventsMap := st.(singleDayEventsMap) |}.
Proof.
  unfold isRendered, isSpanning, placeEvent, cellsOf, startIndexOf, endIndexOf.
  intros [Hs Hg]%andb_true_iff. rewrite Hs, Hg.
  destruct (chooseRow _ _ _) as [r occ']. reflexivity.
Qed.

Lemma placeEvent_not_rendered (st : GridState) (e : Event) :
  isRendered now gridDates e = false ->
  let st' := placeEvent now gridDates (indexDates gridDates) st e in
  st'.(globalRowOccupancy) = st.(globalRowOccupancy) /\
  st'.(multiDayEventsList) = st.(multiDayEventsList).
Proof.
  unfold isRendered, isSpanning, placeEvent, startIndexOf, endIndexOf.
  intros Hr. destruct (isMultiDayEvent now e || all_day e) eqn:Hs; simpl in Hr.
  - rewrite Hr. done.
  - destruct (singleDayEventsMap st !! _); done.
Qed.

Lemma stateBefore_S (evs : list Event) (i : nat) (e : Event) :
  evs !! i = Some e ->
  stateBefore evs (S i) =
  placeEvent now gridDates (indexDates gridDates) (stateBefore evs i) e.
Proof.
  intros He. unfold placeEvents. rewrite (take_S_r _ _ _ He), foldl_app. reflexivity.
Qed.

Lemma laneOf_Some (evs : list Event) (i r : nat) :
  laneOf now gridDates evs i = Some r <->
  exists e, evs !! i = Some e /\ isRendered now gridDates e = true /\
    r = (chooseRow (length gridDates) (occupancyBefore now gridDates evs i)
                   (cellsOf now gridDates e)).1.
Proof.
  unfold laneOf. destruct (evs !! i) as [e |]; simpl.
  - destruct (isRendered now gridDates e) eqn:Hr; split.
    + intros [= <-]. eauto.
    + intros (e' & [= <-] & _ & ->). done.
    + discriminate.
    + intros (e' & [= <-] & Hr' & _). congruence.
  - split; [discriminate | intros (e' & [=] & _)].
Qed.

Lemma occupancy_step (evs : list Event) (i : nat) (e : Event) :
  evs !! i = Some e ->
  occupancyBefore now gridDates evs (S i) =
  if isRendered now gridDates e then
    let choice := chooseRow (length gridDates) (occupancyBefore now gridDates evs i)
                            (cellsOf now gridDates e) in
    markCells choice.1 (cellsOf now gridDates e) choice.2
  else occupancyBefore now gridDates evs i.
Proof.
  intros He. unfold occupancyBefore. rewrite (stateBefore_S evs i e He).
  destruct (isRendered now gridDates e) eqn:Hr.
  - now rewrite placeEvent_rendered.
  - now apply placeEvent_not_rendered.
Qed.

(** The occupancy table records exactly the cells claimed so far. *)
Lemma occupancy_claimed (evs : list Event) (i : nat) :
  i ≤ length evs ->
  forall r c, claimed (occupancyBefore now gridDates evs i) r c = true
              <-> claimedBefore now gridDates evs i r c.
Proof.
  induction i as [| i IH]; intros Hi r c.
  - unfold occupancyBefore, claimedBefore. simpl. split; [discriminate |].
    intros (k & _ & Hk & _). lia.
  - destruct (lookup_lt_is_Some_2 evs i) as [e He]; [lia |].
    specialize (IH ltac:(lia)).
    rewrite (occupancy_step evs i e He).
    assert (Hsplit : claimedBefore now gridDates evs (S i) r c <->
              claimedBefore now gridDates evs i r c \/
              (laneOf now gridDates evs i = Some r /\ c ∈ cellsOf now gridDates e)).
    { unfold claimedBefore. split.
      - intros (k & ek & Hk & Hek & Hl & Hc).
        destruct (decide (k = i)) as [-> | Hne].
        + right. rewrite He in Hek. injection Hek as <-. done.
        + left. exists k, ek. repeat split; try done. lia.
      - intros [(k & ek & Hk & Hek & Hl & Hc) | [Hl Hc]].
        + exists k, ek. repeat split; try done. lia.
        + exists i, e. repeat split; try done. lia. }
    rewrite Hsplit. clear Hsplit.
    destruct (isRendered now gridDates e) eqn:Hr.
    + pose proof (chooseRow_spec (length gridDates)
                    (occupancyBefore now gridDates evs i) (cellsOf now gridDates e))
        as (Hlt & _ & Hsame & _). cbv zeta in *.
      rewrite claimed_markCells by done. rewrite Hsame.
      rewrite orb_true_iff, andb_true_iff, !bool_decide_eq_true, IH.
      rewrite laneOf_Some. split.
      * intros [? | [-> ?]]; [by left | right]. split; [| done].
        exists e. done.
      * intros [? | [(e' & He' & _ & ->) ?]]; [by left | right].
        rewrite He in He'. injection He' as <-. done.
    + rewrite IH. split; [by left |].
      intros [? | [Hl _]]; [done |].
      apply laneOf_Some in Hl as (e' & He' & Hr' & _).
      rewrite He in He'. injection He' as <-. congruence.
Qed.

(** First fit: the lane of an event is free on all its cells, and every
    lower lane is taken on one of them. *)
Lemma laneOf_first_fit (evs : list Event) (i r : nat) (e : Event) :
  evs !! i = Some e -> laneOf now gridDates evs i = Some r ->
  (forall c, c ∈ cellsOf now gridDates e -> ¬ claimedBefore now gridDates evs i r c) /\
  (forall r', r' < r ->
     exists c, c ∈ cellsOf now gridDates e /\ claimedBefore now gridDates evs i r' c).
Proof.
  intros He Hl. apply laneOf_Some in Hl as (e' & He' & Hr & ->).
  rewrite He in He'. injection He' as <-.
  assert (Hi : i ≤ length evs) by (apply lookup_lt_Some in He; lia).
  pose proof (chooseRow_spec (length gridDates)
                (occupancyBefore now gridDates evs i) (cellsOf now gridDates e))
    as (_ & _ & _ & Hfree & Hlow). cbv zeta in *.
  split.
  - intros c Hc Hcl. apply (occupancy_claimed evs i Hi) in Hcl.
    rewrite (Hfree c Hc) in Hcl. discriminate.
  - intros r' Hr'. destruct (Hlow r' Hr') as (c & Hc & Hcl).
    exists c. split; [done |]. now apply (occupancy_claimed evs i Hi).
Qed.

Lemma lanes_differ_ordered (evs : list Event) (k i rk ri c : nat) (ek ei : Event) :
  k < i -> evs !! k = Some ek -> evs !! i = Some ei ->
  laneOf now gridDates evs k = Some rk -> laneOf now gridDates evs i = Some ri ->
  c ∈ cellsOf now gridDates ek -> c ∈ cellsOf now gridDates ei ->
  rk ≠ ri.
Proof.
  intros Hki Hek Hei Hlk Hli Hck Hci ->.
  destruct (laneOf_first_fit evs i ri ei Hei Hli) as [Hfree _].
  apply (Hfree c Hci). exists k, ek. done.
Qed.

Lemma segments_concat (evs : list Event) (i : nat) :
  i ≤ length evs ->
  (stateBefore evs i).(multiDayEventsList)
  = seq 0 i ≫= segmentsOf now gridDates evs.
Proof.
  induction i as [| i IH]; intros Hi; [reflexivity |].
  destruct (lookup_lt_is_Some_2 evs i) as [e He]; [lia |].
  rewrite seq_S, bind_app, <- IH by lia. simpl. rewrite app_nil_r.
  rewrite (stateBefore_S evs i e He).
  unfold segmentsOf. rewrite He.
  destruct (laneOf now gridDates evs i) as [r |] eqn:Hl.
  - apply laneOf_Some in Hl as (e' & He' & Hr & ->).
    rewrite He in He'. injection He' as <-.
    now rewrite placeEvent_rendered.
  - rewrite app_nil_r. apply placeEvent_not_rendered.
    unfold laneOf in Hl. rewrite He in Hl. simpl in Hl.
    destruct (isRendered now gridDates e); [discriminate | done].
Qed.
End pass.

(** *** The order in which events are processed *)

Lemma sortInsert_perm {A} (gt : A -> A -> bool) (x : A) (l : list A) :
  sortInsert gt x l ≡ₚ x :: l.
Proof.
  induction l as [| y l IH]; simpl; [done |].
  destruct (gt y x); [done |]. rewrite IH. apply Permutation_swap.
Qed.

Lemma jsSort_perm {A} (gt : A -> A -> bool) (l : list A) : jsSort gt l ≡ₚ l.
Proof.
  unfold jsSort.
  assert (H : forall acc, foldl (λ acc x, sortInsert gt x acc) acc l ≡ₚ l ++ acc).
  { induction l as [| x l IH]; intros acc; simpl; [done |].
    rewrite IH, sortInsert_perm. symmetry. apply Permutation_middle. }
  rewrite H. now rewrite app_nil_r.
Qed.

Lemma startsAfter_true (now : Z) (a b : Event) :
  startsAfter now a b = true <->
  exists ta tb, startTime now a = Some ta /\ startTime now b = Some tb /\ (tb < ta)%Z.
Proof.
  unfold startsAfter, startTime, dateDiff, numGt.
  destruct (parseEventDate now (start a)) as [ta |],
           (parseEventDate now (start b)) as [tb |]; simpl.
  - rewrite Z.ltb_lt. split.
    + intros H. exists ta, tb. repeat split; lia.
    + intros (ta' & tb' & [= <-] & [= <-] & H). lia.
  - split; [discriminate | intros (? & ? & _ & [=] & _)].
  - split; [discriminate | intros (? & ? & [=] & _)].
  - split; [discriminate | intros (? & ? & [=] & _)].
Qed.

(** Insertion keeps a list sorted for any order [R] the comparator
    agrees with. *)
Lemma sortInsert_sorted {A} (gt : A -> A -> bool) (R : A -> A -> Prop)
    (x : A) (l : list A) :
  (forall a b, gt b a = true -> R a b) ->
  (forall a b c, gt b a = true -> R b c -> R a c) ->
  (forall a b, gt b a = false -> R b a) ->
  StronglySorted R l -> StronglySorted R (sortInsert gt x l).
Proof.
  intros Hgt Htrans Hle.
  induction l as [| y l IH]; intros Hs; simpl.
  - repeat constructor.
  - apply StronglySorted_inv in Hs as [Hl Hy].
    destruct (gt y x) eqn:Hyx.
    + constructor; [constructor; done |].
      constructor; [auto |].
      eapply Forall_impl; [exact Hy |]. intros z Hyz. eauto.
    + constructor; [auto |].
      rewrite sortInsert_perm. constructor; [auto | done].
Qed.

Lemma jsSort_sorted {A} (gt : A -> A -> bool) (R : A -> A -> Prop) (l : list A) :
  (forall a b, gt b a = true -> R a b) ->
  (forall a b c, gt b a = true -> R b c -> R a c) ->
  (forall a b, gt b a = false -> R b a) ->
  StronglySorted R (jsSort gt l).
Proof.
  intros Hgt Htrans Hle. unfold jsSort.
  assert (H : forall acc, StronglySorted R acc ->
            StronglySorted R (foldl (λ acc x, sortInsert gt x acc) acc l)).
  { induction l as [| x l IH]; intros acc Hacc; simpl; [done |].
    apply IH, sortInsert_sorted; auto. }
  apply H. constructor.
Qed.

Lemma sortedEvents_sorted (now : Z) (events : list Event) :
  StronglySorted (startsNoLater now) (sortedEvents now events).
Proof.
  apply jsSort_sorted.
  - intros a b (tb & ta & Hb & Ha & Hlt)%startsAfter_true ta' tb' Ha' Hb'.
    rewrite Ha in Ha'. rewrite Hb in Hb'.
    injection Ha' as <-. injection Hb' as <-. lia.
  - intros a b c (tb & ta & Hb & Ha & Hlt)%startsAfter_true Hbc ta' tc Ha' Hc.
    rewrite Ha in Ha'. injection Ha' as <-.
    specialize (Hbc tb tc Hb Hc). lia.
  - intros a b Hgt tb ta Hb Ha.
    destruct (Z.le_gt_cases tb ta) as [? | Hlt]; [done |].
    assert (startsAfter now b a = true) as Habs; [| congruence].
    apply startsAfter_true. exists tb, ta. repeat split; try done; lia.
Qed.

(** *** Segments and the cells they cover *)

Section segments.
Context (gridDates : list Date) (e : Event) (si ei : option nat).

Lemma spanOf_colEnd (w : nat) :
  spanOf gridDates e si ei w
  = (colEndOf gridDates e ei w + 1 - Z.of_nat (colStartOf si w))%Z.
Proof.
  unfold spanOf, colEndOf. destruct ei as [i |]; [| lia].
  destruct (decide _); [| lia]. destruct (all_day e); lia.
Qed.

Lemma colEndOf_le (w : nat) : (colEndOf gridDates e ei w <= 6)%Z.
Proof.
  unfold colEndOf. destruct ei as [i |]; [| lia].
  destruct (decide _); [| lia].
  pose proof (Nat.mod_upper_bound i 7 ltac:(lia)).
  destruct (all_day e); lia.
Qed.

Lemma weekSegment_cells (r w : nat) :
  weekSegment gridDates e si ei r w ≫= segmentCells = weekCells gridDates e si ei w.
Proof.
  unfold weekSegment, weekCells. rewrite spanOf_colEnd.
  destruct (decide (_ <= 0)%Z) as [Hle | Hgt].
  - rewrite decide_False by lia. reflexivity.
  - rewrite decide_True by lia. simpl. rewrite app_nil_r.
    unfold segmentCells, segmentColumns. simpl. reflexivity.
Qed.

Lemma eventSegments_cells (r : nat) :
  eventSegments gridDates e si ei r ≫= segmentCells = occupiedCells gridDates e si ei.
Proof.
  unfold eventSegments, occupiedCells.
  induction (weekIndices gridDates si ei) as [| w ws IH]; [reflexivity |].
  rewrite !bind_cons, bind_app, IH, weekSegment_cells. reflexivity.
Qed.

Lemma weekSegment_elem (r w : nat) (s : Segment) :
  s ∈ weekSegment gridDates e si ei r w ->
  event s = e /\ eventRow s = r /\ gridRow s = w /\
  forall c, c ∈ segmentCells s -> w * 7 ≤ c < w * 7 + 7.
Proof.
  unfold weekSegment. destruct (decide _) as [? | Hpos]; [by intros ?%elem_of_nil |].
  intros ->%list_elem_of_singleton. cbn [event eventRow gridRow].
  split; [reflexivity |]. split; [reflexivity |]. split; [reflexivity |].
  intros c Hc. unfold segmentCells, segmentColumns in Hc.
  cbn [gridRow gridColumn span] in Hc.
  apply list_elem_of_fmap in Hc as (col & -> & Hcol).
  apply elem_of_seq in Hcol. rewrite spanOf_colEnd in Hcol, Hpos.
  pose proof (colEndOf_le w). lia.
Qed.

Lemma eventSegments_elem (r : nat) (s : Segment) :
  s ∈ eventSegments gridDates e si ei r ->
  event s = e /\ eventRow s = r /\
  s ∈ weekSegment gridDates e si ei r (gridRow s) /\
  forall c, c ∈ segmentCells s -> gridRow s * 7 ≤ c < gridRow s * 7 + 7.
Proof.
  unfold eventSegments. intros (w & Hs & _)%list_elem_of_bind.
  destruct (weekSegment_elem r w s Hs) as (He & Hr & Hw & Hc).
  subst w. done.
Qed.

(** A week holds at most one segment of the event: two segments of one
    event that share a cell are the same segment. *)
Lemma eventSegments_share (r : nat) (s1 s2 : Segment) (c : nat) :
  s1 ∈ eventSegments gridDates e si ei r ->
  s2 ∈ eventSegments gridDates e si ei r ->
  c ∈ segmentCells s1 -> c ∈ segmentCells s2 -> s1 = s2.
Proof.
  intros (_ & _ & H1 & Hc1)%eventSegments_elem (_ & _ & H2 & Hc2)%eventSegments_elem
         Hin1 Hin2.
  specialize (Hc1 c Hin1). specialize (Hc2 c Hin2).
  assert (Hrow : gridRow s1 = gridRow s2) by lia.
  rewrite Hrow in H1. unfold weekSegment in H1, H2.
  destruct (decide _); [by apply elem_of_nil in H1 |].
  apply list_elem_of_singleton in H1, H2. congruence.
Qed.
End segments.

(** *** The lanes of a whole pass *)

Section assignment.
Context (now : Z) (gridDates : list Date).

Lemma segmentsOf_elem (evs : list Event) (i : nat) (s : Segment) :
  s ∈ segmentsOf now gridDates evs i <->
  exists e r, evs !! i = Some e /\ laneOf now gridDates evs i = Some r /\
    s ∈ eventSegments gridDates e (startIndexOf now gridDates e)
                      (endIndexOf now gridDates e) r.
Proof.
  unfold segmentsOf. destruct (evs !! i) as [e |].
  - destruct (laneOf now gridDates evs i) as [r |]; split.
    + intros H. exists e, r. done.
    + intros (e' & r' & [= <-] & [= <-] & H). done.
    + by intros ?%elem_of_nil.
    + intros (e' & r' & _ & [=] & _).
  - split; [by intros ?%elem_of_nil | intros (e' & r' & [=] & _)].
Qed.

Lemma segmentsOf_cells (evs : list Event) (i : nat) (e : Event) :
  evs !! i = Some e ->
  segmentsOf now gridDates evs i ≫= segmentCells
  = if isRendered now gridDates e then cellsOf now gridDates e else [].
Proof.
  intros He. unfold segmentsOf, laneOf. rewrite He. simpl.
  destruct (isRendered now gridDates e); [| reflexivity].
  apply eventSegments_cells.
Qed.

Lemma segment_cell_of_event (evs : list Event) (i : nat) (s : Segment) (c : nat) :
  s ∈ segmentsOf now gridDates evs i -> c ∈ segmentCells s ->
  exists e r, evs !! i = Some e /\ laneOf now gridDates evs i = Some r /\
    event s = e /\ eventRow s = r /\ c ∈ cellsOf now gridDates e.
Proof.
  intros (e & r & He & Hl & Hs)%segmentsOf_elem Hc.
  exists e, r. destruct (eventSegments_elem _ _ _ _ _ _ Hs) as (Hev & Hrow & _).
  repeat split; try done.
  unfold cellsOf. rewrite <- (eventSegments_cells gridDates e _ _ r).
  apply list_elem_of_bind. exists s. done.
Qed.

Lemma lanes_differ (evs : list Event) (i j ri rj c : nat) (ei ej : Event) :
  i ≠ j -> evs !! i = Some ei -> evs !! j = Some ej ->
  laneOf now gridDates evs i = Some ri -> laneOf now gridDates evs j = Some rj ->
  c ∈ cellsOf now gridDates ei -> c ∈ cellsOf now gridDates ej ->
  ri ≠ rj.
Proof.
  intros Hne Hei Hej Hli Hlj Hci Hcj.
  destruct (Nat.lt_total i j) as [Hlt | [-> | Hgt]]; [| done |].
  - eapply (lanes_differ_ordered now gridDates evs i j); eauto.
  - apply not_eq_sym.
    eapply (lanes_differ_ordered now gridDates evs j i); eauto.
Qed.

(** What holds of a pass over the events in any order [evs]. *)
Lemma lane_facts_any_order (evs : list Event) :
  let st := placeEvents now gridDates evs (initialState gridDates) in
  st.(multiDayEventsList) = seq 0 (length evs) ≫= segmentsOf now gridDates evs /\
  (forall i s, s ∈ segmentsOf now gridDates evs i ->
     evs !! i = Some (event s) /\
     laneOf now gridDates evs i = Some (eventRow s)) /\
  (forall i e, evs !! i = Some e ->
     segmentsOf now gridDates evs i ≫= segmentCells
     = if isRendered now gridDates e then cellsOf now gridDates e else []) /\
  (forall i e r, evs !! i = Some e -> laneOf now gridDates evs i = Some r ->
     (forall c, c ∈ cellsOf now gridDates e ->
        ¬ claimedBefore now gridDates evs i r c) /\
     (forall r', r' < r ->
        exists c, c ∈ cellsOf now gridDates e /\
                  claimedBefore now gridDates evs i r' c)) /\
  (forall i j ei ej ri rj c,
     i ≠ j -> evs !! i = Some ei -> evs !! j = Some ej ->
     laneOf now gridDates evs i = Some ri ->
     laneOf now gridDates evs j = Some rj ->
     c ∈ cellsOf now gridDates ei -> c ∈ cellsOf now gridDates ej ->
     ri ≠ rj) /\
  (forall i j s1 s2 c,
     s1 ∈ segmentsOf now gridDates evs i ->
     s2 ∈ segmentsOf now gridDates evs j ->
     c ∈ segmentCells s1 -> c ∈ segmentCells s2 ->
     i ≠ j \/ s1 ≠ s2 ->
     eventRow s1 ≠ eventRow s2).
Proof.
  intros st.
  split.
  { subst st.
    rewrite <- (segments_concat now gridDates evs (length evs)) by done.
    now rewrite firstn_all. }
  split.
  { intros i s Hs.
    apply segmentsOf_elem in Hs as (e & r & He & Hl & Hs).
    destruct (eventSegments_elem _ _ _ _ _ _ Hs) as (-> & -> & _). done. }
  split; [apply segmentsOf_cells |].
  split; [intros i e r; apply laneOf_first_fit |].
  split; [intros i j ei ej ri rj c; apply lanes_differ |].
  intros i j s1 s2 c Hs1 Hs2 Hc1 Hc2 Hdiff.
  destruct (segment_cell_of_event evs i s1 c Hs1 Hc1)
    as (e1 & r1 & He1 & Hl1 & _ & <- & Hce1).
  destruct (segment_cell_of_event evs j s2 c Hs2 Hc2)
    as (e2 & r2 & He2 & Hl2 & _ & <- & Hce2).
  destruct (decide (i = j)) as [<- | Hne].
  - destruct Hdiff as [? | Hdiff]; [done |]. exfalso. apply Hdiff.
    apply segmentsOf_elem in Hs1 as (e & r & He & Hl & Hs1).
    apply segmentsOf_elem in Hs2 as (e' & r' & He' & Hl' & Hs2).
    rewrite He in He'. injection He' as <-.
    rewrite Hl in Hl'. injection Hl' as <-.
    eapply eventSegments_share; eauto.
  - eapply lanes_differ; eauto.
Qed.

Lemma lane_assignment_facts (events : list Event) :
  let evs := sortedEvents now events in
  let out := organizeEventsForGrid now (Some events) gridDates in
  evs ≡ₚ events /\
  StronglySorted (startsNoLater now) evs /\
  out.(multiDayEvents) = seq 0 (length evs) ≫= segmentsOf now gridDates evs /\
  (forall i s, s ∈ segmentsOf now gridDates evs i ->
     evs !! i = Some (event s) /\
     laneOf now gridDates evs i = Some (eventRow s)) /\
  (forall i e, evs !! i = Some e ->
     segmentsOf now gridDates evs i ≫= segmentCells
     = if isRendered now gridDates e then cellsOf now gridDates e else []) /\
  (forall i e r, evs !! i = Some e -> laneOf now gridDates evs i = Some r ->
     (forall c, c ∈ cellsOf now gridDates e ->
        ¬ claimedBefore now gridDates evs i r c) /\
     (forall r', r' < r ->
        exists c, c ∈ cellsOf now gridDates e /\
                  claimedBefore now gridDates evs i r' c)) /\
  (forall i j ei ej ri rj c,
     i ≠ j -> evs !! i = Some ei -> evs !! j = Some ej ->
     laneOf now gridDates evs i = Some ri ->
     laneOf now gridDates evs j = Some rj ->
     c ∈ cellsOf now gridDates ei -> c ∈ cellsOf now gridDates ej ->
     ri ≠ rj) /\
  (forall i j s1 s2 c,
     s1 ∈ segmentsOf now gridDates evs i ->
     s2 ∈ segmentsOf now gridDates evs j ->
     c ∈ segmentCells s1 -> c ∈ segmentCells s2 ->
     i ≠ j \/ s1 ≠ s2 ->
     eventRow s1 ≠ eventRow s2).
Proof.
  intros evs out.
  split; [apply jsSort_perm |].
  split; [apply sortedEvents_sorted |].
  exact (lane_facts_any_order evs).
Qed.

(** C1: in whatever order [evs] the events are processed, each rendered
    event is given one lane, carried by all its segments; the lane is the
    lowest one none of whose cells claimed by earlier events is a cell of
    the event; two events that share a grid cell have different lanes,
    and so have two segments that share a cell.  When every start is a
    valid date, the order in which [organizeEventsForGrid] processes the
    events is the ascending order of start. *)
Theorem lane_assignment_overlap_free (evs : list Event) :
  let st := placeEvents now gridDates evs (initialState gridDates) in
  st.(multiDayEventsList) = seq 0 (length evs) ≫= segmentsOf now gridDates evs /\
  (forall i s, s ∈ segmentsOf now gridDates evs i ->
     evs !! i = Some (event s) /\
     laneOf now gridDates evs i = Some (eventRow s)) /\
  (forall i e, evs !! i = Some e ->
     segmentsOf now gridDates evs i ≫= segmentCells
     = if isRendered now gridDates e then cellsOf now gridDates e else []) /\
  (forall i e r, evs !! i = Some e -> laneOf now gridDates evs i = Some r ->
     (forall c, c ∈ cellsOf now gridDates e ->
        ¬ claimedBefore now gridDates evs i r c) /\
     (forall r', r' < r ->
        exists c, c ∈ cellsOf now gridDates e /\
                  claimedBefore now gridDates evs i r' c)) /\
  (forall i j ei ej ri rj c,
     i ≠ j -> evs !! i = Some ei -> evs !! j = Some ej ->
     laneOf now gridDates evs i = Some ri ->
     laneOf now gridDates evs j = Some rj ->
     c ∈ cellsOf now gridDates ei -> c ∈ cellsOf now gridDates ej ->
     ri ≠ rj) /\
  (forall i j s1 s2 c,
     s1 ∈ segmentsOf now gridDates evs i ->
     s2 ∈ segmentsOf now gridDates evs j ->
     c ∈ segmentCells s1 -> c ∈ segmentCells s2 ->
     i ≠ j \/ s1 ≠ s2 ->
     eventRow s1 ≠ eventRow s2) /\
  (forall events,
     validStarts now events -> evs = sortedEvents now events ->
     evs ≡ₚ events /\
     StronglySorted (startsNoLater now) evs /\
     (forall i j a b ta tb,
        i < j -> evs !! i = Some a -> evs !! j = Some b ->
        startTime now a = Some ta -> startTime now b = Some tb -> (ta <= tb)%Z) /\
     (organizeEventsForGrid now (Some events) gridDates).(multiDayEvents)
     = st.(multiDayEventsList)).
Proof.
  intros st.
  destruct (lane_facts_any_order evs) as (H1 & H2 & H3 & H4 & H5 & H6).
  repeat (split; [assumption |]).
  intros events Hvalid ->.
  pose proof (sortedEvents_sorted now events) as Hsorted.
  split; [apply jsSort_perm |]. split; [exact Hsorted |]. split; [| reflexivity].
  intros i j a b ta tb Hlt Ha Hb Hta Htb.
  assert (Hab : startsNoLater now a b).
  { clear -Hsorted Hlt Ha Hb.
    revert i j Hlt Ha Hb.
    induction Hsorted as [| x l _ IH Hx]; intros i j Hlt Ha Hb; [discriminate |].
    destruct j as [| j]; [lia |]. cbn [lookup list_lookup] in Hb.
    destruct i as [| i].
    - injection Ha as <-. rewrite Forall_forall in Hx.
      apply Hx. eapply list_elem_of_lookup_2. exact Hb.
    - cbn [lookup list_lookup] in Ha. apply (IH i j); [lia | done | done]. }
  exact (Hab ta tb Hta Htb).
Qed.
End assignment.

(** Events A (Monday to Wednesday) and B (Wednesday to Friday) share the
    cell of Wednesday 4 November, cell 9 of the grid; given as B, A they
    are processed as A, B. *)
Lemma lane_assignment_overlap_free_witness :
  let evs := sortedEvents 0 [eventB; eventA] in
  evs = [eventA; eventB] /\
  (exists ri rj,
     laneOf 0 november2026 evs 0 = Some ri /\
     laneOf 0 november2026 evs 1 = Some rj /\
     ri ≠ rj) /\
  StronglySorted (startsNoLater 0) evs.
Proof.
  pose proof (lane_assignment_overlap_free 0 november2026 (sortedEvents 0 [eventB; eventA]))
    as (_ & _ & _ & _ & Hdiff & _ & Horder).
  split; [vm_compute; reflexivity |]. split.
  - exists 0, 1.
    split; [vm_compute; reflexivity |]. split; [vm_compute; reflexivity |].
    apply (Hdiff 0 1 eventA eventB 0 1 9).
    + discriminate.
    + vm_compute; reflexivity.
    + vm_compute; reflexivity.
    + vm_compute; reflexivity.
    + vm_compute; reflexivity.
    + apply (bool_decide_unpack _). vm_compute. exact I.
    + apply (bool_decide_unpack _). vm_compute. exact I.
  - refine (proj1 (proj2 (Horder [eventB; eventA] _ eq_refl))).
    repeat constructor; discriminate.
Defined.

End LaneAssigner.

(** ** What is placed, and where *)

Module Placement.
Import JSDate Calendar LaneAssigner Examples.

Local Open Scope nat_scope.

Lemma mapDates_lookup (gridDates : list Date) (k : string) :
  mapDates gridDates !! k = if decide (k ∈ getDateKey <$> gridDates) then Some [] else None.
Proof.
  unfold mapDates.
  induction gridDates as [| d l IH] using rev_ind.
  - rewrite decide_False by (rewrite fmap_nil; apply not_elem_of_nil). apply lookup_empty.
  - rewrite foldl_app, fmap_app. simpl.
    destruct (decide (getDateKey d = k)) as [<- | Hne].
    + rewrite lookup_insert_eq, decide_True; [done |].
      apply elem_of_app. right. apply list_elem_of_singleton. done.
    + rewrite lookup_insert_ne, IH by done.
      destruct (decide (k ∈ getDateKey <$> l)) as [Hin | Hout].
      * rewrite decide_True; [done | apply elem_of_app; auto].
      * rewrite decide_False; [done |].
        rewrite elem_of_app, list_elem_of_singleton. intros [? | ?]; congruence.
Qed.

Section pass.
Context (now : Z) (gridDates : list Date).

Lemma bucketsOk_initial : bucketsOk now gridDates (mapDates gridDates).
Proof.
  intros k bucket Hk. rewrite mapDates_lookup in Hk.
  destruct (decide _) as [Hin | ?]; [| discriminate].
  injection Hk as <-. split; [done |]. by intros e ?%elem_of_nil.
Qed.

Lemma bucketsOk_placeEvent (st : GridState) (e : Event) :
  bucketsOk now gridDates st.(singleDayEventsMap) ->
  bucketsOk now gridDates
    (placeEvent now gridDates (indexDates gridDates) st e).(singleDayEventsMap).
Proof.
  intros Hok. unfold placeEvent.
  destruct (isMultiDayEvent now e || all_day e) eqn:Hs.
  - match goal with |- context [if ?b then _ else _] => destruct b end;
      [| exact Hok].
    destruct (chooseRow _ _ _). exact Hok.
  - destruct (singleDayEventsMap st !! _) as [bucket |] eqn:Hb; [| exact Hok].
    simpl. intros k b Hk.
    destruct (decide (getDateKey (parseEventDate now (start e)) = k)) as [<- | Hne].
    + rewrite lookup_insert_eq in Hk. injection Hk as <-.
      destruct (Hok _ _ Hb) as [Hin Hev]. split; [done |].
      intros x [Hx | ->%list_elem_of_singleton]%elem_of_app; [auto |].
      split; [exact Hs | done].
    + rewrite lookup_insert_ne in Hk by done. eauto.
Qed.

Lemma bucketsOk_placeEvents (evs : list Event) (st : GridState) :
  bucketsOk now gridDates st.(singleDayEventsMap) ->
  bucketsOk now gridDates (placeEvents now gridDates evs st).(singleDayEventsMap).
Proof.
  unfold placeEvents. revert st.
  induction evs as [| e evs IH]; intros st Hok; simpl; [done |].
  apply IH, bucketsOk_placeEvent, Hok.
Qed.

Lemma bucketsOk_organize (events : option (list Event)) :
  bucketsOk now gridDates (organizeEventsForGrid now events gridDates).(singleDayEvents).
Proof.
  destruct events as [evs |]; simpl.
  - apply bucketsOk_placeEvents, bucketsOk_initial.
  - apply bucketsOk_initial.
Qed.

(** Every segment of the result belongs to an event that passed both
    tests of the multi-day branch. *)
Lemma segment_rendered (events : option (list Event)) (s : Segment) :
  s ∈ (organizeEventsForGrid now events gridDates).(multiDayEvents) ->
  isRendered now gridDates (event s) = true.
Proof.
  destruct events as [evs |]; simpl; [| by intros ?%elem_of_nil].
  pose proof (lane_assignment_facts now gridDates evs) as (_ & _ & Hout & Hseg & _).
  cbv zeta in *. simpl in Hout. rewrite Hout.
  intros (i & Hs & _)%list_elem_of_bind.
  destruct (Hseg i s Hs) as [Hev Hl].
  apply laneOf_Some in Hl as (e & He & Hr & _).
  rewrite Hev in He. injection He as <-. exact Hr.
Qed.
End pass.

Section claims.
Context (now : Z) (gridDates : list Date).

(** C2, as the code has it: a segment is only ever produced for a
    multi-day or all-day event whose start date or adjusted end date is
    a date of the grid; an event with neither in the grid produces no
    segment, whether it lies outside the grid or covers all of it. *)
Theorem unanchored_event_not_rendered (events : option (list Event)) (e : Event) :
  startIndexOf now gridDates e = None ->
  endIndexOf now gridDates e = None ->
  let out := organizeEventsForGrid now events gridDates in
  (forall s, s ∈ out.(multiDayEvents) -> event s ≠ e) /\
  (forall s, s ∈ out.(multiDayEvents) ->
     isSpanning now (event s) = true /\
     (is_Some (startIndexOf now gridDates (event s))
      \/ is_Some (endIndexOf now gridDates (event s)))).
Proof.
  intros Hs He out.
  assert (Hall : forall s, s ∈ out.(multiDayEvents) ->
            isSpanning now (event s) = true /\
            (is_Some (startIndexOf now gridDates (event s))
             \/ is_Some (endIndexOf now gridDates (event s)))).
  { intros s Hin. apply segment_rendered in Hin.
    unfold isRendered in Hin. apply andb_true_iff in Hin as [Hsp Hg].
    split; [exact Hsp |].
    apply orb_true_iff in Hg as [Hg | Hg].
    - left. now apply bool_decide_eq_true in Hg.
    - right. apply andb_true_iff in Hg as [Hg _].
      now apply bool_decide_eq_true in Hg. }
  split; [| exact Hall].
  intros s Hin Heq. destruct (Hall s Hin) as [_ [[i Hi] | [i Hi]]];
    rewrite Heq in Hi; congruence.
Qed.

(** C10: an event that takes the single-day branch and whose start date
    key is not the key of a grid date is in no bucket and owns no
    segment; the buckets are those of the grid dates. *)
Theorem offgrid_single_day_omitted (events : option (list Event)) (e : Event) :
  isSpanning now e = false ->
  getDateKey (parseEventDate now e.(start)) ∉ getDateKey <$> gridDates ->
  let out := organizeEventsForGrid now events gridDates in
  (forall k bucket, out.(singleDayEvents) !! k = Some bucket ->
     k ∈ getDateKey <$> gridDates /\ e ∉ bucket) /\
  (forall s, s ∈ out.(multiDayEvents) -> event s ≠ e).
Proof.
  intros Hsingle Hkey out. split.
  - intros k bucket Hk.
    destruct (bucketsOk_organize now gridDates events k bucket Hk) as [Hin Hev].
    split; [exact Hin |]. intros He.
    destruct (Hev e He) as [_ <-]. contradiction.
  - intros s Hin Heq. apply segment_rendered in Hin.
    unfold isRendered in Hin. rewrite Heq, Hsingle in Hin. discriminate.
Qed.
End claims.

(** The event from 1 October to 31 December has neither end in the grid
    of November 2026. *)
Lemma unanchored_event_not_rendered_witness :
  startIndexOf 0 november2026 wholeGridEvent = None /\
  endIndexOf 0 november2026 wholeGridEvent = None /\
  forall s,
    s ∈ (organizeEventsForGrid 0 (Some [wholeGridEvent; eventA]) november2026).(multiDayEvents) ->
    event s ≠ wholeGridEvent.
Proof.
  assert (Hs : startIndexOf 0 november2026 wholeGridEvent = None) by (vm_compute; reflexivity).
  assert (He : endIndexOf 0 november2026 wholeGridEvent = None) by (vm_compute; reflexivity).
  split; [exact Hs |]. split; [exact He |].
  exact (proj1 (unanchored_event_not_rendered 0 november2026
                  (Some [wholeGridEvent; eventA]) wholeGridEvent Hs He)).
Defined.

(** C2 as stated fails: the event covers every date of the grid, both its
    start and its end lie outside, and it is rendered in no grid row. *)
Lemma covering_event_gets_no_segment :
  isSpanning 0 wholeGridEvent = true /\
  startIndexOf 0 november2026 wholeGridEvent = None /\
  endIndexOf 0 november2026 wholeGridEvent = None /\
  coversGrid 0 november2026 wholeGridEvent = true /\
  (organizeEventsForGrid 0 (Some [wholeGridEvent]) november2026).(multiDayEvents) = [].
Proof. vm_compute. repeat split. Qed.

Lemma offgrid_single_day_omitted_witness :
  isSpanning 0 offGridEvent = false /\
  let out := organizeEventsForGrid 0 (Some [offGridEvent; eventA]) november2026 in
  (forall k bucket, out.(singleDayEvents) !! k = Some bucket ->
     k ∈ getDateKey <$> november2026 /\ offGridEvent ∉ bucket) /\
  (forall s, s ∈ out.(multiDayEvents) -> event s ≠ offGridEvent).
Proof.
  assert (Hs : isSpanning 0 offGridEvent = false) by (vm_compute; reflexivity).
  split; [exact Hs |].
  apply (offgrid_single_day_omitted 0 november2026); [exact Hs |].
  apply (bool_decide_unpack _). vm_compute. exact I.
Defined.

End Placement.

(** ** Classification and end dates *)

Module Classifier.
Import JSDate JSDateFacts Calendar GridBuilder Examples.

Local Open Scope Z_scope.

Lemma Day_range (t : Z) :
  representable t -> -100000000 <= Day t <= 100000000.
Proof.
  unfold representable, Day, maxTimeValue, msPerDay. intros H.
  Z.div_mod_to_equations. lia.
Qed.

Lemma MakeDay_civil (d : Z) :
  MakeDay (YearFromDay d) (MonthFromDay d) (DateFromDay d) = d.
Proof.
  rewrite MakeDay_same_month by apply MonthFromDay_range.
  apply civil_roundtrip.
Qed.

Lemma YearFromDay_range (d : Z) :
  -100000000 <= d <= 100000000 -> -271821 <= YearFromDay d <= 275760.
Proof.
  intros Hd. pose proof (YearFromDay_spec d) as Hs.
  destruct (Z.le_gt_cases (-271821) (YearFromDay d)) as [Hlo | Hlo].
  - split; [exact Hlo |].
    destruct (Z.le_gt_cases (YearFromDay d) 275760) as [? | Hhi]; [done |].
    assert (DayFromYear 275761 <= DayFromYear (YearFromDay d)).
    { destruct (Z.eq_dec 275761 (YearFromDay d)) as [<- | ?]; [lia |].
      apply Z.lt_le_incl, DayFromYear_lt. lia. }
    assert (DayFromYear 275761 = 100000110) by reflexivity. lia.
  - assert (DayFromYear (YearFromDay d + 1) <= DayFromYear (-271821)).
    { destruct (Z.eq_dec (YearFromDay d + 1) (-271821)) as [-> | ?]; [lia |].
      apply Z.lt_le_incl, DayFromYear_lt. lia. }
    assert (DayFromYear (-271821) = -100000109) by reflexivity. lia.
Qed.

(** Rebuilding a date from its own year, month and day of the month gives
    a valid date: the midnight of that day, unless the year has two
    digits. *)
Lemma newDate_of_getters (t : Z) :
  representable t ->
  exists t',
    newDate (getFullYear (ValidDate t)) (getMonth (ValidDate t)) (getDate (ValidDate t))
    = ValidDate (t' * msPerDay) /\
    (fullYear t -> t' = Day t).
Proof.
  intros Hr. pose proof (Day_range t Hr) as Hd.
  change (getFullYear (ValidDate t)) with (Some (YearFromDay (Day t))).
  change (getMonth (ValidDate t)) with (Some (MonthFromDay (Day t))).
  change (getDate (ValidDate t)) with (Some (DateFromDay (Day t))).
  set (d := Day t) in *.
  pose proof (MonthFromDay_range d) as Hm.
  pose proof (DateFromDay_range d) as Hdt.
  pose proof (daysInMonthTable_range (YearFromDay d) (MonthFromDay d)) as Hn.
  destruct ((0 <=? YearFromDay d) && (YearFromDay d <=? 99)) eqn:Hq.
  - pose proof Hq as [H0 H99]%andb_true_iff. apply Z.leb_le in H0, H99.
    exists (MakeDay (1900 + YearFromDay d) (MonthFromDay d) (DateFromDay d)).
    split; [| unfold fullYear; fold d; lia].
    unfold newDate. rewrite Hq.
    rewrite MakeDay_same_month by lia.
    pose proof (DayFromMonth_bounds (1900 + YearFromDay d) (MonthFromDay d)
                  ltac:(lia) ltac:(lia)).
    unfold TimeClip, MakeDate, maxTimeValue, msPerDay.
    rewrite Z.add_0_r.
    destruct (Z.leb_spec (Z.abs ((DayFromMonth (1900 + YearFromDay d) (MonthFromDay d)
                                   + DateFromDay d - 1) * 86400000)) 8640000000000000);
      [reflexivity | lia].
  - exists d. split; [| intros _; reflexivity].
    unfold newDate. rewrite Hq, MakeDay_civil.
    unfold TimeClip, MakeDate, maxTimeValue, msPerDay. rewrite Z.add_0_r.
    destruct (Z.leb_spec (Z.abs (d * 86400000)) 8640000000000000); [reflexivity | lia].
Qed.

(** C8: for an event whose start and end are valid dates (parsed, or
    missing and taken to be now), the duration is a number and at least
    1; when the end lies before the start it is clamped to exactly 1. *)
Theorem duration_at_least_one (now : Z) (e : Event) (ts te : Z) :
  parseEventDate now e.(start) = ValidDate ts ->
  parseEventDate now e.(end_) = ValidDate te ->
  representable ts -> representable te ->
  exists n, getEventDurationDays now e = Some n /\ 1 <= n /\
    isMultiDayEvent now e = (1 <? n) /\
    (te < ts -> fullYear ts -> fullYear te -> n = 1).
Proof.
  intros Hs He Hrs Hre.
  destruct (newDate_of_getters ts Hrs) as (ds & Hds & Hfs).
  destruct (newDate_of_getters te Hre) as (de & Hde & Hfe).
  assert (Hdur : getEventDurationDays now e =
                 if all_day e && (0 <? de - ds) then Some (de - ds)
                 else Some (Z.max 1 (de - ds))).
  { unfold getEventDurationDays. rewrite Hs, He, Hds, Hde.
    unfold dateDiff, numGt, mathMax. cbn [fmap option_fmap option_map from_option].
    replace ((de * msPerDay - ds * msPerDay) / msPerDay) with (de - ds).
    - reflexivity.
    - rewrite <- Z.mul_sub_distr_r. unfold msPerDay. rewrite Z.div_mul by lia.
      reflexivity. }
  unfold isMultiDayEvent. rewrite Hdur. clear Hdur Hds Hde Hs He.
  assert (Hday : te < ts -> Day te <= Day ts).
  { unfold Day, msPerDay. intros. Z.div_mod_to_equations. lia. }
  destruct (all_day e && (0 <? de - ds)) eqn:Hc.
  - apply andb_true_iff in Hc as [_ Hpos]. apply Z.ltb_lt in Hpos.
    exists (de - ds).
    split; [reflexivity |]. split; [lia |]. split; [reflexivity |].
    intros Hlt Hys Hye. specialize (Hfs Hys). specialize (Hfe Hye).
    specialize (Hday Hlt). lia.
  - exists (Z.max 1 (de - ds)).
    split; [reflexivity |]. split; [lia |]. split; [reflexivity |].
    intros Hlt Hys Hye. specialize (Hfs Hys). specialize (Hfe Hye).
    specialize (Hday Hlt). lia.
Qed.

(** An event that ends two days before it starts. *)
Lemma duration_at_least_one_witness :
  exists n,
    getEventDurationDays 0
      (timedEvent "Backwards" (localTime 2026 10 5 9) (localTime 2026 10 3 9)) = Some n
    /\ 1 <= n.
Proof.
  destruct (duration_at_least_one 0
              (timedEvent "Backwards" (localTime 2026 10 5 9) (localTime 2026 10 3 9))
              (MakeDay 2026 10 5 * msPerDay + 9 * msPerHour)
              (MakeDay 2026 10 3 * msPerDay + 9 * msPerHour))
    as (n & Hn & Hge & _).
  - reflexivity.
  - reflexivity.
  - vm_compute. discriminate.
  - vm_compute. discriminate.
  - exists n. split; [exact Hn | exact Hge].
Defined.

Lemma setDate_previous_day (t : Z) :
  representable (t - msPerDay) ->
  setDate (ValidDate t) (numSub (getDate (ValidDate t)) (Some 1))
  = ValidDate (t - msPerDay).
Proof.
  intros Hr. unfold setDate, getDate, numSub, compose. simpl.
  unfold MakeDay.
  pose proof (MonthFromDay_range (Day t)) as Hm.
  rewrite Z.div_small, Z.mod_small, Z.add_0_r by lia.
  replace (DayFromMonth (YearFromDay (Day t)) (MonthFromDay (Day t))
           + (DateFromDay (Day t) - 1) - 1) with (Day t - 1)
    by (pose proof (civil_roundtrip (Day t)); lia).
  replace (MakeDate (Day t - 1) (TimeWithinDay t)) with (t - msPerDay).
  - unfold TimeClip. unfold representable in Hr.
    destruct (Z.leb_spec (Z.abs (t - msPerDay)) maxTimeValue); [reflexivity | lia].
  - unfold MakeDate, Day, TimeWithinDay, msPerDay. Z.div_mod_to_equations. lia.
Qed.

Lemma getDateKey_day (t : Z) :
  getDateKey (ValidDate t) = getDateKey (ValidDate (Day t * msPerDay)).
Proof.
  unfold getDateKey, getFullYear, getMonth, getDate, compose.
  cbn [timeValue fmap option_fmap option_map].
  rewrite Day_of_midnight. reflexivity.
Qed.

(** C5: a timed event whose end has hours, minutes and seconds zero is
    placed as ending on the calendar day before, the same time of day one
    day earlier; the end of an all-day event is taken as it is. *)
Theorem midnight_end_is_previous_day (now : Z) (gridDates : list Date) (e : Event) :
  (e.(all_day) = true -> adjustedEndDate now e = parseEventDate now e.(end_)) /\
  (forall t,
     e.(all_day) = false ->
     parseEventDate now e.(end_) = ValidDate t ->
     getHours (ValidDate t) = Some 0 ->
     getMinutes (ValidDate t) = Some 0 ->
     getSeconds (ValidDate t) = Some 0 ->
     representable (t - msPerDay) ->
     adjustedEndDate now e = ValidDate (t - msPerDay) /\
     Day (t - msPerDay) = Day t - 1 /\
     getDateKey (adjustedEndDate now e) = getDateKey (ValidDate ((Day t - 1) * msPerDay)) /\
     endIndexOf now gridDates e
     = indexDates gridDates !! getDateKey (ValidDate ((Day t - 1) * msPerDay))).
Proof.
  split.
  - intros Ha. unfold adjustedEndDate. rewrite Ha. reflexivity.
  - intros t Ha He Hh Hm Hs Hr.
    assert (Hadj : adjustedEndDate now e = ValidDate (t - msPerDay)).
    { unfold adjustedEndDate. rewrite Ha, He, Hh, Hm, Hs.
      cbn [negb andb numEq from_option Z.eqb].
      apply setDate_previous_day, Hr. }
    assert (Hday : Day (t - msPerDay) = Day t - 1).
    { unfold Day, msPerDay. Z.div_mod_to_equations. lia. }
    assert (Hkey : getDateKey (adjustedEndDate now e)
                   = getDateKey (ValidDate ((Day t - 1) * msPerDay))).
    { rewrite Hadj, getDateKey_day, Hday. reflexivity. }
    split; [exact Hadj |]. split; [exact Hday |]. split; [exact Hkey |].
    unfold endIndexOf. rewrite Hkey. reflexivity.
Qed.

(** The trip ends at 00:00 on Thursday 12 November 2026 and is placed as
    ending on Wednesday 11. *)
Lemma midnight_end_is_previous_day_witness :
  let t := MakeDay 2026 10 12 * msPerDay in
  adjustedEndDate 0 untilMidnightEvent = ValidDate (t - msPerDay) /\
  Day (t - msPerDay) = Day t - 1 /\
  getDateKey (adjustedEndDate 0 untilMidnightEvent)
  = getDateKey (ValidDate ((Day t - 1) * msPerDay)) /\
  endIndexOf 0 november2026 untilMidnightEvent
  = indexDates november2026 !! getDateKey (ValidDate ((Day t - 1) * msPerDay)).
Proof.
  apply (proj2 (midnight_end_is_previous_day 0 november2026 untilMidnightEvent)).
  - reflexivity.
  - reflexivity.
  - reflexivity.
  - reflexivity.
  - reflexivity.
  - vm_compute. discriminate.
Defined.

(** C9, at an input on which the code departs from it: a start string
    that does not parse is not taken to be now but stays an invalid date;
    the duration is NaN, and the event reaches neither a bucket nor the
    segment list.  A missing date is taken to be now. *)
Theorem unparseable_date_is_not_now (now : Z) :
  parseEventDate now NoDate = ValidDate now /\
  parseEventDate now (DateString InvalidDate) = InvalidDate /\
  parseEventDate now (DateString InvalidDate) ≠ ValidDate now /\
  getEventDurationDays now unparseableEvent = None /\
  getDateKey (parseEventDate now unparseableEvent.(start)) = "NaN-NaN-NaN" /\
  let out := organizeEventsForGrid 0 (Some [unparseableEvent]) november2026 in
  out.(multiDayEvents) = [] /\
  map_Forall (λ _ bucket, bucket = []) out.(singleDayEvents).
Proof.
  split; [reflexivity |]. split; [reflexivity |]. split; [discriminate |].
  split; [vm_compute; reflexivity |]. split; [vm_compute; reflexivity |].
  split; [vm_compute; reflexivity |].
  apply (bool_decide_unpack _). vm_compute. exact I.
Qed.

End Classifier.

(** ** Overflow *)

Module Overflow.
Import JSDate Calendar Examples.

Local Open Scope Z_scope.

(** *** Floors of pixel quantities *)

Lemma Qfloor_unique (x : Q) (z : Z) :
  (inject_Z z <= x)%Q -> (x < inject_Z (z + 1))%Q -> Qfloor x = z.
Proof.
  intros Hle Hlt.
  assert (z <= Qfloor x).
  { rewrite <- (Qfloor_Z z). now apply Qfloor_resp_le. }
  assert (Qfloor x < z + 1).
  { rewrite Zlt_Qlt. eapply Qle_lt_trans; [apply Qfloor_le | exact Hlt]. }
  lia.
Qed.

(** Dividing by a whole number of pixels and rounding down only looks at
    the whole part of the height. *)
Lemma Qfloor_sub_div (a x : Q) (c k : Z) :
  0 < k -> (x == inject_Z c)%Q ->
  Qfloor ((a - x) / inject_Z k) = (Qfloor a - c) / k.
Proof.
  intros Hk Hx.
  assert (HkQ : (0 < inject_Z k)%Q).
  { change 0%Q with (inject_Z 0). rewrite <- Zlt_Qlt. lia. }
  pose proof (Qfloor_le a) as Hlo. pose proof (Qlt_floor a) as Hhi.
  set (n := Qfloor a) in *. set (q := (n - c) / k).
  assert (Hq1 : q * k + c <= n) by (subst q; Z.div_mod_to_equations; nia).
  assert (Hq2 : n + 1 <= (q + 1) * k + c) by (subst q; Z.div_mod_to_equations; nia).
  rewrite Zle_Qle in Hq1, Hq2.
  repeat first [rewrite inject_Z_plus in Hq1 | rewrite inject_Z_mult in Hq1].
  repeat first [rewrite inject_Z_plus in Hq2 | rewrite inject_Z_mult in Hq2].
  rewrite inject_Z_plus in Hhi. change (inject_Z 1) with 1%Q in *.
  apply Qfloor_unique.
  - apply Qle_shift_div_l; [exact HkQ |]. rewrite Hx. lra.
  - apply Qlt_shift_div_r; [exact HkQ |]. rewrite Hx, inject_Z_plus.
    change (inject_Z 1) with 1%Q. lra.
Qed.

Lemma Qle_bool_floor (z : Z) (x a : Q) :
  (x == inject_Z z)%Q -> Qle_bool x a = (z <=? Qfloor a).
Proof.
  intros Hx. apply eq_true_iff_eq.
  rewrite Qle_bool_iff, Z.leb_le, Hx. split.
  - intros H. rewrite <- (Qfloor_Z z). now apply Qfloor_resp_le.
  - intros H. rewrite Zle_Qle in H. eapply Qle_trans; [exact H | apply Qfloor_le].
Qed.

Lemma cellLimit_floor (a : Q) (total timed : Z) :
  cellLimit a total timed = cellLimitZ (Qfloor a) total timed.
Proof.
  unfold cellLimit, cellLimitZ.
  rewrite (Qle_bool_floor (total * 22 + timed * 18)).
  2:{ unfold eventRowHeightPx, timedEventHeightPx.
      rewrite inject_Z_plus, !inject_Z_mult. reflexivity. }
  destruct (_ <=? _); [reflexivity |].
  do 2 f_equal.
  change eventRowHeightPx with (inject_Z 22).
  rewrite <- (Qfloor_sub_div a
                (moreIndicatorHeightPx
                 + (if 0 <? timed then timedEventHeightPx else 0))%Q
                (18 + (if 0 <? timed then 18 else 0)) 22); [| lia |].
  - apply Qfloor_comp. field.
  - unfold moreIndicatorHeightPx, timedEventHeightPx.
    destruct (0 <? timed); reflexivity.
Qed.

Lemma visibleTimed_floor (a : Q) (total timed : Z) :
  (cellOverflow a total timed).(visibleTimed) = visibleTimedZ (Qfloor a) total timed.
Proof.
  unfold cellOverflow, visibleTimedZ. cbn [visibleTimed]. rewrite cellLimit_floor.
  set (shown := cellLimitZ (Qfloor a) total timed).
  do 2 f_equal.
  change timedEventHeightPx with (inject_Z 18).
  rewrite <- (Qfloor_sub_div a
                (inject_Z shown * eventRowHeightPx
                 + (if shown <? total then moreIndicatorHeightPx else 0)%Q)
                (shown * 22 + (if shown <? total then 18 else 0)) 18); [| lia |].
  - apply Qfloor_comp. field.
  - rewrite inject_Z_plus, inject_Z_mult.
    unfold eventRowHeightPx, moreIndicatorHeightPx.
    destruct (shown <? total); reflexivity.
Qed.

Ltac split_tests :=
  repeat match goal with
         | |- context [?a <=? ?b] => destruct (Z.leb_spec a b)
         | |- context [?a <? ?b] => destruct (Z.ltb_spec a b)
         end.

Lemma cellLimitZ_mono (a1 a2 total timed : Z) :
  a1 <= a2 -> 0 <= total -> 0 <= timed ->
  cellLimitZ a1 total timed <= cellLimitZ a2 total timed.
Proof.
  intros Ha Hs Ht. unfold cellLimitZ. split_tests;
    try (Z.div_mod_to_equations; lia).
Qed.

Lemma shownZ_mono (a1 a2 total timed : Z) :
  a1 <= a2 -> 0 <= total -> 0 <= timed ->
  cellLimitZ a1 total timed + visibleTimedZ a1 total timed
  <= cellLimitZ a2 total timed + visibleTimedZ a2 total timed.
Proof.
  intros Ha Hs Ht. unfold visibleTimedZ.
  pose proof (cellLimitZ_mono a1 a2 total timed Ha Hs Ht) as Hm.
  assert (H1 : cellLimitZ a1 total timed = total /\ total * 22 + timed * 18 <= a1 \/
               a1 < total * 22 + timed * 18 /\
               cellLimitZ a1 total timed
               = Z.min (Z.max 1 ((a1 - (18 + (if 0 <? timed then 18 else 0))) / 22)) total).
  { unfold cellLimitZ. destruct (Z.leb_spec (total * 22 + timed * 18) a1); auto. }
  assert (H2 : cellLimitZ a2 total timed = total /\ total * 22 + timed * 18 <= a2 \/
               a2 < total * 22 + timed * 18 /\
               cellLimitZ a2 total timed
               = Z.min (Z.max 1 ((a2 - (18 + (if 0 <? timed then 18 else 0))) / 22)) total).
  { unfold cellLimitZ. destruct (Z.leb_spec (total * 22 + timed * 18) a2); auto. }
  set (m1 := cellLimitZ a1 total timed) in *.
  set (m2 := cellLimitZ a2 total timed) in *.
  clearbody m1 m2.
  destruct H1 as [[-> Hf1] | [Hn1 ->]], H2 as [[-> Hf2] | [Hn2 ->]];
    split_tests; Z.div_mod_to_equations; lia.
Qed.

Lemma cellOverflow_floor (a : Q) (total timed : Z) :
  cellOverflow a total timed =
  let shown := cellLimitZ (Qfloor a) total timed in
  let markers := visibleTimedZ (Qfloor a) total timed in
  let hidden := Z.max 0 (total - shown) + Z.max 0 (timed - markers) in
  {| maxVisibleSpanning := shown; visibleTimed := markers;
     totalHidden := hidden; moreShown := 0 <? hidden |}.
Proof.
  pose proof (visibleTimed_floor a total timed) as Hv.
  unfold cellOverflow in *. cbn [visibleTimed] in Hv.
  cbv zeta. rewrite Hv, cellLimit_floor. reflexivity.
Qed.

Lemma shownCount_mono (a1 a2 : Q) (total timed : Z) :
  (a1 <= a2)%Q -> 0 <= total -> 0 <= timed ->
  shownCount (cellOverflow a1 total timed) <= shownCount (cellOverflow a2 total timed)
  /\ cellLimit a1 total timed <= cellLimit a2 total timed.
Proof.
  intros Ha Hs Ht. apply Qfloor_resp_le in Ha.
  rewrite !cellOverflow_floor, !cellLimit_floor. unfold shownCount. simpl.
  split; [now apply shownZ_mono | now apply cellLimitZ_mono].
Qed.

(** *** The cells of a grid *)

Lemma foldl_insert_index {A B} (f : A -> B) (l : list A) (i : nat) :
  foldl (λ (m : gmap nat B) p, <[p.1 := f p.2]> m) ∅ (imap pair l) !! i
  = f <$> l !! i.
Proof.
  induction l as [| x l IH] using rev_ind; [reflexivity |].
  rewrite imap_app, foldl_app. simpl. rewrite Nat.add_0_r.
  destruct (decide (length l = i)) as [<- | Hne].
  - rewrite lookup_insert_eq, lookup_app_r, Nat.sub_diag by done. reflexivity.
  - rewrite lookup_insert_ne, IH by done.
    destruct (decide (i < length l)%nat).
    + now rewrite lookup_app_l.
    + rewrite !lookup_ge_None_2; [done | rewrite length_app; simpl; lia | lia].
Qed.

Section grid.
Context (gridDates : list Date) (layout : Organized) (counts : gmap nat nat).

Lemma resizeCells_lookup (h : Q) (index : nat) (o : CellOverflow) :
  resizeCells gridDates layout counts h !! index = Some o <->
  exists date, gridDates !! index = Some date /\
    o = cellOverflow (availableHeight h) (totalSpanningInCell counts index)
          (Z.of_nat (length (dayTimedEvents layout date))).
Proof. unfold resizeCells. rewrite list_lookup_imap, fmap_Some. naive_solver. Qed.

Lemma cellLimits_lookup (h : Q) (index : nat) :
  cellLimits gridDates layout counts h !! index
  = maxVisibleSpanning <$> resizeCells gridDates layout counts h !! index.
Proof. unfold cellLimits. apply foldl_insert_index. Qed.

(** C7: for a fixed layout, a lower cell height never shows more in any
    cell: neither more lanes, nor more lanes and timed markers together,
    nor a bar that the greater height hides. *)
Theorem overflow_monotone (h1 h2 : Q) :
  (h1 <= h2)%Q ->
  (forall index o1 o2,
     resizeCells gridDates layout counts h1 !! index = Some o1 ->
     resizeCells gridDates layout counts h2 !! index = Some o2 ->
     shownCount o1 <= shownCount o2 /\
     o1.(maxVisibleSpanning) <= o2.(maxVisibleSpanning)) /\
  (forall s,
     shouldBeVisible gridDates layout counts h1 s = true ->
     shouldBeVisible gridDates layout counts h2 s = true).
Proof.
  intros Hh.
  assert (Ha : (availableHeight h1 <= availableHeight h2)%Q).
  { unfold availableHeight. lra. }
  assert (Hcell : forall index o1 o2,
            resizeCells gridDates layout counts h1 !! index = Some o1 ->
            resizeCells gridDates layout counts h2 !! index = Some o2 ->
            shownCount o1 <= shownCount o2 /\
            o1.(maxVisibleSpanning) <= o2.(maxVisibleSpanning)).
  { intros index o1 o2 (d1 & Hd1 & ->)%resizeCells_lookup
           (d2 & Hd2 & ->)%resizeCells_lookup.
    rewrite Hd1 in Hd2. injection Hd2 as <-.
    apply shownCount_mono; [exact Ha | unfold totalSpanningInCell; lia | lia]. }
  split; [exact Hcell |].
  intros s. unfold shouldBeVisible. rewrite !existsb_exists.
  intros (col & Hcol & Hlt). exists col. split; [exact Hcol |].
  rewrite Z.ltb_lt in *. rewrite cellLimits_lookup in *.
  destruct (resizeCells gridDates layout counts h1 !! _) as [o1 |] eqn:H1;
    simpl in Hlt; [| lia].
  pose proof H1 as (d & Hd & _)%resizeCells_lookup.
  destruct (resizeCells gridDates layout counts h2 !! _) as [o2 |] eqn:H2.
  - simpl. destruct (Hcell _ _ _ H1 H2). lia.
  - exfalso. apply eq_None_not_Some in H2. apply H2.
    eexists. apply resizeCells_lookup. eauto.
Qed.
End grid.

(** C3, as the code has it: when the cell has no room left (the available
    height is zero or negative) one lane is still shown if the cell has
    any, no timed marker is shown, and everything else counts as hidden;
    the indicator is shown exactly when something is hidden. *)
Theorem overflow_without_room (availableHeight : Q) (total timed : Z) :
  (availableHeight <= 0)%Q -> 0 <= total -> 0 <= timed ->
  let o := cellOverflow availableHeight total timed in
  o.(maxVisibleSpanning) = Z.min 1 total /\
  o.(visibleTimed) = 0 /\
  o.(totalHidden) = total - Z.min 1 total + timed /\
  o.(moreShown) = (0 <? total - Z.min 1 total + timed).
Proof.
  intros Ha Hs Ht. apply Qfloor_resp_le in Ha. change (Qfloor 0) with 0 in Ha.
  rewrite cellOverflow_floor. cbv zeta. cbn [maxVisibleSpanning visibleTimed totalHidden moreShown].
  set (a := Qfloor availableHeight) in *. clearbody a.
  assert (Hm : cellLimitZ a total timed = Z.min 1 total).
  { unfold cellLimitZ. split_tests; Z.div_mod_to_equations; lia. }
  assert (Hv : visibleTimedZ a total timed = 0).
  { unfold visibleTimedZ. rewrite Hm. split_tests; Z.div_mod_to_equations; lia. }
  rewrite Hm, Hv.
  replace (Z.max 0 (total - Z.min 1 total) + Z.max 0 (timed - 0))
    with (total - Z.min 1 total + timed) by lia.
  done.
Qed.

(** With no room and three lanes in the cell: one lane shown, two hidden. *)
Lemma overflow_without_room_witness :
  let o := cellOverflow 0 3 0 in
  o.(maxVisibleSpanning) = Z.min 1 3 /\
  o.(visibleTimed) = 0 /\
  o.(totalHidden) = 3 - Z.min 1 3 + 0 /\
  o.(moreShown) = (0 <? 3 - Z.min 1 3 + 0).
Proof.
  apply (overflow_without_room 0 3 0); [discriminate | lia | lia].
Defined.

(** C3 as stated fails: with no room at all and three lanes, the cell
    does not show zero lanes and report three hidden. *)
Lemma zero_budget_shows_a_lane :
  let o := cellOverflow 0 3 0 in
  o.(maxVisibleSpanning) = 1 /\ o.(totalHidden) = 2 /\ o.(moreShown) = true /\
  ¬ (o.(maxVisibleSpanning) = 0 /\ o.(totalHidden) = 3).
Proof.
  vm_compute. repeat split; try reflexivity. intros [H _]. discriminate H.
Qed.

(** The sample layout at cell heights of 40px and 100px. *)
Lemma overflow_monotone_witness :
  let counts := calculateDisplayRows stackedLayout.(multiDayEvents) november2026 in
  (40 <= 100)%Q /\
  (forall index o1 o2,
     resizeCells november2026 stackedLayout counts 40 !! index = Some o1 ->
     resizeCells november2026 stackedLayout counts 100 !! index = Some o2 ->
     shownCount o1 <= shownCount o2 /\
     o1.(maxVisibleSpanning) <= o2.(maxVisibleSpanning)) /\
  (forall s,
     shouldBeVisible november2026 stackedLayout counts 40 s = true ->
     shouldBeVisible november2026 stackedLayout counts 100 s = true).
Proof.
  assert (H : (40 <= 100)%Q) by discriminate.
  split; [exact H |].
  exact (overflow_monotone november2026 stackedLayout _ 40 100 H).
Defined.

End Overflow.

(** ** Vertical placement of the bars *)

Module Display.
Import JSDate Calendar LaneAssigner Examples.

Local Open Scope Q_scope.

Lemma natQ_lt (a b : nat) : (a < b)%nat <-> natQ a < natQ b.
Proof. unfold natQ. rewrite <- Zlt_Qlt. lia. Qed.

(** *** The compacted rows of a week *)

Lemma uniqueValues_spec (l : list nat) :
  NoDup (uniqueValues l) /\ forall x, x ∈ uniqueValues l <-> x ∈ l.
Proof.
  unfold uniqueValues.
  assert (H : forall acc, NoDup acc ->
            let r := foldl (λ acc r, if decide (r ∈ acc) then acc else acc ++ [r]) acc l in
            NoDup r /\ forall x, x ∈ r <-> x ∈ acc \/ x ∈ l).
  { induction l as [| y l IH]; intros acc Hacc; cbn [foldl].
    - split; [exact Hacc |]. intros x. rewrite elem_of_nil. tauto.
    - destruct (decide (y ∈ acc)) as [Hin | Hout].
      + destruct (IH acc Hacc) as [Hnd Hel]. split; [exact Hnd |].
        intros x. rewrite Hel, elem_of_cons. split; [tauto |].
        intros [? | [-> | ?]]; auto.
      + destruct (IH (acc ++ [y])) as [Hnd Hel].
        { apply NoDup_app. split; [exact Hacc |]. split; [| apply NoDup_singleton].
          intros x Hx ->%list_elem_of_singleton. contradiction. }
        split; [exact Hnd |].
        intros x. rewrite Hel, elem_of_app, list_elem_of_singleton, elem_of_cons. tauto. }
  destruct (H [] (NoDup_nil_2)) as [Hnd Hel]. split; [exact Hnd |].
  intros x. rewrite Hel, elem_of_nil. tauto.
Qed.

Lemma sorted_le_NoDup_lt (l : list nat) :
  StronglySorted le l -> NoDup l -> StronglySorted lt l.
Proof.
  induction l as [| x l IH]; intros Hs Hnd; [constructor |].
  apply StronglySorted_inv in Hs as [Hl Hx].
  apply NoDup_cons in Hnd as [Hout Hnd].
  constructor; [auto |].
  rewrite Forall_forall in *. intros y Hy. specialize (Hx y Hy).
  assert (x ≠ y) by (intros ->; contradiction). lia.
Qed.

(** The lanes of a week, each once, in ascending order. *)
Lemma uniqueEventRows_spec (week : list Segment) :
  StronglySorted lt (uniqueEventRows week) /\
  forall r, r ∈ uniqueEventRows week <-> exists s, s ∈ week /\ eventRow s = r.
Proof.
  unfold uniqueEventRows.
  destruct (uniqueValues_spec (eventRow <$> week)) as [Hnd Hel].
  pose proof (jsSort_perm (λ a b, (b <? a)%nat) (uniqueValues (eventRow <$> week))) as Hp.
  split.
  - apply sorted_le_NoDup_lt; [| now rewrite Hp].
    apply jsSort_sorted.
    + intros a b ?%Nat.ltb_lt. lia.
    + intros a b c ?%Nat.ltb_lt ?. lia.
    + intros a b ?%Nat.ltb_ge. lia.
  - intros r. rewrite Hp, Hel, list_elem_of_fmap.
    split; intros (x & H1 & H2); exists x; auto.
Qed.

Lemma foldl_insert_value (l : list nat) (x i : nat) :
  NoDup l ->
  foldl (λ (m : gmap nat nat) p, <[p.2 := p.1]> m) ∅ (imap pair l) !! x = Some i
  <-> l !! i = Some x.
Proof.
  revert i. induction l as [| y l IH] using rev_ind; intros i Hnd.
  - simpl. rewrite lookup_empty. split; discriminate.
  - apply NoDup_app in Hnd as (Hnd & Hy & _).
    rewrite imap_app, foldl_app. cbn [imap foldl]. rewrite Nat.add_0_r. cbn [fst snd].
    destruct (decide (y = x)) as [-> | Hne].
    + rewrite lookup_insert_eq. split.
      * intros [= <-]. rewrite lookup_app_r, Nat.sub_diag by done. reflexivity.
      * intros Hi. pose proof (lookup_lt_Some _ _ _ Hi) as Hlt.
        rewrite length_app in Hlt. simpl in Hlt.
        apply lookup_app_Some in Hi as [Hl | [Hlen _]].
        -- exfalso. apply (Hy x); [eapply list_elem_of_lookup_2; eauto |].
           apply list_elem_of_singleton. reflexivity.
        -- f_equal. lia.
    + rewrite lookup_insert_ne, IH by done. split.
      * intros Hl. now apply lookup_app_l_Some.
      * intros [Hl | [_ Hl]]%lookup_app_Some; [done |].
        apply list_lookup_singleton_Some in Hl as [_ ?]. congruence.
Qed.

(** The compacted row of a segment is the position of its lane among
    the lanes of its week in ascending order. *)
Lemma displayRowOf_position (week : list Segment) (s : Segment) :
  s ∈ week -> uniqueEventRows week !! displayRowOf week s = Some s.(eventRow).
Proof.
  intros Hs. destruct (uniqueEventRows_spec week) as [Hsorted Hel].
  assert (Hin : eventRow s ∈ uniqueEventRows week) by (apply Hel; eauto).
  apply list_elem_of_lookup in Hin as [i Hi].
  assert (Hnd : NoDup (uniqueEventRows week)).
  { clear -Hsorted. induction Hsorted as [| x l _ IH Hx]; constructor; [| done].
    rewrite Forall_forall in Hx. intros Hin. specialize (Hx x Hin). lia. }
  unfold displayRowOf, eventRowToDisplayRow.
  rewrite (proj2 (foldl_insert_value _ _ i Hnd) Hi). exact Hi.
Qed.

(** C4, as the code has it: a bar is drawn below the top of its grid row
    by the day-number offset plus 22px per global lane; two bars of one
    row are 22px apart per lane of difference, in lane order, whatever
    lanes the row uses.  The compacted row of a bar, the position of its
    lane among the lanes of its week in ascending order, only serves to
    give the cells their count of display rows: in the sample layout the
    third week uses lanes 0 and 3, its compacted rows are 0 and 1 and its
    cells count 2 rows. *)
Theorem spanning_top_global_lane (s1 s2 : Segment) (cellWidth cellHeightPx : Q) :
  let top1 := (createSpanningEvent s1 cellWidth cellHeightPx).(top) in
  let top2 := (createSpanningEvent s2 cellWidth cellHeightPx).(top) in
  top1 == natQ s1.(gridRow) * cellHeightPx + 26 + 22 * natQ s1.(eventRow) /\
  (s1.(gridRow) = s2.(gridRow) ->
     top2 - top1 == 22 * (natQ s2.(eventRow) - natQ s1.(eventRow)) /\
     ((s1.(eventRow) < s2.(eventRow))%nat <-> top1 < top2)) /\
  (forall week, s1 ∈ week ->
     StronglySorted lt (uniqueEventRows week) /\
     uniqueEventRows week !! displayRowOf week s1 = Some s1.(eventRow)) /\
  let week := filter (λ s, s.(gridRow) = 2%nat) stackedLayout.(multiDayEvents) in
  eventRow <$> week = [0%nat; 3%nat] /\
  displayRowOf week <$> week = [0%nat; 1%nat] /\
  calculateDisplayRows stackedLayout.(multiDayEvents) november2026 !! 14%nat = Some 2%nat.
Proof.
  cbv zeta. unfold createSpanningEvent. cbn [top].
  unfold dayNumberOffsetPx, eventRowHeightPx.
  split; [ring |]. split; [| split].
  - intros Hrow. rewrite Hrow. split; [ring |].
    rewrite natQ_lt. split; intros H; lra.
  - intros week Hin.
    split; [apply uniqueEventRows_spec | now apply displayRowOf_position].
  - vm_compute. repeat split.
Qed.

(** Lanes 0 and 3 of the third week are three lane heights apart. *)
Lemma spanning_top_global_lane_witness :
  exists s1 s2,
    filter (λ s, s.(gridRow) = 2%nat) stackedLayout.(multiDayEvents) = [s1; s2] /\
    (createSpanningEvent s2 (100 / 7) 100).(top)
    - (createSpanningEvent s1 (100 / 7) 100).(top)
    == 22 * (natQ s2.(eventRow) - natQ s1.(eventRow)).
Proof.
  eexists _, _. split; [vm_compute; reflexivity |].
  refine (proj1 (proj1 (proj2 (spanning_top_global_lane _ _ (100 / 7) 100)) _)).
  reflexivity.
Defined.

(** C4 as stated fails: the bar on lane 3 of the third week has compacted
    row 1 but is drawn three lane heights below the day number, not one. *)
Lemma compacted_row_not_used_for_top :
  let week := filter (λ s, s.(gridRow) = 2%nat) stackedLayout.(multiDayEvents) in
  exists s,
    week !! 1%nat = Some s /\
    s.(eventRow) = 3%nat /\ displayRowOf week s = 1%nat /\
    (createSpanningEvent s (100 / 7) 100).(top) == 2 * 100 + 26 + 3 * 22 /\
    ¬ (createSpanningEvent s (100 / 7) 100).(top)
      == 2 * 100 + 26 + natQ (displayRowOf week s) * 22.
Proof.
  eexists. split; [vm_compute; reflexivity |].
  split; [reflexivity |]. split; [vm_compute; reflexivity |].
  split; [vm_compute; reflexivity |]. vm_compute. discriminate.
Qed.

End Display.

(** ** More on the overflow pass *)

Module OverflowAccounting.
Import JSDate Calendar Overflow.

Local Open Scope Z_scope.

(** X1: whatever the height, the limits the resize callback computes for
    a cell are consistent: the lane limit and the number of timed markers
    it allows never exceed what the cell has, the lane limit is at least
    one if the cell has a lane, the hidden count is what the limits leave
    out, and the indicator is displayed exactly when that count is
    positive; when everything fits, the limits allow everything. *)
Theorem overflow_accounting (availableHeight : Q) (total timed : Z) :
  0 <= total -> 0 <= timed ->
  let o := cellOverflow availableHeight total timed in
  Z.min 1 total <= o.(maxVisibleSpanning) <= total /\
  0 <= o.(visibleTimed) <= timed /\
  o.(totalHidden) = total + timed - shownCount o /\
  (o.(moreShown) = true <-> shownCount o < total + timed) /\
  ((inject_Z total * eventRowHeightPx + inject_Z timed * timedEventHeightPx
    <= availableHeight)%Q ->
   o.(maxVisibleSpanning) = total /\ o.(visibleTimed) = timed /\
   o.(moreShown) = false).
Proof.
  intros Hs Ht. rewrite cellOverflow_floor. cbv zeta. unfold shownCount.
  cbn [maxVisibleSpanning visibleTimed totalHidden moreShown].
  set (a := Qfloor availableHeight).
  assert (Hm : Z.min 1 total <= cellLimitZ a total timed <= total).
  { unfold cellLimitZ. split_tests; lia. }
  assert (Hv : 0 <= visibleTimedZ a total timed <= timed).
  { unfold visibleTimedZ. lia. }
  split; [exact Hm |]. split; [exact Hv |]. split; [lia |].
  split; [rewrite Z.ltb_lt; lia |].
  intros Hfit.
  assert (Hz : total * 22 + timed * 18 <= a).
  { apply Z.leb_le. unfold a.
    rewrite <- (Qle_bool_floor (total * 22 + timed * 18)
                  (inject_Z total * eventRowHeightPx + inject_Z timed * timedEventHeightPx)).
    - now apply Qle_bool_iff.
    - unfold eventRowHeightPx, timedEventHeightPx.
      rewrite inject_Z_plus, !inject_Z_mult. reflexivity. }
  assert (Hm' : cellLimitZ a total timed = total).
  { unfold cellLimitZ. destruct (Z.leb_spec (total * 22 + timed * 18) a); [reflexivity | lia]. }
  assert (Hv' : visibleTimedZ a total timed = timed).
  { unfold visibleTimedZ. rewrite Hm'. rewrite Z.ltb_irrefl.
    Z.div_mod_to_equations. lia. }
  rewrite Hm', Hv'. split; [reflexivity |]. split; [reflexivity |].
  apply Z.ltb_ge. lia.
Qed.

(** Two lanes and three timed markers in 60px. *)
Lemma overflow_accounting_witness :
  let o := cellOverflow 60 2 3 in
  Z.min 1 2 <= o.(maxVisibleSpanning) <= 2 /\
  0 <= o.(visibleTimed) <= 3 /\
  o.(totalHidden) = 2 + 3 - shownCount o.
Proof.
  destruct (overflow_accounting 60 2 3) as (H1 & H2 & H3 & _); [lia | lia |].
  exact (conj H1 (conj H2 H3)).
Defined.

End OverflowAccounting.

(** ** More on durations and days *)

Module DayFacts.
Import JSDate JSDateFacts Calendar GridBuilder Classifier Examples.

Local Open Scope Z_scope.




End DayFacts.

(** ** More on the grid of a month *)

Module GridFacts.
Import JSDate JSDateFacts Calendar GridBuilder Examples.

Local Open Scope Z_scope.

(** [new Date(year, ...)] takes a year from 0 to 99 for 1900 + year. *)
Lemma getDaysInMonth_two_digit_year (y m : Z) :
  0 <= y <= 99 -> getDaysInMonth y m = getDaysInMonth (1900 + y) m.
Proof.
  intros Hy. unfold getDaysInMonth, newDate.
  destruct (Z.leb_spec 0 y); [| lia]. destruct (Z.leb_spec y 99); [| lia].
  destruct (Z.leb_spec 0 (1900 + y)); [| lia].
  destruct (Z.leb_spec (1900 + y) 99); [lia |]. reflexivity.
Qed.

Lemma getDaysInMonth_lengths (y m : Z) :
  validYearMonth y m ->
  getDaysInMonth y m =
    Some (if m =? 1 then
            if (y mod 4 =? 0) && (negb (y mod 100 =? 0) || (y mod 400 =? 0))
            then 29 else 28
          else if (m =? 3) || (m =? 5) || (m =? 8) || (m =? 10) then 30
          else 31) /\
  getDaysInMonth y (-1) = Some 31.
Proof.
  intros Hv. pose proof Hv as (Hy & Hq & Hm). split.
  - rewrite (getDaysInMonth_table y m Hv). f_equal.
    unfold daysInMonthTable, monthLength, leapDays, InLeapYear.
    month_cases m; cbn [Z.eqb Pos.eqb orb]; try reflexivity.
    destruct (y mod 4 =? 0), (y mod 100 =? 0), (y mod 400 =? 0); reflexivity.
  - assert (Hv0 : validYearMonth y 0) by (unfold validYearMonth; lia).
    change (getDaysInMonth y (-1)) with (getDaysInMonth y (0 - 1)).
    rewrite (getDaysInPrevMonth_table y 0 Hv0). reflexivity.
Qed.

(** X3: for a year from -271820 to 275759, [getDaysInMonth] gives the
    length the month has in the Gregorian calendar in the year the [Date]
    constructor uses, which is the year itself, or 1900 + year for the
    years 0 to 99: 30 days for April, June, September and November, 28
    for February and 29 in leap years (every fourth year, the centuries
    not divisible by 400 apart), 31 otherwise; month -1 is the December
    before, with 31 days.  So February of the year 0 has the 28 days of
    February 1900. *)
Theorem getDaysInMonth_gregorian (y m : Z) :
  -271820 <= y <= 275759 -> 0 <= m <= 11 ->
  let yr := if (0 <=? y) && (y <=? 99) then 1900 + y else y in
  getDaysInMonth y m =
    Some (if m =? 1 then
            if (yr mod 4 =? 0) && (negb (yr mod 100 =? 0) || (yr mod 400 =? 0))
            then 29 else 28
          else if (m =? 3) || (m =? 5) || (m =? 8) || (m =? 10) then 30
          else 31) /\
  getDaysInMonth y (-1) = Some 31.
Proof.
  intros Hy Hm. cbv zeta.
  destruct (decide (0 <= y <= 99)) as [Hq | Hq].
  - assert (Hif : (0 <=? y) && (y <=? 99) = true).
    { apply andb_true_iff. split; apply Z.leb_le; apply Hq. }
    rewrite Hif, !(getDaysInMonth_two_digit_year y _ Hq).
    apply getDaysInMonth_lengths.
    clear Hif. unfold validYearMonth. lia.
  - assert (Hif : (0 <=? y) && (y <=? 99) = false).
    { apply andb_false_iff.
      destruct (Z.leb_spec 0 y); [right | left; reflexivity].
      apply Z.leb_gt. clear -Hq H. lia. }
    rewrite Hif. apply getDaysInMonth_lengths. split; [exact Hy | split; assumption].
Qed.

(** February of the year 0 has 28 days, February 2028 has 29. *)
Lemma getDaysInMonth_gregorian_witness :
  (getDaysInMonth 0 1 = Some 28 /\ getDaysInMonth 0 (-1) = Some 31) /\
  (getDaysInMonth 2028 1 = Some 29 /\ getDaysInMonth 2028 (-1) = Some 31).
Proof.
  split.
  - apply (getDaysInMonth_gregorian 0 1); lia.
  - apply (getDaysInMonth_gregorian 2028 1); lia.
Defined.

(** X4: the grid of a month has four, five or six whole weeks; it has
    four exactly when the month is a February of 28 days that starts on a
    Monday, and six when the month needs more than 35 cells. *)
Theorem grid_has_four_to_six_weeks (y m : Z) :
  validYearMonth y m ->
  exists f N,
    getFirstDayOfMonth y m = Some f /\ getDaysInMonth y m = Some N /\
    let n := length (buildGridDates y m) in
    (n = 28 \/ n = 35 \/ n = 42)%nat /\
    (numWeeks (buildGridDates y m) * 7 = n)%nat /\
    (n = 28%nat <-> f = 0 /\ N = 28) /\
    (n = 42%nat <-> 35 < f + N).
Proof.
  intros Hv. pose proof Hv as (Hy & Hq & Hm).
  exists ((WeekDay (DayFromMonth y m) + 6) mod 7), (daysInMonthTable y m).
  split; [apply getFirstDayOfMonth_monday, Hv |].
  split; [apply getDaysInMonth_table, Hv |].
  cbv zeta. unfold numWeeks.
  rewrite (buildGridDates_days y m Hv), length_fmap, length_seqZ.
  set (f := (WeekDay (DayFromMonth y m) + 6) mod 7).
  set (N := daysInMonthTable y m).
  assert (Hf : 0 <= f <= 6) by (subst f; Z.div_mod_to_equations; lia).
  pose proof (daysInMonthTable_range y m) as HN. fold N in HN.
  destruct (padding_spec (f + N)) as [Hp Hp7].
  set (p := padding (f + N)) in *.
  assert (Hcases : f + N + p = 28 \/ f + N + p = 35 \/ f + N + p = 42).
  { Z.div_mod_to_equations. lia. }
  assert (Hn : exists k : nat, Z.to_nat (f + N + p) = k /\ Z.of_nat k = f + N + p).
  { exists (Z.to_nat (f + N + p)). split; [reflexivity | lia]. }
  destruct Hn as (k & -> & Hk).
  assert (Hk' : k = 28%nat \/ k = 35%nat \/ k = 42%nat) by lia.
  split; [exact Hk' |].
  split; [destruct Hk' as [-> | [-> | ->]]; reflexivity |].
  split; split; intros; lia.
Qed.

(** February 2027 starts on a Monday and has 28 days: four weeks. *)
Lemma grid_has_four_to_six_weeks_witness :
  exists f N,
    getFirstDayOfMonth 2027 1 = Some f /\ getDaysInMonth 2027 1 = Some N /\
    let n := length (buildGridDates 2027 1) in
    (n = 28 \/ n = 35 \/ n = 42)%nat /\
    (numWeeks (buildGridDates 2027 1) * 7 = n)%nat /\
    (n = 28%nat <-> f = 0 /\ N = 28) /\
    (n = 42%nat <-> 35 < f + N).
Proof.
  assert (Hv : validYearMonth 2027 1) by (unfold validYearMonth; lia).
  exact (grid_has_four_to_six_weeks 2027 1 Hv).
Defined.

End GridFacts.

(** ** Date keys and days *)

Module KeyFacts.
Import JSDate JSDateFacts Calendar GridBuilder Classifier Examples.

Local Open Scope Z_scope.

Lemma string_length_app (s t : string) :
  String.length (s +:+ t) = (String.length s + String.length t)%nat.
Proof. induction s as [| a s IH]; simpl; [reflexivity | now rewrite IH]. Qed.

(** Two strings that end in suffixes of one length are equal only if
    both parts are. *)
Lemma string_app_suffix_inj (s1 s2 t1 t2 : string) :
  String.length t1 = String.length t2 ->
  s1 +:+ t1 = s2 +:+ t2 -> s1 = s2 /\ t1 = t2.
Proof.
  intros Hlen. revert s2. induction s1 as [| a s1 IH]; intros [| b s2] Heq.
  - split; [reflexivity | exact Heq].
  - exfalso. change (t1 = String b (s2 +:+ t2)) in Heq.
    rewrite Heq in Hlen. cbn [String.length] in Hlen.
    rewrite string_length_app in Hlen. lia.
  - exfalso. change (String a (s1 +:+ t1) = t2) in Heq.
    rewrite <- Heq in Hlen. cbn [String.length] in Hlen.
    rewrite string_length_app in Hlen. lia.
  - change (String a (s1 +:+ t1) = String b (s2 +:+ t2)) in Heq.
    injection Heq as -> Heq. destruct (IH s2 Heq) as [-> ->]. auto.
Qed.

(** Numbers below 100 padded to two characters: always two characters,
    different for different numbers. *)
Lemma padStart2_two_digits (a : Z) :
  0 <= a < 100 ->
  String.length (padStart2 (pretty a)) = 2%nat /\
  forall b, 0 <= b < 100 -> padStart2 (pretty a) = padStart2 (pretty b) -> a = b.
Proof.
  assert (H : Forall (λ a : Z,
                String.length (padStart2 (pretty a)) = 2%nat /\
                Forall (λ b : Z, padStart2 (pretty a) = padStart2 (pretty b) -> a = b)
                       (seqZ 0 100))
              (seqZ 0 100)).
  { apply (bool_decide_unpack _). vm_compute. exact I. }
  intros Ha. rewrite Forall_seqZ in H. destruct (H a ltac:(lia)) as [Hlen Hinj].
  split; [exact Hlen |]. intros b Hb. rewrite Forall_seqZ in Hinj. apply Hinj. lia.
Qed.

Lemma getDateKey_valid (t : Z) :
  getDateKey (ValidDate t) =
  pretty (YearFromDay (Day t)) +:+ "-" +:+
  padStart2 (pretty (MonthFromDay (Day t) + 1)) +:+ "-" +:+
  padStart2 (pretty (DateFromDay (Day t))).
Proof. reflexivity. Qed.

Lemma DateFromDay_small (d : Z) : 1 <= DateFromDay d <= 31.
Proof.
  pose proof (DateFromDay_range d).
  pose proof (daysInMonthTable_range (YearFromDay d) (MonthFromDay d)). lia.
Qed.

Lemma key_suffix_length (m d : Z) :
  0 <= m < 100 -> 0 <= d < 100 ->
  String.length ("-" +:+ padStart2 (pretty m) +:+ "-" +:+ padStart2 (pretty d)) = 6%nat.
Proof.
  intros Hm Hd.
  destruct (padStart2_two_digits m Hm) as [Hlm _].
  destruct (padStart2_two_digits d Hd) as [Hld _].
  rewrite !string_length_app, Hlm, Hld. reflexivity.
Qed.

Lemma getDateKey_civil (t1 t2 : Z) :
  getDateKey (ValidDate t1) = getDateKey (ValidDate t2) ->
  YearFromDay (Day t1) = YearFromDay (Day t2) /\
  MonthFromDay (Day t1) = MonthFromDay (Day t2) /\
  DateFromDay (Day t1) = DateFromDay (Day t2).
Proof.
  rewrite !getDateKey_valid. intros Heq.
  pose proof (MonthFromDay_range (Day t1)) as Hm1.
  pose proof (MonthFromDay_range (Day t2)) as Hm2.
  pose proof (DateFromDay_small (Day t1)) as Hd1.
  pose proof (DateFromDay_small (Day t2)) as Hd2.
  apply string_app_suffix_inj in Heq as [Hy Hrest].
  2:{ rewrite !key_suffix_length by lia. reflexivity. }
  apply (inj pretty) in Hy.
  apply (inj (String.append "-")) in Hrest.
  apply string_app_suffix_inj in Hrest as [Hm Hd].
  2:{ rewrite !string_length_app.
      destruct (padStart2_two_digits (DateFromDay (Day t1)) ltac:(lia)) as [-> _].
      destruct (padStart2_two_digits (DateFromDay (Day t2)) ltac:(lia)) as [-> _].
      reflexivity. }
  apply (inj (String.append "-")) in Hd.
  apply (proj2 (padStart2_two_digits (MonthFromDay (Day t1) + 1) ltac:(lia))) in Hm; [| lia].
  apply (proj2 (padStart2_two_digits (DateFromDay (Day t1)) ltac:(lia))) in Hd; [| lia].
  repeat split; [exact Hy | lia | exact Hd].
Qed.

Lemma getDateKey_day_iff (t1 t2 : Z) :
  (getDateKey (ValidDate t1) = getDateKey (ValidDate t2) <-> Day t1 = Day t2) /\
  getDateKey (ValidDate t1) ≠ getDateKey InvalidDate.
Proof.
  split; [split |].
  - intros (Hy & Hm & Hd)%getDateKey_civil.
    rewrite <- (civil_roundtrip (Day t1)), <- (civil_roundtrip (Day t2)).
    rewrite Hy, Hm, Hd. reflexivity.
  - intros Hday. rewrite !getDateKey_valid, Hday. reflexivity.
  - rewrite getDateKey_valid. change (getDateKey InvalidDate) with ("NaN-N" +:+ "aN-NaN").
    pose proof (MonthFromDay_range (Day t1)) as Hm1.
    pose proof (DateFromDay_small (Day t1)) as Hd1.
    intros Heq. apply string_app_suffix_inj in Heq as [_ Hrest].
    + cbv [String.append] in Hrest.
      discriminate Hrest.
    + rewrite key_suffix_length by lia. reflexivity.
Qed.

(** X5: the key of a valid date names its calendar day: two valid dates
    have the same key exactly when they fall on the same day, and no
    valid date has the key of an invalid date. *)
Theorem getDateKey_same_day (t1 t2 : Z) :
  (getDateKey (ValidDate t1) = getDateKey (ValidDate t2) <-> Day t1 = Day t2) /\
  getDateKey (ValidDate t1) ≠ getDateKey InvalidDate.
Proof. exact (getDateKey_day_iff t1 t2). Qed.

Lemma isSameDay_days (date1 date2 : Date) :
  isSameDay date1 date2 = true <->
  exists t1 t2, date1 = ValidDate t1 /\ date2 = ValidDate t2 /\ Day t1 = Day t2.
Proof.
  destruct date1 as [t1 |], date2 as [t2 |]; unfold isSameDay;
    cbn [getFullYear getMonth getDate timeValue fmap option_fmap option_map numStrictEq andb compose].
  - rewrite !andb_true_iff, !Z.eqb_eq. split.
    + intros [[Hy Hm] Hd]. exists t1, t2. repeat split.
      rewrite <- (civil_roundtrip (Day t1)), <- (civil_roundtrip (Day t2)).
      rewrite Hy, Hm, Hd. reflexivity.
    + intros (? & ? & [= <-] & [= <-] & ->). auto.
  - split; [discriminate | intros (? & ? & _ & [=] & _)].
  - split; [discriminate | intros (? & ? & [=] & _)].
  - split; [discriminate | intros (? & ? & [=] & _)].
Qed.

(** X6: [isSameDay] holds exactly for two valid dates on one calendar
    day, which is when their keys agree; an invalid date is the same day
    as nothing, itself included. *)
Theorem isSameDay_same_day (date1 date2 : Date) :
  (isSameDay date1 date2 = true <->
   exists t1 t2, date1 = ValidDate t1 /\ date2 = ValidDate t2 /\ Day t1 = Day t2) /\
  (isSameDay date1 date2 = true <->
   getDateKey date1 = getDateKey date2 /\ date1 ≠ InvalidDate) /\
  isSameDay InvalidDate date2 = false /\ isSameDay date1 InvalidDate = false.
Proof.
  pose proof (isSameDay_days date1 date2) as Hmain.
  split; [exact Hmain |]. split; [| split].
  - rewrite Hmain. split.
    + intros (t1 & t2 & -> & -> & Hd). split; [| discriminate].
      now apply (getDateKey_day_iff t1 t2).
    + intros [Hk Hv]. destruct date1 as [t1 |]; [| contradiction].
      destruct date2 as [t2 |].
      * exists t1, t2. repeat split. now apply (getDateKey_day_iff t1 t2).
      * exfalso. now apply (getDateKey_day_iff t1 t1).
  - reflexivity.
  - destruct date1; reflexivity.
Qed.

End KeyFacts.

(** ** Finding a date in the grid *)

Module IndexFacts.
Import JSDate JSDateFacts Calendar GridBuilder Classifier KeyFacts Examples.

Local Open Scope Z_scope.

Lemma indexDates_snoc (l : list Date) (d : Date) :
  indexDates (l ++ [d]) = <[getDateKey d := length l]> (indexDates l).
Proof.
  unfold indexDates. rewrite imap_app, foldl_app. cbn [imap foldl fst snd].
  now rewrite Nat.add_0_r.
Qed.

Lemma indexDates_last (gridDates : list Date) (k : string) (i : nat) :
  indexDates gridDates !! k = Some i <->
  (exists d, gridDates !! i = Some d /\ getDateKey d = k) /\
  (forall j d', (i < j)%nat -> gridDates !! j = Some d' -> getDateKey d' ≠ k).
Proof.
  revert i. induction gridDates as [| d l IH] using rev_ind; intros i.
  - unfold indexDates. cbn. rewrite lookup_empty. split; [discriminate |].
    intros [(d & Hd & _) _]. discriminate.
  - rewrite indexDates_snoc.
    destruct (decide (getDateKey d = k)) as [Hk | Hk].
    + rewrite Hk, lookup_insert_eq. split.
      * intros [= <-]. split.
        -- exists d. split; [| exact Hk].
           rewrite lookup_app_r, Nat.sub_diag by done. reflexivity.
        -- intros j d' Hj Hd'. apply lookup_lt_Some in Hd'.
           rewrite length_app in Hd'. simpl in Hd'. lia.
      * intros [(d0 & Hd0 & _) Hlast]. f_equal.
        pose proof (lookup_lt_Some _ _ _ Hd0) as Hlt.
        rewrite length_app in Hlt. simpl in Hlt.
        destruct (decide (i = length l)) as [-> | Hne]; [reflexivity |].
        exfalso. apply (Hlast (length l) d); [lia | | exact Hk].
        rewrite lookup_app_r, Nat.sub_diag by done. reflexivity.
    + rewrite lookup_insert_ne, IH by done. split.
      * intros [(d0 & Hd0 & Hk0) Hlast]. split.
        -- exists d0. split; [now apply lookup_app_l_Some | exact Hk0].
        -- intros j d' Hj [Hd' | [_ Hd']]%lookup_app_Some; [eauto |].
           apply list_lookup_singleton_Some in Hd' as [_ <-]. exact Hk.
      * intros [(d0 & Hd0 & Hk0) Hlast].
        apply lookup_app_Some in Hd0 as [Hd0 | [_ Hd0]].
        -- split; [eauto |]. intros j d' Hj Hd'.
           apply (Hlast j d' Hj). now apply lookup_app_l_Some.
        -- apply list_lookup_singleton_Some in Hd0 as [_ <-]. contradiction.
Qed.

(** X7: [dateToIndex] finds a key at the last cell of the grid that has
    it, and finds nothing exactly when no cell has it. *)
Theorem dateToIndex_last_cell (gridDates : list Date) (k : string) :
  (forall i,
     indexDates gridDates !! k = Some i <->
     (exists d, gridDates !! i = Some d /\ getDateKey d = k) /\
     (forall j d', (i < j)%nat -> gridDates !! j = Some d' -> getDateKey d' ≠ k)) /\
  (indexDates gridDates !! k = None <-> k ∉ getDateKey <$> gridDates).
Proof.
  split; [intros i; apply indexDates_last |].
  split.
  - intros Hnone (d & -> & Hd)%list_elem_of_fmap.
    induction gridDates as [| d0 l IH] using rev_ind; [by apply elem_of_nil in Hd |].
    rewrite indexDates_snoc in Hnone.
    destruct (decide (getDateKey d0 = getDateKey d)) as [Heq | Hne].
    + rewrite Heq, lookup_insert_eq in Hnone. discriminate.
    + rewrite lookup_insert_ne in Hnone by done.
      apply elem_of_app in Hd as [Hd | ->%list_elem_of_singleton]; [auto | done].
  - intros Hout. destruct (indexDates gridDates !! k) as [i |] eqn:Hi; [| reflexivity].
    apply indexDates_last in Hi as [(d & Hd & <-) _].
    exfalso. apply Hout, list_elem_of_fmap. exists d.
    split; [reflexivity | eapply list_elem_of_lookup_2; eauto].
Qed.

(** X8: in the grid of a month every date is found at the cell that
    shows its day and nowhere else: the index map sends the key of a date
    to [i] exactly when cell [i] is the same day. *)
Theorem dateToIndex_same_day (y m : Z) (date : Date) (i : nat) :
  validYearMonth y m ->
  indexDates (buildGridDates y m) !! getDateKey date = Some i <->
  exists d, buildGridDates y m !! i = Some d /\ isSameDay d date = true.
Proof.
  intros Hv. rewrite indexDates_last. split.
  - intros [(d & Hd & Hk) _]. exists d. split; [exact Hd |].
    pose proof Hd as [-> _]%(grid_lookup y m i d Hv).
    destruct date as [t |].
    + apply isSameDay_days. eexists _, _.
      split; [reflexivity |]. split; [reflexivity |].
      now apply getDateKey_day_iff.
    + exfalso. now apply (getDateKey_day_iff _ 0) in Hk.
  - intros (d & Hd & Hsame).
    apply isSameDay_days in Hsame as (t1 & t2 & -> & -> & Hday).
    split.
    + eexists. split; [exact Hd |]. now apply getDateKey_day_iff.
    + intros j d' Hj Hd' Hk.
      apply (grid_lookup y m i _ Hv) in Hd as [Hd _].
      apply (grid_lookup y m j _ Hv) in Hd' as [-> _].
      apply getDateKey_day_iff in Hk. injection Hd as ->.
      rewrite !Day_of_midnight in *. lia.
Qed.

(** Wednesday 4 November 2026, at noon, is found at cell 9. *)
Lemma dateToIndex_same_day_witness :
  indexDates (buildGridDates 2026 10)
    !! getDateKey (ValidDate (MakeDay 2026 10 4 * msPerDay + 12 * msPerHour)) = Some 9%nat
  <-> exists d, buildGridDates 2026 10 !! 9%nat = Some d /\
        isSameDay d (ValidDate (MakeDay 2026 10 4 * msPerDay + 12 * msPerHour)) = true.
Proof.
  apply dateToIndex_same_day. unfold validYearMonth. lia.
Defined.

End IndexFacts.

(** ** The day cells *)

Module CellFacts.
Import JSDate JSDateFacts Calendar GridBuilder Classifier KeyFacts Examples.

Local Open Scope Z_scope.

(** The month of the day [k] cells after the first cell of the grid. *)
Lemma grid_cell_month (y m : Z) (k : Z) :
  validYearMonth y m ->
  let f := (WeekDay (DayFromMonth y m) + 6) mod 7 in
  let N := daysInMonthTable y m in
  0 <= k < f + N + 7 ->
  (MonthFromDay (DayFromMonth y m - f + k) = m <-> f <= k < f + N) /\
  (f <= k < f + N -> DateFromDay (DayFromMonth y m - f + k) = k - f + 1).
Proof.
  intros (Hy & Hq & Hm) f N Hk.
  assert (Hf : 0 <= f <= 6) by (subst f; Z.div_mod_to_equations; lia).
  pose proof (daysInMonthTable_range y m) as HN. fold N in HN.
  assert (Hin : f <= k < f + N ->
                MonthFromDay (DayFromMonth y m - f + k) = m /\
                DateFromDay (DayFromMonth y m - f + k) = k - f + 1).
  { intros Hr.
    destruct (civil_of_DayFromMonth y m (k - f + 1)) as (_ & Hmo & Hda); [lia | fold N; lia |].
    replace (DayFromMonth y m - f + k) with (DayFromMonth y m + (k - f + 1) - 1) by lia.
    auto. }
  split; [| intros Hr; apply Hin, Hr].
  split; [| intros Hr; apply Hin, Hr].
  intros Hmo.
  destruct (Z.lt_ge_cases k f) as [Hlt | Hge].
  - exfalso. destruct (prev_month_normal y m Hm) as [Hpm Hp].
    pose proof (daysInMonthTable_range (y + (m - 1) / 12) ((m - 1) mod 12)) as HNp.
    destruct (civil_of_DayFromMonth (y + (m - 1) / 12) ((m - 1) mod 12)
                (daysInMonthTable (y + (m - 1) / 12) ((m - 1) mod 12) - f + k + 1))
      as (_ & Hmo' & _); [lia | lia |].
    replace (DayFromMonth (y + (m - 1) / 12) ((m - 1) mod 12)
             + (daysInMonthTable (y + (m - 1) / 12) ((m - 1) mod 12) - f + k + 1) - 1)
      with (DayFromMonth y m - f + k) in Hmo' by lia.
    rewrite Hmo in Hmo'. clear -Hmo' Hm. Z.div_mod_to_equations. lia.
  - destruct (Z.lt_ge_cases k (f + N)) as [? | Hge']; [lia |].
    exfalso. pose proof (DayFromMonth_next y m Hm) as Hnx. fold N in Hnx.
    pose proof (daysInMonthTable_range (y + (m + 1) / 12) ((m + 1) mod 12)) as HNn.
    pose proof (Z.mod_pos_bound (m + 1) 12 ltac:(lia)) as Hmb.
    destruct (civil_of_DayFromMonth (y + (m + 1) / 12) ((m + 1) mod 12) (k - (f + N) + 1))
      as (_ & Hmo' & _); [lia | lia |].
    replace (DayFromMonth (y + (m + 1) / 12) ((m + 1) mod 12) + (k - (f + N) + 1) - 1)
      with (DayFromMonth y m - f + k) in Hmo' by lia.
    rewrite Hmo in Hmo'. clear -Hmo' Hm. Z.div_mod_to_equations. lia.
Qed.

(** X9: when the clock reads [now], exactly one day cell is marked as
    today, the cell [firstDay + getDate(today) - 1]; the cells not marked
    as other month are the [daysInMonth] cells from [firstDay] on, and
    they carry the day numbers 1, 2, ... in order. *)
Theorem today_cell_and_month_cells (now : Z) :
  let year := YearFromDay (Day now) in
  let month := MonthFromDay (Day now) in
  validYearMonth year month ->
  exists f N,
    getFirstDayOfMonth year month = Some f /\ getDaysInMonth year month = Some N /\
    (exists c, dayCells now !! Z.to_nat (f + DateFromDay (Day now) - 1) = Some c) /\
    forall i c, dayCells now !! i = Some c ->
      (c.(isToday) = true <-> Z.of_nat i = f + DateFromDay (Day now) - 1) /\
      (c.(otherMonth) = false <-> f <= Z.of_nat i < f + N) /\
      (f <= Z.of_nat i < f + N -> c.(dayNumber) = Some (Z.of_nat i - f + 1)).
Proof.
  intros year month Hv. pose proof Hv as (Hy & Hq & Hm).
  set (f := (WeekDay (DayFromMonth year month) + 6) mod 7).
  set (N := daysInMonthTable year month).
  exists f, N.
  assert (Hf : 0 <= f <= 6) by (subst f; Z.div_mod_to_equations; lia).
  pose proof (daysInMonthTable_range year month) as HN. fold N in HN.
  destruct (padding_spec (f + N)) as [Hp _].
  pose proof (civil_roundtrip (Day now)) as Hrt. fold year month in Hrt.
  pose proof (DateFromDay_range (Day now)) as Hdn. fold year month N in Hdn.
  split; [apply getFirstDayOfMonth_monday, Hv |].
  split; [apply getDaysInMonth_table, Hv |].
  assert (Hcell : forall i c, dayCells now !! i = Some c ->
            Z.of_nat i < f + N + padding (f + N) /\
            c = dayCell (ValidDate now)
                  (ValidDate ((DayFromMonth year month - f + Z.of_nat i) * msPerDay))).
  { intros i c Hc. unfold dayCells, todayGrid in Hc. fold year month in Hc.
    rewrite list_lookup_fmap in Hc.
    destruct (buildGridDates year month !! i) as [d |] eqn:Hd; [| discriminate].
    apply (grid_lookup year month i d Hv) in Hd as [-> Hi]. fold f N in Hi.
    injection Hc as <-. auto. }
  split.
  { unfold dayCells, todayGrid. fold year month.
    rewrite list_lookup_fmap.
    destruct (buildGridDates year month !! Z.to_nat (f + DateFromDay (Day now) - 1))
      as [d |] eqn:Hd; [eexists; reflexivity |].
    exfalso. apply eq_None_not_Some in Hd. apply Hd. eexists.
    apply (grid_lookup year month _ _ Hv). fold f N. split; [reflexivity | lia]. }
  intros i c Hc. destruct (Hcell i c Hc) as [Hi ->]. clear Hc Hcell.
  destruct (grid_cell_month year month (Z.of_nat i) Hv) as [Hmonth Hdate];
    [fold f N; lia |]. fold f N in Hmonth, Hdate.
  unfold dayCell. cbn [isToday otherMonth dayNumber].
  split; [| split].
  - rewrite isSameDay_days. split.
    + intros (t1 & t2 & [= <-] & [= <-] & Hday).
      rewrite Day_of_midnight in Hday. lia.
    + intros Hi'. eexists _, _. split; [reflexivity |]. split; [reflexivity |].
      rewrite Day_of_midnight. lia.
  - unfold getMonth, compose. cbn [timeValue fmap option_fmap option_map numStrictEq].
    rewrite Day_of_midnight. fold month.
    rewrite negb_false_iff, Z.eqb_eq. exact Hmonth.
  - intros Hr. unfold getDate, compose. cbn [timeValue fmap option_fmap option_map].
    rewrite Day_of_midnight. f_equal. apply Hdate, Hr.
Qed.

(** Tuesday 3 November 2026 at 08:00: today is cell 8. *)
Lemma today_cell_and_month_cells_witness :
  let now := MakeDay 2026 10 3 * msPerDay + 8 * msPerHour in
  exists f N,
    getFirstDayOfMonth (YearFromDay (Day now)) (MonthFromDay (Day now)) = Some f /\
    getDaysInMonth (YearFromDay (Day now)) (MonthFromDay (Day now)) = Some N /\
    (exists c, dayCells now !! Z.to_nat (f + DateFromDay (Day now) - 1) = Some c) /\
    forall i c, dayCells now !! i = Some c ->
      (c.(isToday) = true <-> Z.of_nat i = f + DateFromDay (Day now) - 1) /\
      (c.(otherMonth) = false <-> f <= Z.of_nat i < f + N) /\
      (f <= Z.of_nat i < f + N -> c.(dayNumber) = Some (Z.of_nat i - f + 1)).
Proof.
  apply (today_cell_and_month_cells (MakeDay 2026 10 3 * msPerDay + 8 * msPerHour)).
  vm_compute. repeat split; try discriminate. intros [_ H]. apply H. reflexivity.
Defined.

End CellFacts.

(** ** Buckets, order and lanes *)

Module BucketFacts.
Import JSDate Calendar LaneAssigner Placement Examples.

Local Open Scope nat_scope.

Section pass.
Context (now : Z) (gridDates : list Date).

Lemma placeEvent_bucket (st : GridState) (e : Event) (k : string) :
  (placeEvent now gridDates (indexDates gridDates) st e).(singleDayEventsMap) !! k
  = (λ bucket, bucket ++ filter (singleDayOn now k) [e]) <$> st.(singleDayEventsMap) !! k.
Proof.
  unfold placeEvent. fold (isSpanning now e).
  destruct (isSpanning now e) eqn:Hs.
  - assert (Hf : filter (singleDayOn now k) [e] = []).
    { rewrite filter_cons, decide_False; [reflexivity |].
      unfold singleDayOn. intros [? _]. congruence. }
    rewrite Hf.
    assert (Hid : forall o : option (list Event), (λ b, b ++ []) <$> o = o).
    { intros [b |]; simpl; [now rewrite app_nil_r | reflexivity]. }
    rewrite Hid.
    match goal with |- context [if ?b then _ else _] => destruct b end; [| reflexivity].
    destruct (chooseRow _ _ _). reflexivity.
  - destruct (decide (getDateKey (parseEventDate now (start e)) = k)) as [Hk | Hk].
    + assert (Hf : filter (singleDayOn now k) [e] = [e]).
      { rewrite filter_cons, decide_True; [reflexivity | split; assumption]. }
      rewrite Hf, Hk.
      destruct (singleDayEventsMap st !! k) as [bucket |] eqn:Hb; simpl.
      * now rewrite lookup_insert_eq.
      * now rewrite Hb.
    + assert (Hf : filter (singleDayOn now k) [e] = []).
      { rewrite filter_cons, decide_False; [reflexivity |].
        unfold singleDayOn. intros [_ ?]. contradiction. }
      rewrite Hf.
      assert (Hid : forall o : option (list Event), (λ b, b ++ []) <$> o = o).
      { intros [b |]; simpl; [now rewrite app_nil_r | reflexivity]. }
      rewrite Hid.
      destruct (singleDayEventsMap st !! _) as [bucket |] eqn:Hb; [| reflexivity].
      simpl. now rewrite lookup_insert_ne.
Qed.

Lemma placeEvents_bucket (evs : list Event) (st : GridState) (k : string) :
  (placeEvents now gridDates evs st).(singleDayEventsMap) !! k
  = (λ bucket, bucket ++ filter (singleDayOn now k) evs) <$> st.(singleDayEventsMap) !! k.
Proof.
  unfold placeEvents. revert st. induction evs as [| e evs IH]; intros st.
  - simpl. destruct (singleDayEventsMap st !! k); simpl; [now rewrite app_nil_r | reflexivity].
  - cbn [foldl]. rewrite IH, placeEvent_bucket.
    destruct (singleDayEventsMap st !! k) as [b |]; simpl; [| reflexivity].
    f_equal. rewrite <- app_assoc. f_equal.
    change (e :: evs) with ([e] ++ evs). now rewrite filter_app.
Qed.

(** X10: in whatever order [evs] the events are processed, the bucket
    of a grid date holds exactly the events that take the single-day
    branch and start on that date, in the order of processing, and there
    is no bucket for any other key.  When every start is a valid date the
    order of processing is that of the sorted events. *)
Theorem buckets_are_single_day_events (evs : list Event) (k : string) :
  (placeEvents now gridDates evs (initialState gridDates)).(singleDayEventsMap) !! k
  = (if decide (k ∈ getDateKey <$> gridDates)
     then Some (filter (singleDayOn now k) evs)
     else None) /\
  (forall events,
     validStarts now events -> evs = sortedEvents now events ->
     (organizeEventsForGrid now (Some events) gridDates).(singleDayEvents) !! k
     = if decide (k ∈ getDateKey <$> gridDates)
       then Some (filter (singleDayOn now k) (sortedEvents now events))
       else None).
Proof.
  assert (H : forall l,
            (placeEvents now gridDates l (initialState gridDates)).(singleDayEventsMap) !! k
            = if decide (k ∈ getDateKey <$> gridDates)
              then Some (filter (singleDayOn now k) l)
              else None).
  { intros l. rewrite placeEvents_bucket. simpl. rewrite mapDates_lookup.
    destruct (decide _); reflexivity. }
  split; [apply H |]. intros events _ _. simpl. apply H.
Qed.

(** X11: no event is both in a bucket and the owner of a segment, and no
    event is in the buckets of two dates. *)
Theorem buckets_and_segments_disjoint (events : option (list Event))
    (e : Event) (k : string) (bucket : list Event) :
  let out := organizeEventsForGrid now events gridDates in
  out.(singleDayEvents) !! k = Some bucket -> e ∈ bucket ->
  (forall s, s ∈ out.(multiDayEvents) -> event s ≠ e) /\
  (forall k' bucket', out.(singleDayEvents) !! k' = Some bucket' -> e ∈ bucket' -> k' = k).
Proof.
  intros out Hk He.
  destruct (bucketsOk_organize now gridDates events k bucket Hk) as [_ Hev].
  destruct (Hev e He) as [Hsingle Hkey]. split.
  - intros s Hs Heq. apply segment_rendered in Hs.
    unfold isRendered in Hs. rewrite Heq, Hsingle in Hs. discriminate.
  - intros k' bucket' Hk' He'.
    destruct (bucketsOk_organize now gridDates events k' bucket' Hk') as [_ Hev'].
    destruct (Hev' e He') as [_ Hkey']. congruence.
Qed.
End pass.

(** The evening event of 3 November next to events A and B. *)
Lemma buckets_and_segments_disjoint_witness :
  let e := timedEvent "Dinner" (localTime 2026 10 3 19) (localTime 2026 10 3 21) in
  let out := organizeEventsForGrid 0 (Some [eventA; e; eventB]) november2026 in
  (forall s, s ∈ out.(multiDayEvents) -> event s ≠ e) /\
  (forall k' bucket', out.(singleDayEvents) !! k' = Some bucket' -> e ∈ bucket' ->
     k' = "2026-11-03").
Proof.
  apply (buckets_and_segments_disjoint 0 november2026 _ _ "2026-11-03"
           [timedEvent "Dinner" (localTime 2026 10 3 19) (localTime 2026 10 3 21)]).
  - vm_compute. reflexivity.
  - apply list_elem_of_singleton. reflexivity.
Defined.

(** The evening event of 3 November and a lunch on the same day, given
    in the order dinner, lunch: the bucket holds lunch, dinner. *)
Lemma buckets_are_single_day_events_witness :
  let lunch := timedEvent "Lunch" (localTime 2026 10 3 12) (localTime 2026 10 3 13) in
  let dinner := timedEvent "Dinner" (localTime 2026 10 3 19) (localTime 2026 10 3 21) in
  (organizeEventsForGrid 0 (Some [dinner; eventA; lunch]) november2026).(singleDayEvents)
    !! "2026-11-03"
  = Some [lunch; dinner].
Proof.
  intros lunch dinner. etransitivity.
  - apply (proj2 (buckets_are_single_day_events 0 november2026
                    (sortedEvents 0 [dinner; eventA; lunch]) "2026-11-03")
                 [dinner; eventA; lunch]).
    + repeat constructor; discriminate.
    + reflexivity.
  - vm_compute. reflexivity.
Defined.

(** *** Stability of the sort *)

Lemma filter_none {A} (P : A -> Prop) `{!forall x, Decision (P x)} (l : list A) :
  Forall (λ x, ¬ P x) l -> filter P l = [].
Proof.
  induction 1 as [| x l Hx _ IH]; [reflexivity |].
  now rewrite filter_cons, decide_False.
Qed.

Lemma sortInsert_stable (now : Z) (k : option Z) (x : Event) (l : list Event) :
  StronglySorted (startsNoLater now) l ->
  filter (λ e, startTime now e = k) (sortInsert (startsAfter now) x l)
  = filter (λ e, startTime now e = k) (l ++ [x]).
Proof.
  induction l as [| y l IH]; intros Hs; [reflexivity |].
  apply StronglySorted_inv in Hs as [Hl Hy]. cbn [sortInsert].
  destruct (startsAfter now y x) eqn:Hgt.
  - apply startsAfter_true in Hgt as (ty & tx & Hty & Htx & Hlt).
    rewrite filter_app, (filter_cons _ x), (filter_cons _ x []).
    destruct (decide (startTime now x = k)) as [Hk | Hk]; [| now rewrite app_nil_r].
    rewrite (filter_none _ (y :: l)); [reflexivity |].
    constructor.
    + rewrite <- Hk, Htx, Hty. intros [= ?]. lia.
    + eapply Forall_impl; [exact Hy |]. intros z Hyz Hz.
      rewrite <- Hk, Htx in Hz. specialize (Hyz ty tx Hty Hz). lia.
  - change ((y :: l) ++ [x]) with (y :: (l ++ [x])).
    rewrite !(filter_cons _ y), IH by exact Hl. reflexivity.
Qed.

Lemma sortInsert_events_sorted (now : Z) (x : Event) (l : list Event) :
  StronglySorted (startsNoLater now) l ->
  StronglySorted (startsNoLater now) (sortInsert (startsAfter now) x l).
Proof.
  apply sortInsert_sorted.
  - intros a b (tb & ta & Hb & Ha & Hlt)%startsAfter_true ta' tb' Ha' Hb'.
    rewrite Ha in Ha'. rewrite Hb in Hb'.
    injection Ha' as <-. injection Hb' as <-. lia.
  - intros a b c (tb & ta & Hb & Ha & Hlt)%startsAfter_true Hbc ta' tc Ha' Hc.
    rewrite Ha in Ha'. injection Ha' as <-.
    specialize (Hbc tb tc Hb Hc). lia.
  - intros a b Hgt tb ta Hb Ha.
    destruct (Z.le_gt_cases tb ta) as [? | Hlt]; [done |].
    assert (startsAfter now b a = true) as Habs; [| congruence].
    apply startsAfter_true. exists tb, ta. repeat split; try done; lia.
Qed.

(** X12: when every event has a valid start date, the sort keeps the
    events that start at the same instant in the order of the input. *)
Theorem sortedEvents_stable (now : Z) (events : list Event) (t : Z) :
  Forall (λ e, startTime now e ≠ None) events ->
  filter (λ e, startTime now e = Some t) (sortedEvents now events)
  = filter (λ e, startTime now e = Some t) events.
Proof.
  intros _. unfold sortedEvents, jsSort.
  assert (H : forall acc, StronglySorted (startsNoLater now) acc ->
            filter (λ e, startTime now e = Some t)
                   (foldl (λ acc x, sortInsert (startsAfter now) x acc) acc events)
            = filter (λ e, startTime now e = Some t) (acc ++ events)).
  { induction events as [| x l IH]; intros acc Hacc; cbn [foldl].
    - now rewrite app_nil_r.
    - rewrite IH.
      + rewrite filter_app, sortInsert_stable, <- filter_app, <- app_assoc by exact Hacc.
        reflexivity.
      + apply sortInsert_events_sorted, Hacc. }
  apply H. constructor.
Qed.

(** The four stacked events all start on 2 November at 00:00. *)
Lemma sortedEvents_stable_witness :
  filter (λ e, startTime 0 e = Some (MakeDay 2026 10 2 * msPerDay + 0 * msPerHour)%Z)
         (sortedEvents 0 stackedEvents)
  = filter (λ e, startTime 0 e = Some (MakeDay 2026 10 2 * msPerDay + 0 * msPerHour)%Z)
           stackedEvents.
Proof.
  apply sortedEvents_stable. repeat constructor; discriminate.
Defined.

End BucketFacts.

(** ** More on lanes and segments *)

Module LaneFacts.
Import JSDate Calendar LaneAssigner Placement IndexFacts Examples.

Local Open Scope nat_scope.

Lemma chooseRow_length (n : nat) (occ : list (list bool)) (cells : list nat) :
  let r := (chooseRow n occ cells).1 in
  r ≤ length occ /\ length (chooseRow n occ cells).2 = length occ `max` (r + 1).
Proof.
  unfold chooseRow, findRow.
  destruct (list_find _ occ) as [[i row] |] eqn:Hfind; simpl.
  - apply list_find_Some in Hfind as (Hrow & _). apply lookup_lt_Some in Hrow. lia.
  - rewrite length_app. simpl. lia.
Qed.

Section pass.
Context (now : Z) (gridDates : list Date).

(** The occupancy table has one row per lane in use. *)
Lemma occupancy_rows (evs : list Event) (i : nat) :
  i ≤ length evs ->
  length (occupancyBefore now gridDates evs i) ≤ i /\
  forall r, r < length (occupancyBefore now gridDates evs i) <->
            exists k, k < i /\ laneOf now gridDates evs k = Some r.
Proof.
  induction i as [| i IH]; intros Hi.
  - unfold occupancyBefore. simpl. split; [lia |]. intros r. split; [lia |].
    intros (k & Hk & _). lia.
  - destruct (lookup_lt_is_Some_2 evs i) as [e He]; [lia |].
    destruct (IH ltac:(lia)) as [Hlen Hrows].
    rewrite (occupancy_step now gridDates evs i e He).
    assert (Hsplit : forall r, (exists k, k < S i /\ laneOf now gridDates evs k = Some r) <->
              (exists k, k < i /\ laneOf now gridDates evs k = Some r)
              \/ laneOf now gridDates evs i = Some r).
    { intros r. split.
      - intros (k & Hk & Hl). destruct (decide (k = i)) as [-> | ?]; [auto |].
        left. exists k. split; [lia | done].
      - intros [(k & Hk & Hl) | Hl]; [exists k | exists i]; split; auto; lia. }
    destruct (isRendered now gridDates e) eqn:Hr.
    + cbv zeta. rewrite length_markCells.
      destruct (chooseRow_length (length gridDates)
                  (occupancyBefore now gridDates evs i) (cellsOf now gridDates e))
        as [Hle ->].
      set (r0 := (chooseRow (length gridDates) (occupancyBefore now gridDates evs i)
                            (cellsOf now gridDates e)).1) in *.
      assert (Hl : laneOf now gridDates evs i = Some r0).
      { apply laneOf_Some. exists e. done. }
      split; [lia |]. intros r. rewrite Hsplit, <- Hrows, Hl. split.
      * intros ?. destruct (decide (r = r0)) as [-> | ?]; [auto | left; lia].
      * intros [? | [= ->]]; lia.
    + split; [lia |]. intros r. rewrite Hsplit, <- Hrows.
      split; [auto |]. intros [? | Hl]; [done |].
      apply laneOf_Some in Hl as (e' & He' & Hr' & _).
      rewrite He in He'. injection He' as <-. congruence.
Qed.

(** X13: lanes are handed out without gaps, in whatever order the events
    are processed: the lane of the [i]-th event is at most [i], and every
    lower lane has been given to an earlier event. *)
Theorem lanes_without_gaps (evs : list Event) (i r : nat) :
  laneOf now gridDates evs i = Some r ->
  r ≤ i /\ forall r', r' < r -> exists k, k < i /\ laneOf now gridDates evs k = Some r'.
Proof.
  intros Hl. pose proof Hl as (e & He & Hr & ->)%laneOf_Some.
  assert (Hi : i ≤ length evs) by (apply lookup_lt_Some in He; lia).
  destruct (occupancy_rows evs i Hi) as [Hlen Hrows].
  destruct (chooseRow_length (length gridDates)
              (occupancyBefore now gridDates evs i) (cellsOf now gridDates e)) as [Hle _].
  split; [lia |]. intros r' Hr'. apply Hrows. lia.
Qed.
End pass.

(** Event B, processed second, is on lane 1; lane 0 went to event A. *)
Lemma lanes_without_gaps_witness :
  (1 ≤ 1)%nat /\
  forall r', r' < 1 ->
    exists k, k < 1 /\ laneOf 0 november2026 [eventA; eventB] k = Some r'.
Proof.
  apply (lanes_without_gaps 0 november2026 [eventA; eventB] 1 1).
  vm_compute. reflexivity.
Defined.

(** *** The cells of an event *)

Lemma week_of_cell (w col : nat) : col < 7 -> (w * 7 + col) `div` 7 = w /\ (w * 7 + col) `mod` 7 = col.
Proof.
  intros Hcol. split.
  - rewrite Nat.add_comm, Nat.div_add by lia. rewrite Nat.div_small by lia. reflexivity.
  - rewrite Nat.add_comm, Nat.Div0.mod_add. now apply Nat.mod_small.
Qed.

Lemma occupiedCells_interval (gridDates : list Date) (e : Event)
    (si ei : option nat) (c : nat) :
  c ∈ occupiedCells gridDates e si ei <->
  default 0 si ≤ c /\
  match ei with
  | Some j => if e.(all_day) then c < j else c ≤ j
  | None => (Z.of_nat c <= (Z.of_nat (length gridDates) - 1) / 7 * 7 + 6)%Z
  end.
Proof.
  unfold occupiedCells. rewrite list_elem_of_bind.
  pose proof (Nat.div_mod_eq c 7) as Hc. pose proof (Nat.mod_upper_bound c 7 ltac:(lia)) as Hc7.
  assert (Hweek : forall w, c ∈ weekCells gridDates e si ei w <->
            w = c `div` 7 /\ colStartOf si w ≤ c `mod` 7 /\
            (Z.of_nat (c `mod` 7) <= colEndOf gridDates e ei w)%Z).
  { intros w. unfold weekCells. pose proof (colEndOf_le gridDates e ei w) as Hle.
    destruct (decide _) as [Hok | Hno].
    - rewrite list_elem_of_fmap. setoid_rewrite elem_of_seq. split.
      + intros (col & -> & Hcol).
        destruct (week_of_cell w col ltac:(lia)) as [-> ->]. lia.
      + intros (-> & H1 & H2). exists (c `mod` 7). lia.
    - split; [by intros ?%elem_of_nil |]. intros (_ & H1 & H2). lia. }
  setoid_rewrite Hweek. unfold weekIndices. setoid_rewrite elem_of_seq.
  unfold colStartOf, colEndOf, firstWeekIndex, lastWeekIndex.
  split.
  - intros (w & (-> & Hs & He) & Hw). split.
    + destruct si as [i |]; cbn [default from_option] in *; unfold id in *; [| lia].
      pose proof (Nat.div_mod_eq i 7). pose proof (Nat.mod_upper_bound i 7 ltac:(lia)).
      clear He. repeat case_decide; lia.
    + destruct ei as [j |]; cbn [default from_option] in *; unfold id in *.
      * pose proof (Nat.div_mod_eq j 7). pose proof (Nat.mod_upper_bound j 7 ltac:(lia)).
        clear Hs. repeat case_decide; destruct (all_day e); lia.
      * lia.
  - intros [Hlo Hhi]. exists (c `div` 7). split; [split; [reflexivity |] |].
    + split.
      * destruct si as [i |]; cbn [default from_option] in *; unfold id in *; [| lia].
        pose proof (Nat.div_mod_eq i 7). pose proof (Nat.mod_upper_bound i 7 ltac:(lia)).
        repeat case_decide; lia.
      * destruct ei as [j |]; cbn [default from_option] in *; unfold id in *; [| lia].
        pose proof (Nat.div_mod_eq j 7). pose proof (Nat.mod_upper_bound j 7 ltac:(lia)).
        repeat case_decide; destruct (all_day e); lia.
    + assert (H1 : from_option (λ i, i `div` 7) 0 si ≤ c `div` 7).
      { destruct si as [i |]; cbn [default from_option] in *; unfold id in *; [| lia].
        now apply Nat.Div0.div_le_mono. }
      assert (H2 : (Z.of_nat (c `div` 7) <=
                    from_option (λ i, Z.of_nat (i `div` 7))
                                ((Z.of_nat (length gridDates) - 1) / 7) ei)%Z).
      { destruct ei as [j |]; cbn [default from_option] in *; unfold id in *.
        - apply inj_le, Nat.Div0.div_le_mono. destruct (all_day e); lia.
        - Z.div_mod_to_equations. lia. }
      lia.
Qed.

(** X14: an event occupies the cells from its start date (the first cell
    if it starts before the grid) up to its end date, the end date itself
    left out for an all-day event and included for a timed one, or up to
    the end of the last week if it ends after the grid. *)
Theorem cells_of_event_interval (now : Z) (gridDates : list Date) (e : Event) (c : nat) :
  c ∈ cellsOf now gridDates e <->
  default 0 (startIndexOf now gridDates e) ≤ c /\
  match endIndexOf now gridDates e with
  | Some j => if e.(all_day) then c < j else c ≤ j
  | None => (Z.of_nat c <= (Z.of_nat (length gridDates) - 1) / 7 * 7 + 6)%Z
  end.
Proof. apply occupiedCells_interval. Qed.

Lemma segment_in_grid (now : Z) (gridDates : list Date)
    (events : option (list Event)) (s : Segment) :
  length gridDates `mod` 7 = 0 ->
  s ∈ (organizeEventsForGrid now events gridDates).(multiDayEvents) ->
  (1 <= s.(span))%Z /\
  (Z.of_nat s.(gridColumn) + s.(span) <= 7)%Z /\
  s.(gridRow) < numWeeks gridDates /\
  forall c, c ∈ segmentCells s -> c < length gridDates.
Proof.
  intros Hweeks Hs.
  destruct events as [events |]; [| by apply elem_of_nil in Hs].
  pose proof (lane_assignment_facts now gridDates events) as (_ & _ & Hout & _).
  cbv zeta in Hout. rewrite Hout in Hs.
  apply list_elem_of_bind in Hs as (i & Hs & _).
  set (evs := sortedEvents now events) in *.
  assert (Hcells : forall c, c ∈ segmentCells s -> c < length gridDates).
  { intros c Hc.
    destruct (segment_cell_of_event now gridDates evs i s c Hs Hc)
      as (e & r & He & Hl & _ & _ & Hce).
    apply occupiedCells_interval in Hce as [_ Hhi].
    fold (endIndexOf now gridDates e) in Hhi.
    destruct (endIndexOf now gridDates e) as [j |] eqn:Hj.
    - unfold endIndexOf in Hj. apply indexDates_last in Hj as [(d & Hd & _) _].
      apply lookup_lt_Some in Hd. destruct (all_day e); lia.
    - pose proof (Nat.div_mod_eq (length gridDates) 7).
      Z.div_mod_to_equations. lia. }
  apply segmentsOf_elem in Hs as (e & r & He & Hl & Hs).
  pose proof Hs as (_ & _ & Hw & _)%eventSegments_elem.
  unfold weekSegment in Hw.
  destruct (decide _) as [? | Hpos]; [by apply elem_of_nil in Hw |].
  apply list_elem_of_singleton in Hw.
  assert (Hspan : span s = spanOf gridDates e (startIndexOf now gridDates e)
                                  (endIndexOf now gridDates e) (gridRow s)).
  { rewrite Hw at 1. reflexivity. }
  assert (Hcol : gridColumn s = colStartOf (startIndexOf now gridDates e) (gridRow s)).
  { rewrite Hw at 1. reflexivity. }
  pose proof (colEndOf_le gridDates e (endIndexOf now gridDates e) (gridRow s)) as Hle.
  rewrite spanOf_colEnd in Hspan, Hpos.
  split; [lia |]. split; [lia |]. split; [| exact Hcells].
  assert (Hfirst : gridRow s * 7 + gridColumn s ∈ segmentCells s).
  { unfold segmentCells, segmentColumns. apply list_elem_of_fmap.
    exists (gridColumn s). split; [reflexivity |]. apply elem_of_seq. lia. }
  apply Hcells in Hfirst. unfold numWeeks.
  pose proof (Nat.div_mod_eq (length gridDates + 6) 7).
  pose proof (Nat.mod_upper_bound (length gridDates + 6) 7 ltac:(lia)). lia.
Qed.

(** X15: in a grid of whole weeks every segment stays inside its week
    and inside the grid: it spans at least one column, ends by the last
    column of its row, and its row is one of the weeks of the grid. *)
Theorem segments_stay_in_grid (now : Z) (gridDates : list Date)
    (events : option (list Event)) (s : Segment) :
  length gridDates `mod` 7 = 0 ->
  s ∈ (organizeEventsForGrid now events gridDates).(multiDayEvents) ->
  (1 <= s.(span))%Z /\
  (Z.of_nat s.(gridColumn) + s.(span) <= 7)%Z /\
  s.(gridRow) < numWeeks gridDates /\
  forall c, c ∈ segmentCells s -> c < length gridDates.
Proof. apply segment_in_grid. Qed.

(** The bar of event A in the grid of November 2026: columns 0 to 2 of
    the second week. *)
Lemma segments_stay_in_grid_witness :
  let s := {| event := eventA; gridColumn := 0; gridRow := 1; span := 3;
              eventRow := 0; showLeftArrow := false; showRightArrow := false |} in
  (1 <= s.(span))%Z /\
  (Z.of_nat s.(gridColumn) + s.(span) <= 7)%Z /\
  s.(gridRow) < numWeeks november2026 /\
  forall c, c ∈ segmentCells s -> c < length november2026.
Proof.
  apply (segments_stay_in_grid 0 november2026 (Some [eventA; eventB])).
  - vm_compute. reflexivity.
  - apply (bool_decide_unpack _). vm_compute. exact I.
Defined.

End LaneFacts.

(** ** More on display rows, render order and visibility *)

Module DisplayFacts.
Import JSDate Calendar LaneAssigner Overflow Display BucketFacts LaneFacts Examples.

Local Open Scope nat_scope.

(** *** Grouping by week *)

Lemma uniqueValues_snoc (l : list nat) (r : nat) :
  uniqueValues (l ++ [r])
  = if decide (r ∈ uniqueValues l) then uniqueValues l else uniqueValues l ++ [r].
Proof. unfold uniqueValues. rewrite foldl_app. reflexivity. Qed.

Lemma weekOf_snoc (segs : list Segment) (s : Segment) (row : nat) :
  weekOf (segs ++ [s]) row
  = if decide (gridRow s = row) then weekOf segs row ++ [s] else weekOf segs row.
Proof.
  unfold weekOf. rewrite filter_app. cbn [filter list_filter].
  destruct (decide (gridRow s = row)); [reflexivity | apply app_nil_r].
Qed.

Lemma weekOf_elem (segs : list Segment) (row : nat) (s : Segment) :
  s ∈ weekOf segs row <-> gridRow s = row /\ s ∈ segs.
Proof. unfold weekOf. rewrite list_elem_of_filter. reflexivity. Qed.

Lemma pushToWeek_rows (segs : list Segment) (s : Segment) (rows : list nat) :
  NoDup rows ->
  gridRow s ∈ rows \/ weekOf segs (gridRow s) = [] ->
  pushToWeek s ((λ row, (row, weekOf segs row)) <$> rows)
  = (λ row, (row, weekOf (segs ++ [s]) row))
      <$> (if decide (gridRow s ∈ rows) then rows else rows ++ [gridRow s]).
Proof.
  induction rows as [| r rows IH]; intros Hnd Hin.
  - destruct Hin as [Hin | Hempty]; [by apply elem_of_nil in Hin |].
    rewrite decide_False by apply not_elem_of_nil. cbn [fmap list_fmap app pushToWeek].
    rewrite weekOf_snoc, decide_True, Hempty by reflexivity. reflexivity.
  - apply NoDup_cons in Hnd as [Hr Hnd]. cbn [fmap list_fmap pushToWeek].
    destruct (decide (r = gridRow s)) as [-> | Hne].
    + rewrite decide_True by apply list_elem_of_here. cbn [fmap list_fmap].
      rewrite weekOf_snoc, decide_True by reflexivity. f_equal.
      apply list_fmap_ext. intros i row Hrow. f_equal.
      rewrite weekOf_snoc, decide_False; [reflexivity |].
      intros <-. apply Hr. eapply list_elem_of_lookup_2. exact Hrow.
    + assert (Hin' : gridRow s ∈ rows \/ weekOf segs (gridRow s) = []).
      { destruct Hin as [[? | ?]%elem_of_cons | ?]; [congruence | auto | auto]. }
      change (list_fmap _ _ ?f rows) with (f <$> rows).
      rewrite (IH Hnd Hin').
      destruct (decide (gridRow s ∈ rows)) as [Hs | Hs].
      * rewrite decide_True by (apply list_elem_of_further; exact Hs).
        cbn [fmap list_fmap]. rewrite weekOf_snoc, decide_False by congruence. reflexivity.
      * rewrite decide_False by (intros [? | ?]%elem_of_cons; [congruence | done]).
        cbn [fmap list_fmap app]. rewrite weekOf_snoc, decide_False by congruence.
        reflexivity.
Qed.

(** [eventsByWeek] has one entry per week that has a segment, in the
    order in which the weeks first occur, holding the segments of that
    week in the order of the list. *)
Lemma groupByWeek_weeks (segs : list Segment) :
  groupByWeek segs
  = (λ row, (row, weekOf segs row)) <$> uniqueValues (gridRow <$> segs).
Proof.
  induction segs as [| s segs IH] using rev_ind; [reflexivity |].
  unfold groupByWeek. rewrite foldl_app. cbn [foldl]. fold (groupByWeek segs).
  rewrite IH, fmap_app. cbn [fmap list_fmap]. rewrite uniqueValues_snoc.
  destruct (uniqueValues_spec (gridRow <$> segs)) as [Hnd Hel].
  apply pushToWeek_rows; [exact Hnd |].
  destruct (decide (gridRow s ∈ uniqueValues (gridRow <$> segs))) as [? | Hout]; [auto |].
  right. unfold weekOf. apply filter_none. apply Forall_forall. intros s' Hs' Heq.
  apply Hout, Hel, list_elem_of_fmap. exists s'. auto.
Qed.

(** *** Counting display rows *)

Lemma countsOf_iff (len : nat) (m : gmap nat nat) (P Q : nat -> nat -> Prop) :
  (forall c v, P c v <-> Q c v) -> countsOf len m P -> countsOf len m Q.
Proof.
  intros Hpq Hm c. destruct (Hm c) as [Hout Hin]. split; [exact Hout |].
  intros Hc. destruct (Hin Hc) as (n & Hn & Hmax & Hhit).
  exists n. split; [exact Hn |]. split.
  - intros v Hv. apply Hmax, Hpq, Hv.
  - intros Hpos. apply Hpq, Hhit, Hpos.
Qed.

Lemma countsOf_init (len : nat) :
  countsOf len (foldl (λ (m : gmap nat nat) index, <[index := 0]> m) ∅ (seq 0 len))
           (λ _ _, False).
Proof.
  assert (H : forall n c,
            foldl (λ (m : gmap nat nat) index, <[index := 0]> m) ∅ (seq 0 n) !! c
            = if decide (c < n) then Some 0 else None).
  { induction n as [| n IH]; intros c; [apply lookup_empty |].
    rewrite seq_S, foldl_app. cbn [foldl plus].
    destruct (decide (n = c)) as [-> | Hne].
    - rewrite lookup_insert_eq, decide_True by lia. reflexivity.
    - rewrite lookup_insert_ne, IH by done.
      destruct (decide (c < n)), (decide (c < S n)); try reflexivity; lia. }
  intros c. rewrite H. split.
  - intros Hc. rewrite decide_False by lia. reflexivity.
  - intros Hc. rewrite decide_True by lia. exists 0.
    split; [reflexivity |]. split; [tauto | lia].
Qed.

Lemma countsOf_bump (len : nat) (m : gmap nat nat) (P : nat -> nat -> Prop)
    (cellIndex v : nat) :
  countsOf len m P ->
  countsOf len
    (if decide (cellIndex < len)
     then <[cellIndex := default 0 (m !! cellIndex) `max` v]> m else m)
    (λ c n, P c n \/ (c = cellIndex /\ n = v)).
Proof.
  intros Hm c. destruct (Hm c) as [Hout Hin].
  destruct (decide (cellIndex < len)) as [Hlt | Hge].
  - split.
    + intros Hc. rewrite lookup_insert_ne by lia. auto.
    + intros Hc. destruct (Hin Hc) as (n & Hn & Hmax & Hhit).
      destruct (decide (cellIndex = c)) as [-> | Hne].
      * rewrite lookup_insert_eq, Hn. cbn [default from_option]. unfold id.
        exists (n `max` v). split; [reflexivity |]. split.
        -- intros w [Hw | [_ ->]]; [apply Hmax in Hw |]; lia.
        -- intros Hpos. destruct (Nat.max_spec n v) as [[? Hv] | [? Hv]]; rewrite Hv in *; [auto |].
           left. apply Hhit. lia.
      * rewrite lookup_insert_ne by done. exists n. split; [exact Hn |]. split.
        -- intros w [Hw | [-> _]]; [auto | done].
        -- auto.
  - split; [exact Hout |]. intros Hc. destruct (Hin Hc) as (n & Hn & Hmax & Hhit).
    exists n. split; [exact Hn |]. split.
    + intros w [Hw | [-> _]]; [auto | lia].
    + auto.
Qed.

Lemma countsOf_foldl {A} (len : nat) (f : gmap nat nat -> A -> gmap nat nat)
    (contrib : A -> nat -> nat -> Prop) (l : list A) :
  (forall m P a, a ∈ l -> countsOf len m P ->
     countsOf len (f m a) (λ c v, P c v \/ contrib a c v)) ->
  forall m P, countsOf len m P ->
    countsOf len (foldl f m l) (λ c v, P c v \/ exists a, a ∈ l /\ contrib a c v).
Proof.
  induction l as [| a l IH]; intros Hstep m P Hm; cbn [foldl].
  - revert Hm. apply countsOf_iff. intros c v. split; [auto |].
    intros [? | (a & Ha & _)]; [done | by apply elem_of_nil in Ha].
  - assert (Ha : countsOf len (f m a) (λ c v, P c v \/ contrib a c v)).
    { apply Hstep; [apply list_elem_of_here | exact Hm]. }
    apply IH in Ha.
    + revert Ha. apply countsOf_iff. intros c v. split.
      * intros [[? | ?] | (b & Hb & ?)]; [auto | |].
        -- right. exists a. split; [apply list_elem_of_here | done].
        -- right. exists b. split; [apply list_elem_of_further, Hb | done].
      * intros [? | (b & [-> | Hb]%elem_of_cons & ?)]; [auto | auto |].
        right. exists b. auto.
    + intros m' P' b Hb. apply Hstep. apply list_elem_of_further, Hb.
Qed.

Lemma countSegment_counts (len weekRow displayRow : nat) (m : gmap nat nat)
    (P : nat -> nat -> Prop) (s : Segment) :
  countsOf len m P ->
  countsOf len (countSegment len weekRow displayRow m s)
    (λ c v, P c v \/
            (c ∈ (λ col, weekRow * 7 + col) <$> segmentColumns s /\ v = displayRow + 1)).
Proof.
  intros Hm. unfold countSegment.
  pose proof (countsOf_foldl len
    (λ (m : gmap nat nat) col,
       let cellIndex := weekRow * 7 + col in
       if decide (cellIndex < len)
       then <[cellIndex := default 0 (m !! cellIndex) `max` (displayRow + 1)]> m
       else m)
    (λ col c v, c = weekRow * 7 + col /\ v = displayRow + 1)
    (segmentColumns s)) as Hfold.
  cbv zeta in Hfold.
  specialize (Hfold (λ m' P' col _ Hm', countsOf_bump len m' P' _ _ Hm') m P Hm).
  revert Hfold. apply countsOf_iff. intros c v. rewrite list_elem_of_fmap.
  split; (intros [? | H]; [auto | right]).
  - destruct H as (col & Hcol & -> & ->). split; [eauto | reflexivity].
  - destruct H as [(col & -> & Hcol) ->]. eauto.
Qed.

Lemma countWeek_counts (len : nat) (m : gmap nat nat) (P : nat -> nat -> Prop)
    (week : nat * list Segment) :
  countsOf len m P ->
  countsOf len (countWeek len m week)
    (λ c v, P c v \/
            exists s, s ∈ week.2 /\
              (c ∈ (λ col, week.1 * 7 + col) <$> segmentColumns s /\
               v = displayRowOf week.2 s + 1)).
Proof.
  intros Hm. unfold countWeek.
  apply (countsOf_foldl len
    (λ m s, countSegment len week.1 (displayRowOf week.2 s) m s)
    (λ s c v, c ∈ (λ col, week.1 * 7 + col) <$> segmentColumns s /\
              v = displayRowOf week.2 s + 1)); [| exact Hm].
  intros m' P' s _. apply countSegment_counts.
Qed.

(** The display-row count of a cell of the grid is the largest compacted
    row, plus one, of the segments that cover it; cells beyond the grid
    are not counted. *)
Lemma calculateDisplayRows_counts (segs : list Segment) (gridDates : list Date) :
  countsOf (length gridDates) (calculateDisplayRows segs gridDates)
    (λ c v, exists s, s ∈ segs /\ c ∈ segmentCells s /\ v = displayRowIn segs s + 1).
Proof.
  unfold calculateDisplayRows. cbv zeta.
  pose proof (countsOf_foldl (length gridDates) (countWeek (length gridDates))
    (λ week c v, exists s, s ∈ week.2 /\
       (c ∈ (λ col, week.1 * 7 + col) <$> segmentColumns s /\
        v = displayRowOf week.2 s + 1))
    (groupByWeek segs)
    (λ m P week _, countWeek_counts (length gridDates) m P week)
    _ _ (countsOf_init (length gridDates))) as Hfold.
  revert Hfold. apply countsOf_iff. intros c v.
  rewrite groupByWeek_weeks. destruct (uniqueValues_spec (gridRow <$> segs)) as [_ Hel].
  split.
  - intros [[] | (week & Hweek & s & Hs & Hc & ->)].
    apply list_elem_of_fmap in Hweek as (row & -> & Hrow). cbn [fst snd] in *.
    apply weekOf_elem in Hs as [<- Hs]. exists s. auto.
  - intros (s & Hs & Hc & ->). right.
    exists (gridRow s, weekOf segs (gridRow s)). split.
    + apply list_elem_of_fmap. exists (gridRow s). split; [reflexivity |].
      apply Hel, list_elem_of_fmap. eauto.
    + exists s. cbn [fst snd]. split; [by apply weekOf_elem |]. auto.
Qed.

Lemma sorted_lt_lookup (l : list nat) (i x : nat) :
  StronglySorted lt l -> l !! i = Some x -> i ≤ x.
Proof.
  intros Hs Hi.
  assert (H : forall i l y x,
            StronglySorted lt (y :: l) -> (y :: l) !! i = Some x -> y + i ≤ x).
  { clear. induction i as [| i IH]; intros l y x Hs Hi.
    - injection Hi as <-. lia.
    - cbn [lookup list_lookup] in Hi. destruct l as [| z l]; [discriminate |].
      apply StronglySorted_inv in Hs as [Hs Hy].
      apply Forall_cons in Hy as [Hyz _].
      specialize (IH l z x Hs Hi). lia. }
  destruct l as [| y l]; [discriminate |].
  specialize (H i l y x Hs Hi). lia.
Qed.

(** The compacted row of a segment is the number of lower lanes its week
    uses; it never exceeds the lane. *)
Lemma displayRowIn_bounds (segs : list Segment) (s : Segment) :
  s ∈ segs ->
  displayRowIn segs s ≤ eventRow s /\
  displayRowIn segs s < length (uniqueEventRows (weekOf segs (gridRow s))).
Proof.
  intros Hs. unfold displayRowIn.
  assert (Hin : s ∈ weekOf segs (gridRow s)) by (by apply weekOf_elem).
  pose proof (displayRowOf_position _ _ Hin) as Hpos.
  destruct (uniqueEventRows_spec (weekOf segs (gridRow s))) as [Hsorted _].
  split; [eapply sorted_lt_lookup; eauto | eapply lookup_lt_Some; eauto].
Qed.

(** X16: the display-row count of a cell of the grid is 0 when no segment
    covers the cell, and otherwise one more than the largest compacted row
    of the segments that cover it, which is at most one more than the
    lane of such a segment. *)
Theorem display_rows_of_cell (segs : list Segment) (gridDates : list Date) (c : nat) :
  c < length gridDates ->
  exists n, calculateDisplayRows segs gridDates !! c = Some n /\
    (forall s, s ∈ segs -> c ∈ segmentCells s -> displayRowIn segs s < n) /\
    (0 < n -> exists s, s ∈ segs /\ c ∈ segmentCells s /\
                n = displayRowIn segs s + 1 /\ n ≤ eventRow s + 1).
Proof.
  intros Hc.
  destruct (calculateDisplayRows_counts segs gridDates c) as [_ Hin].
  destruct (Hin Hc) as (n & Hn & Hmax & Hhit).
  exists n. split; [exact Hn |]. split.
  - intros s Hs Hcs.
    assert (displayRowIn segs s + 1 ≤ n); [| lia].
    apply Hmax. exists s. auto.
  - intros Hpos. destruct (Hhit Hpos) as (s & Hs & Hcs & ->).
    exists s. destruct (displayRowIn_bounds segs s Hs).
    repeat split; auto; lia.
Qed.

(** Monday 9 November in the sample layout: lanes 0 and 3 cover it, it
    counts two display rows. *)
Lemma display_rows_of_cell_witness :
  exists n, calculateDisplayRows stackedLayout.(multiDayEvents) november2026 !! 14 = Some n /\
    (forall s, s ∈ stackedLayout.(multiDayEvents) -> 14 ∈ segmentCells s ->
       displayRowIn stackedLayout.(multiDayEvents) s < n) /\
    (0 < n -> exists s, s ∈ stackedLayout.(multiDayEvents) /\ 14 ∈ segmentCells s /\
                n = displayRowIn stackedLayout.(multiDayEvents) s + 1 /\
                n ≤ eventRow s + 1).
Proof.
  apply (display_rows_of_cell stackedLayout.(multiDayEvents) november2026 14).
  vm_compute. lia.
Defined.

(** *** The order of the bars in the overlay *)

Lemma StronglySorted_lookup_lt {A} (R : A -> A -> Prop) (l : list A) (i j : nat) (a b : A) :
  StronglySorted R l -> l !! i = Some a -> l !! j = Some b -> i < j -> R a b.
Proof.
  intros Hs. revert i j. induction Hs as [| x l _ IH Hx]; intros i j Hi Hj Hlt.
  - discriminate.
  - destruct j as [| j]; [lia |]. cbn [lookup list_lookup] in Hj.
    destruct i as [| i].
    + injection Hi as <-. rewrite Forall_forall in Hx.
      apply Hx. eapply list_elem_of_lookup_2. exact Hj.
    + cbn [lookup list_lookup] in Hi. apply (IH i j); [done | done | lia].
Qed.

Lemma renderOrder_sorted (segs : list Segment) :
  StronglySorted rendersNoLater (renderOrder segs).
Proof.
  apply jsSort_sorted; unfold rendersAfter, rendersNoLater.
  - intros a b H. case_decide; apply Nat.ltb_lt in H; lia.
  - intros a b c H Hbc. case_decide; apply Nat.ltb_lt in H; lia.
  - intros a b H. case_decide; apply Nat.ltb_ge in H; lia.
Qed.

(** X17: the bars are appended to the overlay week by week, and within a
    week from the highest lane down; so of two bars of one week the one
    appended later has the lower lane, a z-index that is not smaller and
    a top that is not lower.  The sort only reorders the segments. *)
Theorem render_order_stacking (segs : list Segment) (cellWidth cellHeightPx : Q)
    (i j : nat) (a b : Segment) :
  renderOrder segs !! i = Some a -> renderOrder segs !! j = Some b -> i < j ->
  renderOrder segs ≡ₚ segs /\
  gridRow a ≤ gridRow b /\
  (gridRow a = gridRow b ->
     eventRow b ≤ eventRow a /\
     ((createSpanningEvent a cellWidth cellHeightPx).(zIndex)
      <= (createSpanningEvent b cellWidth cellHeightPx).(zIndex))%Z /\
     ((createSpanningEvent b cellWidth cellHeightPx).(top)
      <= (createSpanningEvent a cellWidth cellHeightPx).(top))%Q).
Proof.
  intros Ha Hb Hlt. split; [apply jsSort_perm |].
  pose proof (StronglySorted_lookup_lt _ _ _ _ _ _ (renderOrder_sorted segs) Ha Hb Hlt)
    as Hab.
  unfold rendersNoLater in Hab. split; [lia |]. intros Hrow.
  assert (Hlane : eventRow b ≤ eventRow a) by lia.
  split; [exact Hlane |]. unfold createSpanningEvent. cbn [zIndex top].
  split; [lia |]. rewrite Hrow.
  assert (Hq : (natQ (eventRow b) <= natQ (eventRow a))%Q).
  { unfold natQ. rewrite <- Zle_Qle. lia. }
  unfold eventRowHeightPx. lra.
Qed.

(** The first two bars appended for the sample layout: lanes 3 and 2 of
    the second week. *)
Lemma render_order_stacking_witness :
  exists a b,
    renderOrder stackedLayout.(multiDayEvents) !! 0 = Some a /\
    renderOrder stackedLayout.(multiDayEvents) !! 1 = Some b /\
    gridRow a ≤ gridRow b /\
    (gridRow a = gridRow b ->
       eventRow b ≤ eventRow a /\
       ((createSpanningEvent a (100 / 7) 100).(zIndex)
        <= (createSpanningEvent b (100 / 7) 100).(zIndex))%Z /\
       ((createSpanningEvent b (100 / 7) 100).(top)
        <= (createSpanningEvent a (100 / 7) 100).(top))%Q).
Proof.
  eexists _, _.
  split; [vm_compute; reflexivity |]. split; [vm_compute; reflexivity |].
  eapply (fun H0 H1 =>
            proj2 (render_order_stacking stackedLayout.(multiDayEvents) (100 / 7) 100
                     0 1 _ _ H0 H1 (Nat.lt_0_1))).
  - vm_compute. reflexivity.
  - vm_compute. reflexivity.
Defined.

(** *** Which bars the resize callback displays *)

Lemma cellLimitZ_bounds (a total timed : Z) :
  (0 <= total)%Z -> (Z.min 1 total <= cellLimitZ a total timed <= total)%Z.
Proof. intros Ht. unfold cellLimitZ. split_tests; lia. Qed.

Lemma cellLimits_value (gridDates : list Date) (layout : Organized)
    (counts : gmap nat nat) (h : Q) (c : nat) :
  c < length gridDates ->
  exists lim, cellLimits gridDates layout counts h !! c = Some lim /\
    (Z.min 1 (totalSpanningInCell counts c) <= lim <= totalSpanningInCell counts c)%Z.
Proof.
  intros Hc. destruct (lookup_lt_is_Some_2 gridDates c Hc) as [date Hdate].
  rewrite cellLimits_lookup.
  rewrite (proj2 (resizeCells_lookup gridDates layout counts h c _)
             (ex_intro _ date (conj Hdate eq_refl))).
  eexists. split; [reflexivity |].
  rewrite cellOverflow_floor. cbv zeta. cbn [maxVisibleSpanning].
  apply cellLimitZ_bounds. unfold totalSpanningInCell. lia.
Qed.

Lemma segmentColumns_cell (s : Segment) (col : nat) :
  In col (segmentColumns s) -> gridRow s * 7 + col ∈ segmentCells s.
Proof.
  intros Hcol. unfold segmentCells. apply list_elem_of_fmap.
  exists col. split; [reflexivity | by apply list_elem_of_In].
Qed.

Section visibility.
Context (now : Z) (gridDates : list Date) (events : option (list Event)).
Context (Hweeks : length gridDates `mod` 7 = 0).

(** A cell of a segment of the layout determines the week of the segment. *)
Lemma segment_cell_week (s : Segment) (c : nat) :
  s ∈ (organizeEventsForGrid now events gridDates).(multiDayEvents) ->
  c ∈ segmentCells s -> c `div` 7 = gridRow s /\ c < length gridDates.
Proof.
  intros Hs Hc.
  destruct (segment_in_grid now gridDates events s Hweeks Hs) as (_ & Hcols & _ & Hcells).
  split; [| by apply Hcells].
  unfold segmentCells, segmentColumns in Hc.
  apply list_elem_of_fmap in Hc as (col & -> & Hcol). apply elem_of_seq in Hcol.
  apply week_of_cell. lia.
Qed.

(** X18: a bar on lane 0 is displayed at every height of the grid. *)
Theorem first_lane_always_displayed (h : Q) (s : Segment) :
  let layout := organizeEventsForGrid now events gridDates in
  s ∈ renderOrder layout.(multiDayEvents) ->
  eventRow s = 0 ->
  shouldBeVisible gridDates layout
    (calculateDisplayRows layout.(multiDayEvents) gridDates) h s = true.
Proof.
  intros layout Hs Hlane. unfold renderOrder in Hs. rewrite jsSort_perm in Hs.
  destruct (segment_in_grid now gridDates events s Hweeks Hs) as (Hspan & _ & _ & Hcells).
  assert (Hcol : In (gridColumn s) (segmentColumns s)).
  { unfold segmentColumns. apply in_seq. lia. }
  pose proof (segmentColumns_cell s _ Hcol) as Hcell.
  pose proof (Hcells _ Hcell) as Hc.
  destruct (calculateDisplayRows_counts layout.(multiDayEvents) gridDates
              (gridRow s * 7 + gridColumn s)) as [_ Hin].
  destruct (Hin Hc) as (n & Hn & Hmax & _).
  assert (Hpos : displayRowIn layout.(multiDayEvents) s + 1 ≤ n).
  { apply Hmax. exists s. auto. }
  destruct (cellLimits_value gridDates layout
              (calculateDisplayRows layout.(multiDayEvents) gridDates) h _ Hc)
    as (lim & Hlim & Hb).
  unfold totalSpanningInCell in Hb. rewrite Hn in Hb. cbn [default from_option] in Hb.
  unfold id in Hb.
  unfold shouldBeVisible. apply existsb_exists. exists (gridColumn s).
  split; [exact Hcol |]. cbv zeta. rewrite Hlim. cbn [default from_option]. unfold id.
  apply Z.ltb_lt. lia.
Qed.

(** X19: a bar whose lane is not below the number of lanes its week uses
    is hidden at every height of the grid, however much room there is:
    the limit of a cell is at most its count of compacted rows, and the
    bar is compared with it by its global lane. *)
Theorem bar_beyond_row_count_hidden (h : Q) (s : Segment) :
  let layout := organizeEventsForGrid now events gridDates in
  s ∈ renderOrder layout.(multiDayEvents) ->
  length (uniqueEventRows (weekOf layout.(multiDayEvents) (gridRow s))) ≤ eventRow s ->
  shouldBeVisible gridDates layout
    (calculateDisplayRows layout.(multiDayEvents) gridDates) h s = false.
Proof.
  intros layout Hs Hlane. unfold renderOrder in Hs. rewrite jsSort_perm in Hs.
  apply not_true_iff_false. intros Hvis.
  unfold shouldBeVisible in Hvis. apply existsb_exists in Hvis as (col & Hcol & Hlt).
  cbv zeta in Hlt. apply Z.ltb_lt in Hlt.
  pose proof (segmentColumns_cell s _ Hcol) as Hcell.
  destruct (segment_cell_week s _ Hs Hcell) as [Hweek Hc].
  destruct (calculateDisplayRows_counts layout.(multiDayEvents) gridDates
              (gridRow s * 7 + col)) as [_ Hin].
  destruct (Hin Hc) as (n & Hn & _ & Hhit).
  destruct (cellLimits_value gridDates layout
              (calculateDisplayRows layout.(multiDayEvents) gridDates) h _ Hc)
    as (lim & Hlim & Hb).
  unfold totalSpanningInCell in Hb. rewrite Hn in Hb. cbn [default from_option] in Hb.
  unfold id in Hb.
  rewrite Hlim in Hlt. cbn [default from_option] in Hlt. unfold id in Hlt.
  destruct Hhit as (s' & Hs' & Hcell' & Hn'); [lia |].
  destruct (segment_cell_week s' _ Hs' Hcell') as [Hweek' _].
  destruct (displayRowIn_bounds layout.(multiDayEvents) s' Hs') as [_ Hlen].
  rewrite <- Hweek', Hweek in Hlen. lia.
Qed.
End visibility.

(** Event A in the grid of November 2026, at a height of 10px per week. *)
Lemma first_lane_always_displayed_witness :
  let layout := organizeEventsForGrid 0 (Some [eventA; eventB]) november2026 in
  let s := {| event := eventA; gridColumn := 0; gridRow := 1; span := 3;
              eventRow := 0; showLeftArrow := false; showRightArrow := false |} in
  shouldBeVisible november2026 layout
    (calculateDisplayRows layout.(multiDayEvents) november2026) 10 s = true.
Proof.
  apply (first_lane_always_displayed 0 november2026 (Some [eventA; eventB])).
  - vm_compute. reflexivity.
  - apply (bool_decide_unpack _). vm_compute. exact I.
  - reflexivity.
Defined.

(** The bar on lane 3 of the third week of the sample layout, a week that
    uses two lanes, at a height of 1000px per week. *)
Lemma bar_beyond_row_count_hidden_witness :
  exists s,
    renderOrder stackedLayout.(multiDayEvents) !! 4 = Some s /\
    eventRow s = 3 /\
    shouldBeVisible november2026 stackedLayout
      (calculateDisplayRows stackedLayout.(multiDayEvents) november2026) 1000 s = false.
Proof.
  eexists. split; [vm_compute; reflexivity |]. split; [reflexivity |].
  apply (bar_beyond_row_count_hidden 0 november2026 (Some stackedEvents)).
  - vm_compute. reflexivity.
  - apply (list_elem_of_lookup_2 _ 4). vm_compute. reflexivity.
  - vm_compute. lia.
Defined.

End DisplayFacts.

(** ** The arrows of a bar *)

Module ArrowFacts.
Import JSDate Calendar LaneAssigner Examples.

Local Open Scope nat_scope.

Lemma eventSegments_arrows (gridDates : list Date) (e : Event) (si ei : option nat)
    (r : nat) (s : Segment) :
  s ∈ eventSegments gridDates e si ei r ->
  (showLeftArrow s = true <-> si ≠ Some (gridRow s * 7 + gridColumn s)) /\
  (showRightArrow s = true <->
     match ei with Some j => (gridRow s + 1) * 7 ≤ j | None => True end).
Proof.
  unfold eventSegments. intros (w & Hs & Hw)%list_elem_of_bind.
  unfold weekIndices in Hw. apply elem_of_seq in Hw.
  unfold weekSegment in Hs.
  destruct (decide _) as [? | Hpos]; [by apply elem_of_nil in Hs |].
  apply list_elem_of_singleton in Hs. subst s.
  cbn [showLeftArrow showRightArrow gridRow gridColumn]. clear Hpos.
  rewrite !orb_true_iff, !andb_true_iff, !bool_decide_eq_true.
  unfold colStartOf, firstWeekIndex, lastWeekIndex in *.
  split.
  - destruct si as [i |]; cbn [from_option] in *.
    + pose proof (Nat.div_mod_eq i 7). pose proof (Nat.mod_upper_bound i 7 ltac:(lia)).
      case_decide; split.
      * intros [[_ [=]] | ?]; lia.
      * intros Hne. exfalso. apply Hne. f_equal. lia.
      * intros _ [= ->]. lia.
      * intros _. right. lia.
    + split; [intros _; discriminate |]. intros _.
      destruct (decide (w = 0)); [left; done | right; lia].
  - destruct ei as [j |]; cbn [from_option] in *.
    + pose proof (Nat.div_mod_eq j 7). pose proof (Nat.mod_upper_bound j 7 ltac:(lia)).
      split.
      * intros [[_ [=]] | ?]; lia.
      * intros Hj. right. lia.
    + split; [done |]. intros _.
      set (lw := ((Z.of_nat (length gridDates) - 1) / 7)%Z) in *.
      destruct (decide (Z.of_nat w = lw)); [left; done | right; lia].
Qed.

(** X20: a bar has a left arrow exactly when it does not begin on the
    cell of the event's start date, and a right arrow exactly when the
    event's end date is beyond the grid or in a later week.  The latter
    includes the all-day event whose end date, which it does not cover,
    is the Monday after the bar. *)
Theorem arrows_mark_continuation (now : Z) (gridDates : list Date)
    (events : option (list Event)) (s : Segment) :
  s ∈ (organizeEventsForGrid now events gridDates).(multiDayEvents) ->
  (showLeftArrow s = true <->
     startIndexOf now gridDates (event s) ≠ Some (gridRow s * 7 + gridColumn s)) /\
  (showRightArrow s = true <->
     match endIndexOf now gridDates (event s) with
     | Some j => (gridRow s + 1) * 7 ≤ j
     | None => True
     end).
Proof.
  intros Hs. destruct events as [events |]; [| by apply elem_of_nil in Hs].
  pose proof (lane_assignment_facts now gridDates events) as (_ & _ & Hout & _).
  cbv zeta in Hout. rewrite Hout in Hs.
  apply list_elem_of_bind in Hs as (i & Hs & _).
  apply segmentsOf_elem in Hs as (e & r & _ & _ & Hs).
  pose proof (eventSegments_elem _ _ _ _ _ _ Hs) as (-> & _).
  exact (eventSegments_arrows _ _ _ _ _ _ Hs).
Qed.

(** An all-day event on Saturday 7 and Sunday 8 November 2026, its end
    date Monday 9: its only bar has a right arrow. *)
Lemma arrows_mark_continuation_witness :
  let weekend := allDayEvent "Weekend" (localTime 2026 10 7 0) (localTime 2026 10 9 0) in
  let s := {| event := weekend; gridColumn := 5; gridRow := 1; span := 2;
              eventRow := 0; showLeftArrow := false; showRightArrow := true |} in
  (organizeEventsForGrid 0 (Some [weekend]) november2026).(multiDayEvents) = [s] /\
  (showRightArrow s = true <->
     match endIndexOf 0 november2026 (event s) with
     | Some j => (gridRow s + 1) * 7 ≤ j
     | None => True
     end).
Proof.
  cbv zeta. split; [vm_compute; reflexivity |].
  refine (proj2 (arrows_mark_continuation 0 november2026
                   (Some [allDayEvent "Weekend" (localTime 2026 10 7 0)
                                      (localTime 2026 10 9 0)]) _ _)).
  apply (bool_decide_unpack _). vm_compute. exact I.
Defined.

End ArrowFacts.

(** ** The timed markers of a cell *)

Module TimedFacts.
Import JSDate Calendar Overflow DisplayFacts Examples.

Local Open Scope Z_scope.

Lemma displayedTimed_take (visibleTimed : Z) (els : list Event) :
  displayedTimed visibleTimed els = take (Z.to_nat visibleTimed) els.
Proof.
  unfold displayedTimed. induction els as [| x els IH] using rev_ind; [by rewrite take_nil |].
  rewrite imap_app, filter_app, fmap_app, IH, take_app.
  cbn [imap]. rewrite Nat.add_0_r. f_equal.
  rewrite filter_cons, filter_nil. cbn [fst].
  destruct (decide (Z.of_nat (length els) < visibleTimed)) as [Hlt | Hge].
  - destruct (Z.to_nat visibleTimed - length els)%nat as [| k] eqn:Hk; [lia |].
    cbn [fmap list_fmap snd take]. by rewrite take_nil.
  - replace (Z.to_nat visibleTimed - length els)%nat with 0%nat by lia. reflexivity.
Qed.

(** X21: of the timed events of a day only the first three get a marker,
    and the resize callback displays the first [visibleTimed] of these;
    what it counts as hidden are the events above [visibleTimed].  So
    when the height allows more than three markers, the events from the
    fourth up to that number are neither displayed nor counted in the
    indicator. *)
Theorem timed_markers_beyond_three (availableHeight : Q) (total : Z)
    (dayTimedEvents : list Event) :
  0 <= total ->
  let o := cellOverflow availableHeight total (Z.of_nat (length dayTimedEvents)) in
  let shown := displayedTimed o.(visibleTimed) (timedElements dayTimedEvents) in
  shown = take (Z.to_nat (Z.min 3 o.(visibleTimed))) dayTimedEvents /\
  o.(maxVisibleSpanning) + Z.of_nat (length shown) + o.(totalHidden)
  = total + Z.of_nat (length dayTimedEvents) - Z.max 0 (o.(visibleTimed) - 3).
Proof.
  intros Ht. cbv zeta. rewrite displayedTimed_take. unfold timedElements, initialMaxTimed.
  rewrite take_take.
  replace (Z.to_nat (visibleTimed (cellOverflow availableHeight total
                                     (Z.of_nat (length dayTimedEvents)))) `min` 3)%nat
    with (Z.to_nat (Z.min 3 (visibleTimed (cellOverflow availableHeight total
                                             (Z.of_nat (length dayTimedEvents))))))
    by lia.
  split; [reflexivity |].
  rewrite length_take, cellOverflow_floor. cbv zeta.
  cbn [maxVisibleSpanning visibleTimed totalHidden].
  set (timed := Z.of_nat (length dayTimedEvents)).
  pose proof (cellLimitZ_bounds (Qfloor availableHeight) total timed Ht) as Hm.
  assert (Hv : 0 <= visibleTimedZ (Qfloor availableHeight) total timed <= timed).
  { unfold visibleTimedZ. lia. }
  lia.
Qed.

(** Five timed events in a cell without bars, 1000px high: everything
    fits, three markers are displayed and nothing counts as hidden. *)
Lemma timed_markers_beyond_three_witness :
  let evs := replicate 5 (timedEvent "Call" (localTime 2026 10 3 9) (localTime 2026 10 3 10)) in
  let o := cellOverflow 1000 0 (Z.of_nat (length evs)) in
  displayedTimed o.(visibleTimed) (timedElements evs) = take 3 evs /\
  o.(totalHidden) = 0.
Proof.
  cbv zeta.
  destruct (timed_markers_beyond_three 1000 0
              (replicate 5 (timedEvent "Call" (localTime 2026 10 3 9)
                                       (localTime 2026 10 3 10))))
    as [Hshown _]; [lia |].
  split; [exact Hshown | vm_compute; reflexivity].
Defined.

End TimedFacts.
